(** * ioBroker.procon-ip: the adapter's reconciliation and dispatch logic

    A shallow embedding of [src/main.ts] (class [ProconIp]).  The poll
    callback, the object materializer and the four write-intent handlers
    are functions over an explicit adapter state; store calls and device
    commands are recorded in traces.

    Conventions.
    - An ioBroker id [a.b.c] is kept as the list of its dot-separated
      segments, so the template string
      [`${name}.${instance}.${category}.${categoryId}.${field}`] is a
      five-element list.
    - JavaScript numbers that the adapter handles (ids, category ids,
      values, seconds) are integers in [Z]; the code only compares and
      adds them.
    - The classes of the [procon-ip] package ([GetStateData],
      [GetStateDataSysInfo], [RelayDataInterpreter], the services) are not
      part of this repository; they appear as records carrying what the
      adapter reads from them. *)

From stdpp Require Import base option list strings gmap pretty.
From Stdlib Require Import ZArith Lia Ascii.

Local Open Scope string_scope.
Local Open Scope Z_scope.

(** ** Values *)

(** [ioBroker.StateValue]: what a state can hold. *)
Inductive StateValue :=
| SVNull
| SVBool (b : bool)
| SVNum (n : Z)
| SVStr (s : string).

#[global] Instance StateValue_eq_dec : EqDecision StateValue.
Proof. solve_decision. Defined.

(** JavaScript truthiness of a state value ([if (state.val)]). *)
Definition truthy (v : StateValue) : bool :=
  match v with
  | SVNull => false
  | SVBool b => b
  | SVNum n => negb (n =? 0)
  | SVStr s => negb (bool_decide (s = ""))
  end.

(** A scalar of the system info: a number or a string. *)
Inductive SysVal :=
| SysNum (n : Z)
| SysStr (s : string).

#[global] Instance SysVal_eq_dec : EqDecision SysVal.
Proof. solve_decision. Defined.

(** [info.value.toString()] *)
Definition toString (v : SysVal) : string :=
  match v with
  | SysNum n => pretty n
  | SysStr s => s
  end.

(** ** Array operations on [_forceUpdate : number[]] *)

(** [arr.indexOf(x)]: the first index holding [x], or -1. *)
Fixpoint indexOf {A} `{EqDecision A} (arr : list A) (x : A) : Z :=
  match arr with
  | [] => -1
  | y :: rest =>
      if bool_decide (y = x) then 0
      else let i := indexOf rest x in if i <? 0 then -1 else i + 1
  end.

(** [arr[i]]: [undefined] (here [None]) when [i] is negative or too large. *)
Definition js_get (arr : list Z) (i : Z) : option Z :=
  if i <? 0 then None else arr !! Z.to_nat i.

(** Truthiness of [arr[i]] where the elements are numbers: [undefined] and
    [0] are both falsy. *)
Definition truthy_elem (e : option Z) : bool :=
  match e with
  | None => false
  | Some n => negb (n =? 0)
  end.

(** [arr.splice(i, 1)]: a negative start counts from the end. *)
Definition splice1 (arr : list Z) (i : Z) : list Z :=
  let len := Z.of_nat (length arr) in
  let start := if i <? 0 then Z.max (len + i) 0 else Z.min i len in
  delete (Z.to_nat start) arr.

(** [arr.push(x)] *)
Definition push (arr : list Z) (x : Z) : list Z := (arr ++ [x])%list.

(** ** The snapshot model *)

Module GetStateCategory.
(** Modelled from the spec: the enum [GetStateCategory] of the
    [procon-ip] package is not in this repository.  Its string values
    are the category segments of the store paths; [main.ts] subscribes
    to [relays.*] and [externalRelays.*], and the spec names the
    category [temperatures]. *)
Definition TEMPERATURES : string := "temperatures".
Definition RELAYS : string := "relays".
Definition EXTERNAL_RELAYS : string := "externalRelays".
End GetStateCategory.

(** One observed entity (sensor or relay). *)
Record GetStateDataObject := {
  id : Z;
  category : string;
  categoryId : Z;
  label : string;
  value : Z;
  displayValue : string;
  unit : string;
  active : bool;
}.

#[global] Instance GetStateDataObject_eq_dec : EqDecision GetStateDataObject.
Proof. solve_decision. Defined.

(** Modelled from the spec: [Object.keys(obj)] of a data object, the
    attributes the spec's data model lists, in the order it lists them.
    The class itself is in the [procon-ip] package, which decides the
    order of the keys and may hold further ones.  The adapter skips every
    key it does not handle, so this choice only fixes the order in which
    the states of one object are requested and written. *)
Definition Object_keys : list string :=
  ["id"; "category"; "categoryId"; "label"; "value"; "displayValue"; "unit";
   "active"].

(** [obj[field]] *)
Definition getField (obj : GetStateDataObject) (field : string) : StateValue :=
  if bool_decide (field = "id") then SVNum (id obj)
  else if bool_decide (field = "category") then SVStr (category obj)
  else if bool_decide (field = "categoryId") then SVNum (categoryId obj)
  else if bool_decide (field = "label") then SVStr (label obj)
  else if bool_decide (field = "value") then SVNum (value obj)
  else if bool_decide (field = "displayValue") then SVStr (displayValue obj)
  else if bool_decide (field = "unit") then SVStr (unit obj)
  else if bool_decide (field = "active") then SVBool (active obj)
  else SVNull.

(** [typeof v] *)
Definition typeof (v : StateValue) : string :=
  match v with
  | SVNull => "undefined"
  | SVBool _ => "boolean"
  | SVNum _ => "number"
  | SVStr _ => "string"
  end.

(** The system info of a snapshot, as the adapter sees it: [properties]
    holds the scalar properties of the object, read as [sysInfo[key]] and
    [sysInfo.dosageControl]; [toArrayOfObjects] is what the package's
    method of that name returns, a list of [{key, value}] pairs; the five
    [is...] fields are the results of the package's methods of the same
    names.  The adapter compares a [value] of the list with a property, so
    the two are kept apart: nothing here says that the method returns a
    property as it is stored. *)
Record GetStateDataSysInfo := {
  properties : gmap string SysVal;
  toArrayOfObjects : list (string * SysVal);
  isPhPlusDosageEnabled : bool;
  isPhMinusDosageEnabled : bool;
  isChlorineDosageEnabled : bool;
  isElectrolysis : bool;
  isExtRelaysEnabled : bool;
}.

(** [sysInfo[key]]: [undefined] (here [None]) for a key it does not have. *)
Definition sysInfo_get (s : GetStateDataSysInfo) (key : string) : option SysVal :=
  properties s !! key.

(** [sysInfo.dosageControl] *)
Definition dosageControl (s : GetStateDataSysInfo) : option SysVal :=
  sysInfo_get s "dosageControl".

(** One poll result.  The three [get...DosageControlId] fields are the
    results of the package's methods of the same names. *)
Record GetStateData := {
  sysInfo : GetStateDataSysInfo;
  objects : list GetStateDataObject;
  getChlorineDosageControlId : Z;
  getPhMinusDosageControlId : Z;
  getPhPlusDosageControlId : Z;
}.

(** Modelled from the spec: [GetStateData.getDataObject(id)] of the
    [procon-ip] package, the object of the snapshot with that id.  [None]
    stands for an id the snapshot holds no object for.  What the package
    answers for such an id is not part of this model, which treats a
    property access on the answer as a [TypeError]; the statements about
    runs are made for ids that have their object. *)
Fixpoint findObject (objs : list GetStateDataObject) (i : Z)
  : option GetStateDataObject :=
  match objs with
  | [] => None
  | o :: rest => if id o =? i then Some o else findObject rest i
  end.

(** [data.getDataObject(i)], on the model above. *)
Definition getDataObject (d : GetStateData) (i : Z) : option GetStateDataObject :=
  findObject (objects d) i.

(** Modelled from the spec: [GetStateData.isDosageControl(id)] of the
    [procon-ip] package: the relay id matches one of the three configured
    dosage-control channel ids. *)
Definition isDosageControl (d : GetStateData) (relayId : Z) : bool :=
  (relayId =? getChlorineDosageControlId d)
  || (relayId =? getPhMinusDosageControlId d)
  || (relayId =? getPhPlusDosageControlId d).

(** [RelayDataInterpreter]: how a relay's raw value reads as auto and on. *)
Record RelayDataInterpreter := {
  isAuto : GetStateDataObject -> bool;
  isOn : GetStateDataObject -> bool;
}.

(** ** The adapter *)

Definition Id := list string.

Record ProconIp := {
  instance : Z;
  _relayDataInterpreter : RelayDataInterpreter;
  _getStateService_data : GetStateData;
  _forceUpdate : list Z;
  _stateData : GetStateData;
  _bootstrapped : bool;
}.

(** [this.name] *)
Definition name : string := "procon-ip".

Definition _objectStateFields : list string :=
  ["value"; "category"; "label"; "unit"; "displayValue"; "active"].

(** [`${this.name}.${this.instance}`] *)
Definition namespace (a : ProconIp) : Id := [name; pretty (instance a)].

(** [`${this.name}.${this.instance}.${obj.category}.${obj.categoryId}`] *)
Definition channelId (a : ProconIp) (obj : GetStateDataObject) : Id :=
  (namespace a ++ [category obj; pretty (categoryId obj)])%list.

Definition stateId (a : ProconIp) (obj : GetStateDataObject) (field : string) : Id :=
  (channelId a obj ++ [field])%list.

Definition sysInfoStateId (a : ProconIp) (key : string) : Id :=
  (namespace a ++ ["info"; "system"; key])%list.

Definition with_forceUpdate (a : ProconIp) (f : list Z) : ProconIp :=
  {| instance := instance a;
     _relayDataInterpreter := _relayDataInterpreter a;
     _getStateService_data := _getStateService_data a;
     _forceUpdate := f;
     _stateData := _stateData a;
     _bootstrapped := _bootstrapped a |}.

(** ** Store writes of the poll cycle *)

(** [setStateAsync(id, value, ack)] *)
Record StoreWrite := {
  sw_id : Id;
  sw_val : StateValue;
  sw_ack : bool;
}.

#[global] Instance StoreWrite_eq_dec : EqDecision StoreWrite.
Proof. solve_decision. Defined.

(** The relay-class test of [setDataState] and [setDataObjectNotExists]. *)
Definition isRelayClass (a : ProconIp) (obj : GetStateDataObject) : bool :=
  bool_decide (category obj = GetStateCategory.RELAYS)
  || (bool_decide (category obj = GetStateCategory.EXTERNAL_RELAYS)
      && isExtRelaysEnabled (sysInfo (_stateData a))).

Definition setRelayDataState (a : ProconIp) (obj : GetStateDataObject)
  : list StoreWrite :=
  [ {| sw_id := stateId a obj "auto";
       sw_val := SVBool (isAuto (_relayDataInterpreter a) obj);
       sw_ack := true |};
    {| sw_id := stateId a obj "onOff";
       sw_val := SVBool (isOn (_relayDataInterpreter a) obj);
       sw_ack := true |} ].

(** [setDataState]: one write per key of the object that is a tracked
    field, then the relay states. *)
Definition setDataState (a : ProconIp) (obj : GetStateDataObject)
  : list StoreWrite :=
  (map (fun field =>
          {| sw_id := stateId a obj field;
             sw_val := getField obj field;
             sw_ack := true |})
       (filter (fun field => -1 < indexOf _objectStateFields field) Object_keys)
   ++ (if isRelayClass a obj then setRelayDataState a obj else []))%list.

(** ** The poll callback (the function passed to [_getStateService.start]) *)

(** What the callback invokes on [this], in order.  [SetDataState] and
    [UpdateObjectCommonName] are calls of the adapter's own methods of
    those names; [storeWrites] below unfolds the former into the store
    writes its body issues. *)
Inductive Invoke :=
| SetStateAsync (w : StoreWrite)
| UpdateObjectCommonName (obj : GetStateDataObject)
| SetDataState (obj : GetStateDataObject).

#[global] Instance Invoke_eq_dec : EqDecision Invoke.
Proof. solve_decision. Defined.

Definition storeWritesOf (a : ProconIp) (c : Invoke) : list StoreWrite :=
  match c with
  | SetStateAsync w => [w]
  | UpdateObjectCommonName _ => []
  | SetDataState obj => setDataState a obj
  end.

(** Every [setStateAsync] of a run of the callback. *)
Definition storeWrites (a : ProconIp) (calls : list Invoke) : list StoreWrite :=
  flat_map (storeWritesOf a) calls.

(** The [forEach] over [data.sysInfo.toArrayOfObjects()]. *)
Definition sysInfoCalls (a : ProconIp) (s : GetStateDataSysInfo) : list Invoke :=
  flat_map
    (fun info : string * SysVal =>
       if negb (_bootstrapped a)
          || negb (bool_decide (Some info.2 = sysInfo_get (sysInfo (_stateData a)) info.1))
       then [SetStateAsync {| sw_id := sysInfoStateId a info.1;
                              sw_val := SVStr (toString info.2);
                              sw_ack := true |}]
       else [])
    (toArrayOfObjects s).

(** The four derived booleans, in the order [updateAdvancedSysInfoStates]
    writes them. *)
Definition advancedSysInfoBatch (a : ProconIp) (s : GetStateDataSysInfo)
  : list Invoke :=
  [ SetStateAsync {| sw_id := sysInfoStateId a "phPlusDosageEnabled";
                     sw_val := SVBool (isPhPlusDosageEnabled s); sw_ack := true |};
    SetStateAsync {| sw_id := sysInfoStateId a "phMinusDosageEnabled";
                     sw_val := SVBool (isPhMinusDosageEnabled s); sw_ack := true |};
    SetStateAsync {| sw_id := sysInfoStateId a "chlorineDosageEnabled";
                     sw_val := SVBool (isChlorineDosageEnabled s); sw_ack := true |};
    SetStateAsync {| sw_id := sysInfoStateId a "electrolysis";
                     sw_val := SVBool (isElectrolysis s); sw_ack := true |} ].

Definition updateAdvancedSysInfoStates (a : ProconIp) (s : GetStateDataSysInfo)
  : list Invoke :=
  if negb (_bootstrapped a)
     || negb (bool_decide (dosageControl s = dosageControl (sysInfo (_stateData a))))
  then advancedSysInfoBatch a s
  else [].

(** The state the [forEach] over [data.objects] threads: the force-update
    array, the calls made so far, and whether an iteration threw (a
    [TypeError] on a property of [undefined] ends the callback; what was
    invoked before stays invoked).  In this model that is the case of an
    object without a baseline entry, see [getDataObject]. *)
Record CycleState := {
  cs_force : list Z;
  cs_calls : list Invoke;
  cs_thrown : bool;
}.

(** One iteration of [data.objects.forEach].  The baseline object is read
    for the log line before the test, so an object without one throws
    there. *)
Definition onObject (a : ProconIp) (st : CycleState) (obj : GetStateDataObject)
  : CycleState :=
  if cs_thrown st then st
  else
    match getDataObject (_stateData a) (id obj) with
    | None => {| cs_force := cs_force st; cs_calls := cs_calls st; cs_thrown := true |}
    | Some prev =>
        let forceObjStateUpdate := indexOf (cs_force st) (id obj) in
        if negb (_bootstrapped a)
           || (0 <=? forceObjStateUpdate)
           || negb (value prev =? value obj)
        then
          {| cs_force :=
               if truthy_elem (js_get (cs_force st) forceObjStateUpdate)
               then splice1 (cs_force st) forceObjStateUpdate
               else cs_force st;
             cs_calls :=
               (cs_calls st
                ++ (if negb (bool_decide (label prev = label obj))
                    then [UpdateObjectCommonName obj] else [])
                ++ [SetDataState obj])%list;
             cs_thrown := false |}
        else st
    end.

Definition connectionId (a : ProconIp) : Id :=
  (namespace a ++ ["info"; "connection"])%list.

Record PollResult := {
  pr_adapter : ProconIp;
  pr_calls : list Invoke;
  pr_thrown : bool;
}.

(** The whole callback: system info, derived booleans, the objects, then
    the baseline is replaced and the bootstrap flag set. *)
Definition pollCallback (a : ProconIp) (data : GetStateData) : PollResult :=
  let st0 := {| cs_force := _forceUpdate a;
                cs_calls := (sysInfoCalls a (sysInfo data)
                             ++ updateAdvancedSysInfoStates a (sysInfo data))%list;
                cs_thrown := false |} in
  let st := foldl (onObject a) st0 (objects data) in
  if cs_thrown st then
    {| pr_adapter := with_forceUpdate a (cs_force st);
       pr_calls := cs_calls st;
       pr_thrown := true |}
  else
    {| pr_adapter :=
         {| instance := instance a;
            _relayDataInterpreter := _relayDataInterpreter a;
            _getStateService_data := _getStateService_data a;
            _forceUpdate := cs_force st;
            _stateData := data;
            _bootstrapped := true |};
       pr_calls :=
         (cs_calls st
          ++ [SetStateAsync {| sw_id := connectionId a; sw_val := SVBool true;
                               sw_ack := true |}])%list;
       pr_thrown := false |}.

(** ** The object store *)

(** [common.smartName]: absent, the empty object [{}], or the names with a
    smart type. *)
Inductive SmartName :=
| SmartAbsent
| SmartEmpty
| Smart (de en smartType : string).

#[global] Instance SmartName_eq_dec : EqDecision SmartName.
Proof. solve_decision. Defined.

(** [ioBroker.StateCommon], the properties the adapter sets. *)
Record StateCommon := {
  c_name : string;
  c_type : string;
  c_role : string;
  c_read : bool;
  c_write : bool;
  c_unit : option string;
  c_smartName : SmartName;
}.

#[global] Instance StateCommon_eq_dec : EqDecision StateCommon.
Proof. solve_decision. Defined.

(** An object of the store: [{type: 'channel', common: {name}, native: {}}]
    or [{type: 'state', common, native}] where [native] is a data object or
    [{}]. *)
Inductive ioObject :=
| ChannelObject (name : string)
| StateObject (common : StateCommon) (native : option GetStateDataObject).

#[global] Instance ioObject_eq_dec : EqDecision ioObject.
Proof. solve_decision. Defined.

(** [o.common.name = name] *)
Definition set_common_name (name : string) (o : ioObject) : ioObject :=
  match o with
  | ChannelObject _ => ChannelObject name
  | StateObject c n =>
      StateObject {| c_name := name; c_type := c_type c; c_role := c_role c;
                     c_read := c_read c; c_write := c_write c;
                     c_unit := c_unit c; c_smartName := c_smartName c |} n
  end.

Definition is_state_object (o : ioObject) : bool :=
  match o with
  | ChannelObject _ => false
  | StateObject _ _ => true
  end.

(** [setObject(id, obj)]: writes the object under the id. *)
Definition setObject (store : gmap Id ioObject) (i : Id) (o : ioObject)
  : gmap Id ioObject :=
  <[i := o]> store.

(** [setObjectNotExists(id, obj)]: creates the object when the id is free. *)
Definition setObjectNotExists (store : gmap Id ioObject) (i : Id) (o : ioObject)
  : gmap Id ioObject :=
  match store !! i with
  | Some _ => store
  | None => <[i := o]> store
  end.

(** Modelled from the spec: [getStatesOfAsync(objId)] of the platform, the
    field sub-entries of a channel: the state objects whose id lies
    strictly beneath the channel's, each with its [_id]. *)
Definition getStatesOf (store : gmap Id ioObject) (objId : Id)
  : list (Id * ioObject) :=
  map_to_list
    (filter (fun kv : Id * ioObject =>
               objId `prefix_of` kv.1 /\ objId <> kv.1 /\ is_state_object kv.2 = true)
            store).

(** [updateObjectCommonName]: the rename propagation, on a store that
    accepts every write. *)
Definition updateObjectCommonName (a : ProconIp) (store : gmap Id ioObject)
    (obj : GetStateDataObject) : gmap Id ioObject :=
  let objId := channelId a obj in
  let store1 :=
    match store !! objId with
    | Some ioObj => setObject store objId (set_common_name (label obj) ioObj)
    | None => store
    end in
  foldl (fun st (s : Id * ioObject) =>
           setObject st s.1 (set_common_name (label obj) s.2))
        store1 (getStatesOf store1 objId).

(** ** The write path *)

(** [ioBroker.State] *)
Record ioState := {
  val : StateValue;
  ack : bool;
}.

(** A call on one of the device services ([UsrcfgCgiService],
    [SetStateService], [CommandService]). *)
Inductive Command :=
| SetAuto (relay : GetStateDataObject)
| SetOn (relay : GetStateDataObject)
| SetOff (relay : GetStateDataObject)
| SetTimer (relayId : Z) (seconds : StateValue)
| SetChlorineDosage (seconds : StateValue)
| SetPhMinusDosage (seconds : StateValue)
| SetPhPlusDosage (seconds : StateValue).

#[global] Instance Command_eq_dec : EqDecision Command.
Proof. solve_decision. Defined.

(** How a service call ends: it returns a promise that fulfils or one that
    rejects, or it throws before returning one. *)
Inductive CallOutcome :=
| Fulfils (n : Z)
| Rejects (reason : string)
| Throws (reason : string).

(** What a handler reads: the platform's objects and states, and the
    device behind the services. *)
Record Platform := {
  p_objects : gmap Id ioObject;
  p_states : gmap Id ioState;
  p_device : Command -> CallOutcome;
}.

Inductive Event :=
| GetStateAsync (i : Id)
| GetObjectAsync (i : Id)
| Transmit (c : Command)
| Log (level : string) (msg : string).

#[global] Instance Event_eq_dec : EqDecision Event.
Proof. solve_decision. Defined.

(** What is thrown: an [Error] of the adapter with its message, the
    [TypeError] of a property access on [undefined], or the [Error] with
    which a service call fails. *)
Inductive Error :=
| JsError (msg : string)
| TypeError
| ServiceError (reason : string).

(** [e.message], or [String(e)] *)
Definition message (e : Error) : string :=
  match e with
  | JsError m => m
  | TypeError => "Cannot read properties of undefined"
  | ServiceError r => r
  end.

(** The state a handler threads: the adapter and the trace so far. *)
Record Run := {
  r_adapter : ProconIp;
  r_trace : list Event;
}.

(** How a piece of handler code completes: normally, or by throwing; for
    an [async] function, [Failed] is a rejected promise. *)
Inductive Completion (A : Type) :=
| Returned (x : A)
| Failed (e : Error).
Arguments Returned {A} x.
Arguments Failed {A} e.

Definition Handler (A : Type) : Type := Run -> Completion A * Run.

Definition ret {A} (x : A) : Handler A := fun r => (Returned x, r).

Definition bind {A B} (m : Handler A) (k : A -> Handler B) : Handler B :=
  fun r =>
    match m r with
    | (Returned x, r') => k x r'
    | (Failed e, r') => (Failed e, r')
    end.

Notation "x <- m ;; k" := (bind m (fun x => k))
  (at level 100, m at next level, right associativity).

(** [throw e] *)
Definition throw {A} (e : Error) : Handler A := fun r => (Failed e, r).

(** [try { body } catch (e) { handler e }] *)
Definition try_catch {A} (body : Handler A) (handler : Error -> Handler A)
  : Handler A :=
  fun r =>
    match body r with
    | (Returned x, r') => (Returned x, r')
    | (Failed e, r') => handler e r'
    end.

Definition emit (ev : Event) : Handler () :=
  fun r => (Returned tt,
            {| r_adapter := r_adapter r; r_trace := (r_trace r ++ [ev])%list |}).

(** A property access on a value that may be [undefined]. *)
Definition deref {A} (o : option A) : Handler A :=
  match o with
  | Some x => ret x
  | None => throw TypeError
  end.

Definition getStateAsync (env : Platform) (i : Id) : Handler (option ioState) :=
  _ <- emit (GetStateAsync i) ;; ret (p_states env !! i).

Definition getObjectAsync (env : Platform) (i : Id) : Handler (option ioObject) :=
  _ <- emit (GetObjectAsync i) ;; ret (p_objects env !! i).

(** [this._stateData.getDataObject(Number(obj.native.id))]; an object
    without [native.id] gives [NaN], the id of no data object. *)
Definition dataObjectOf (obj : ioObject) : Handler (option GetStateDataObject) :=
  fun r =>
    (Returned
       (match obj with
        | StateObject _ (Some n) => getDataObject (_stateData (r_adapter r)) (id n)
        | _ => None
        end), r).

(** [`${obj.native.label}`] *)
Definition native_label (obj : ioObject) : string :=
  match obj with
  | StateObject _ (Some n) => label n
  | _ => "undefined"
  end.

(** [this._forceUpdate.push(i)] *)
Definition forceUpdate_push (i : Z) : Handler () :=
  fun r => (Returned tt,
            {| r_adapter := with_forceUpdate (r_adapter r)
                              (push (_forceUpdate (r_adapter r)) i);
               r_trace := r_trace r |}).

(** A promise as a value: what [return service.f(...)] hands back from
    inside a [try] block without awaiting it. *)
Inductive Promise :=
| Resolved (n : Z)
| Rejected (e : Error).

(** [service.f(...)], not awaited: only a throw of the call itself is an
    exception at this point. *)
Definition call (env : Platform) (c : Command) : Handler Promise :=
  _ <- emit (Transmit c) ;;
  match p_device env c with
  | Fulfils n => ret (Resolved n)
  | Rejects reason => ret (Rejected (ServiceError reason))
  | Throws reason => throw (ServiceError reason)
  end.

(** [await p] *)
Definition await (p : Promise) : Handler Z :=
  match p with
  | Resolved n => ret n
  | Rejected e => throw e
  end.

(** [await service.f(...)] *)
Definition await_call (env : Platform) (c : Command) : Handler Z :=
  p <- call env c ;; await p.

(** The id as the string it stands for. *)
Definition showId (i : Id) : string := String.concat "." i.

(** [id.endsWith('.' + suffix)] on the segments of an id. *)
Definition endsWith (i : Id) (suffix : string) : bool :=
  match reverse i with
  | last :: _ :: _ => bool_decide (last = suffix)
  | _ => false
  end.

(** [objectId.replace(/\.auto$/, '.onOff')] *)
Definition replace_auto_onOff (objectId : Id) : Id :=
  match reverse objectId with
  | last :: (_ :: _) as front =>
      if bool_decide (last = "auto") then reverse ("onOff" :: front) else objectId
  | _ => objectId
  end.

Definition log (level msg : string) : Handler () := emit (Log level msg).

Definition get_stateData : Handler GetStateData :=
  fun r => (Returned (_stateData (r_adapter r)), r).

Definition relayToggleAuto (env : Platform) (objectId : Id) (state : ioState)
  : Handler Z :=
  onOffState <- getStateAsync env (replace_auto_onOff objectId) ;;
  match onOffState with
  | None =>
      throw (JsError ("Cannot get onOff state to toggle '" ++ showId objectId ++ "'"))
  | Some onOffState =>
      obj <- getObjectAsync env objectId ;;
      match obj with
      | None =>
          throw (JsError ("Cannot handle state change for non-existent object '"
                          ++ showId objectId ++ "'"))
      | Some obj =>
          found <- dataObjectOf obj ;;
          getStateDataObject <- deref found ;;
          _ <- forceUpdate_push (id getStateDataObject) ;;
          p <- try_catch
                 (if truthy (val state) then
                    _ <- log "info" ("Switching " ++ native_label obj ++ ": auto") ;;
                    call env (SetAuto getStateDataObject)
                  else if truthy (val onOffState) then
                    _ <- log "info" ("Switching " ++ native_label obj ++ ": on") ;;
                    call env (SetOn getStateDataObject)
                  else
                    _ <- log "info" ("Switching " ++ native_label obj ++ ": off") ;;
                    call env (SetOff getStateDataObject))
                 (fun e =>
                    _ <- log "error" ("Error on switching operation: " ++ message e) ;;
                    ret (Resolved (-1))) ;;
          await p
      end
  end.

Definition relayToggleOnOff (env : Platform) (objectId : Id) (state : ioState)
  : Handler () :=
  obj <- getObjectAsync env objectId ;;
  match obj with
  | None =>
      throw (JsError ("Cannot handle state change for non-existent object '"
                      ++ showId objectId ++ "'"))
  | Some obj =>
      found <- dataObjectOf obj ;;
      getStateDataObject <- deref found ;;
      _ <- forceUpdate_push (id getStateDataObject) ;;
      try_catch
        (if truthy (val state) then
           _ <- log "info" ("Switching " ++ native_label obj ++ ": on") ;;
           _ <- await_call env (SetOn getStateDataObject) ;;
           ret tt
         else
           _ <- log "info" ("Switching " ++ native_label obj ++ ": off") ;;
           _ <- await_call env (SetOff getStateDataObject) ;;
           ret tt)
        (fun e => log "error" ("Error on switching operation: " ++ message e))
  end.

(** The physical channel of a dosage relay: [categoryId], plus 8 in the
    external bank. *)
Definition dosageRelayId (o : GetStateDataObject) : Z :=
  categoryId o
  + (if bool_decide (category o = GetStateCategory.EXTERNAL_RELAYS) then 8 else 0).

(** [`${state.val}`] *)
Definition showValue (v : StateValue) : string :=
  match v with
  | SVNull => "null"
  | SVBool true => "true"
  | SVBool false => "false"
  | SVNum n => pretty n
  | SVStr s => s
  end.

Definition setDosageTimer (env : Platform) (objectId : Id) (state : ioState)
  : Handler () :=
  obj <- getObjectAsync env objectId ;;
  match obj with
  | None =>
      throw (JsError ("Cannot handle state change for non-existent object '"
                      ++ showId objectId ++ "'"))
  | Some obj =>
      found <- dataObjectOf obj ;;
      getStateDataObject <- deref found ;;
      let relayId := dosageRelayId getStateDataObject in
      _ <- forceUpdate_push (id getStateDataObject) ;;
      try_catch
        (let stateValNumber := val state in
         stateData <- get_stateData ;;
         _ <- (if relayId =? getChlorineDosageControlId stateData then
                 await_call env (SetChlorineDosage stateValNumber)
               else if relayId =? getPhMinusDosageControlId stateData then
                 await_call env (SetPhMinusDosage stateValNumber)
               else if relayId =? getPhPlusDosageControlId stateData then
                 await_call env (SetPhPlusDosage stateValNumber)
               else ret 0) ;;
         log "info" ("Setting dosage timer " ++ native_label obj ++ " for "
                     ++ showValue (val state) ++ " seconds"))
        (fun e => log "error" ("Error setting dosage timer: " ++ message e))
  end.

Definition setRelayTimer (env : Platform) (objectId : Id) (state : ioState)
  : Handler () :=
  obj <- getObjectAsync env objectId ;;
  match obj with
  | None =>
      throw (JsError ("Cannot handle state change for non-existent object '"
                      ++ showId objectId ++ "'"))
  | Some obj =>
      found <- dataObjectOf obj ;;
      getStateDataObject <- deref found ;;
      let relayId :=
        categoryId getStateDataObject
        + (if bool_decide (category getStateDataObject = GetStateCategory.EXTERNAL_RELAYS)
           then 9 else 1) in
      _ <- forceUpdate_push (id getStateDataObject) ;;
      try_catch
        (let stateValNumber := val state in
         _ <- await_call env (SetTimer relayId stateValNumber) ;;
         log "info" ("Setting timer for " ++ native_label obj ++ " to "
                     ++ showValue (val state) ++ " seconds"))
        (fun e => log "error" ("Error setting relay timer: " ++ message e))
  end.

(** [`${e}`] *)
Definition showError (e : Error) : string :=
  match e with
  | JsError m => "Error: " ++ m
  | TypeError => "TypeError: " ++ message TypeError
  | ServiceError r => "Error: " ++ r
  end.

(** [promise.catch(onRejected)] *)
Definition promise_catch {A} (m : Handler A) (onRejected : Error -> Handler ())
  : Handler () :=
  fun r =>
    match m r with
    | (Returned _, r') => (Returned tt, r')
    | (Failed e, r') => onRejected e r'
    end.

(** The dispatcher: called for every change of a subscribed state. *)
Definition onStateChange (env : Platform) (i : Id) (state : option ioState)
  : Handler () :=
  match state with
  | None => log "info" ("state " ++ showId i ++ " deleted")
  | Some state =>
      if ack state then ret tt
      else if endsWith i "auto" then
        promise_catch (relayToggleAuto env i state)
          (fun e => log "error" ("Error on relay toggle (" ++ showId i ++ "): "
                                 ++ showError e))
      else if endsWith i "onOff" then
        promise_catch (relayToggleOnOff env i state)
          (fun e => log "error" ("Error on relay toggle (" ++ showId i ++ "): "
                                 ++ showError e))
      else if endsWith i "dosageTimer" then
        promise_catch (setDosageTimer env i state)
          (fun e => log "error" ("Error on manual dosage (" ++ showId i ++ "): "
                                 ++ showError e))
      else if endsWith i "timer" then
        promise_catch (setRelayTimer env i state)
          (fun e => log "error" ("Error on relay timer (" ++ showId i ++ "): "
                                 ++ showError e))
      else ret tt
  end.

(** The device commands of a trace, in order. *)
Definition transmitted (t : list Event) : list Command :=
  flat_map (fun ev => match ev with Transmit c => [c] | _ => [] end) t.

(** A handler started on adapter [a] with an empty trace. *)
Definition start (a : ProconIp) : Run := {| r_adapter := a; r_trace := [] |}.

(** ** The object materializer *)

(** ASCII lower case of one character; other characters are themselves. *)
Definition lower (c : ascii) : ascii :=
  let n := nat_of_ascii c in
  if ((65 <=? n) && (n <=? 90))%nat then ascii_of_nat (n + 32) else c.

Fixpoint lowercase (s : string) : string :=
  match s with
  | EmptyString => EmptyString
  | String c rest => String (lower c) (lowercase rest)
  end.

(** Does [s] start with [w]? *)
Fixpoint startsWith (w s : string) : bool :=
  match w, s with
  | EmptyString, _ => true
  | String a w', String b s' => bool_decide (a = b) && startsWith w' s'
  | String _ _, EmptyString => false
  end.

(** Does [w] occur in [s]? *)
Fixpoint occursIn (w s : string) : bool :=
  startsWith w s
  || match s with
     | EmptyString => false
     | String _ rest => occursIn w rest
     end.

(** The alternatives of the pattern ['light|bulb|licht|leucht']. *)
Definition lightPattern : list string := ["light"; "bulb"; "licht"; "leucht"].

(** [new RegExp('light|bulb|licht|leucht', 'i').test(label)]: one of the
    alternatives occurs in the label, letters compared without case. *)
Definition isLightLabel (label : string) : bool :=
  existsb (fun w => occursIn w (lowercase label)) lightPattern.

(** A [setObjectNotExists(id, obj)] request. *)
Definition Create : Type := Id * ioObject.

Definition setRelayDataObject (a : ProconIp) (obj : GetStateDataObject)
  : list Create :=
  let isLight := isLightLabel (label obj) in
  let relayId :=
    (if bool_decide (category obj = GetStateCategory.EXTERNAL_RELAYS) then 8 else 0)
    + categoryId obj in
  let isDosageRelay := isDosageControl (_getStateService_data a) relayId in
  let commonAuto :=
    {| c_name := label obj; c_type := "boolean"; c_role := "switch.mode.auto";
       c_read := true; c_write := true; c_unit := None;
       c_smartName :=
         if active obj
         then Smart (label obj ++ " auto") (label obj ++ " auto")
                    (if isLight then "LIGHT" else "SWITCH")
         else SmartEmpty |} in
  let commonOnOff :=
    {| c_name := label obj; c_type := "boolean";
       c_role := if isLight then "switch.light" else "switch";
       c_read := true; c_write := negb isDosageRelay; c_unit := None;
       c_smartName :=
         if active obj && negb isDosageRelay
         then Smart (label obj) (label obj) (if isLight then "LIGHT" else "SWITCH")
         else SmartEmpty |} in
  [ (stateId a obj "auto", StateObject commonAuto (Some obj));
    (stateId a obj "onOff", StateObject commonOnOff (Some obj));
    if isDosageRelay then
      let commonDosageTimerState :=
        {| c_name := label obj; c_type := "number"; c_role := "value.interval";
           c_read := false; c_write := true; c_unit := None;
           c_smartName := SmartAbsent |} in
      (stateId a obj "dosageTimer", StateObject commonDosageTimerState (Some obj))
    else
      let commonGenericRelayTimerState :=
        {| c_name := label obj; c_type := "number"; c_role := "value.interval";
           c_read := false; c_write := true; c_unit := None;
           c_smartName := SmartAbsent |} in
      (stateId a obj "timer", StateObject commonGenericRelayTimerState (Some obj)) ].

(** The [switch (field)] of [setDataObjectNotExists]: the common part of
    the state of one key, [None] for a key the [default] case skips. *)
Definition fieldCommon (obj : GetStateDataObject) (field : string)
  : option StateCommon :=
  let common role unit smartName :=
    {| c_name := label obj; c_type := typeof (getField obj field); c_role := role;
       c_read := true; c_write := false; c_unit := unit;
       c_smartName := smartName |} in
  if bool_decide (field = "value") then
    if bool_decide (category obj = GetStateCategory.TEMPERATURES) then
      Some (common "value.temperature" (Some ("°" ++ unit obj))
              (if active obj then Smart (label obj) (label obj) "THERMOSTAT"
               else SmartAbsent))
    else Some (common "value" None SmartAbsent)
  else if bool_decide (field = "category") || bool_decide (field = "label")
          || bool_decide (field = "unit") || bool_decide (field = "displayValue")
  then Some (common "text" None SmartAbsent)
  else if bool_decide (field = "active") then Some (common "indicator" None SmartAbsent)
  else None.

(** [setDataObjectNotExists]: the channel, one state per handled key, and
    for a relay-class object the relay states. *)
Definition setDataObjectNotExists (a : ProconIp) (obj : GetStateDataObject)
  : list Create :=
  ([(channelId a obj, ChannelObject (label obj))]
   ++ flat_map (fun field =>
                  match fieldCommon obj field with
                  | Some common => [(stateId a obj field, StateObject common (Some obj))]
                  | None => []
                  end) Object_keys
   ++ (if isRelayClass a obj then setRelayDataObject a obj else []))%list.

(** The requests applied, in order, to a store that accepts them. *)
Definition applyCreates (store : gmap Id ioObject) (cs : list Create)
  : gmap Id ioObject :=
  foldl (fun st (c : Create) => setObjectNotExists st c.1 c.2) store cs.

(** ** Vocabulary of the statements *)

(** How often [x] occurs in [arr]. *)
Definition occurrences (x : Z) (arr : list Z) : nat :=
  length (filter (fun y => y = x) arr).

(** The test of one iteration of the objects loop, as a proposition: the
    bootstrap flag is unset, the id is in the force-update array, or the
    value differs from the baseline's. *)
Definition mustUpdate (a : ProconIp) (force : list Z)
    (prev obj : GetStateDataObject) : Prop :=
  _bootstrapped a = false \/ id obj ∈ force \/ value prev <> value obj.

#[global] Instance mustUpdate_dec a force prev obj :
  Decision (mustUpdate a force prev obj).
Proof. unfold mustUpdate. apply _. Defined.

(** Every object of the snapshot has an entry in the adapter's baseline. *)
Definition allInBaseline (a : ProconIp) (objs : list GetStateDataObject) : Prop :=
  forall o, o ∈ objs -> is_Some (getDataObject (_stateData a) (id o)).

(** The spec's words for the update test: some tracked field differs from
    the baseline's. *)
Definition trackedFieldDiffers (prev obj : GetStateDataObject) : Prop :=
  value prev <> value obj \/ category prev <> category obj
  \/ label prev <> label obj \/ unit prev <> unit obj
  \/ displayValue prev <> displayValue obj \/ active prev <> active obj.

(** Two characters are the same letter: they are equal, or one is a
    capital (code 65 to 90) and the other the small letter 32 codes
    above it. *)
Definition sameLetter (c d : ascii) : Prop :=
  c = d
  \/ ((65 <= nat_of_ascii c <= 90)%nat /\ nat_of_ascii d = (nat_of_ascii c + 32)%nat)
  \/ ((65 <= nat_of_ascii d <= 90)%nat /\ nat_of_ascii c = (nat_of_ascii d + 32)%nat).

(** Two strings are equal when case is ignored: the same length, the same
    letter at every position. *)
Fixpoint equalIgnoringCase (s t : string) : Prop :=
  match s, t with
  | EmptyString, EmptyString => True
  | String c s', String d t' => sameLetter c d /\ equalIgnoringCase s' t'
  | _, _ => False
  end.

(** The spec's words for the light heuristic: the label contains,
    somewhere, one of the four words, case ignored. *)
Definition containsIgnoringCase (words : list string) (label : string) : Prop :=
  exists w pre mid post,
    w ∈ words /\ label = (pre ++ mid ++ post)%string /\ equalIgnoringCase mid w.

(** The state of the objects loop when the callback reaches it. *)
Definition loopStart (a : ProconIp) (data : GetStateData) : CycleState :=
  {| cs_force := _forceUpdate a;
     cs_calls := sysInfoCalls a (sysInfo data)
                 ++ updateAdvancedSysInfoStates a (sysInfo data);
     cs_thrown := false |}.

(** ** A sample installation *)

Module Sample.

(** Relay values 0 to 3 read as auto-off, auto-on, manual-off, manual-on. *)
Definition interpreter : RelayDataInterpreter :=
  {| isAuto := fun o => value o <? 2; isOn := fun o => Z.odd (value o) |}.

(** The system info of firmware 1.7.3 with the dosage-control bitmask
    [dc]: the bitmask is a number as a property, and [toArrayOfObjects]
    delivers every value as a string. *)
Definition info (dc : Z) : GetStateDataSysInfo :=
  {| properties := list_to_map [("version", SysStr "1.7.3"); ("dosageControl", SysNum dc)];
     toArrayOfObjects := [("version", SysStr "1.7.3");
                          ("dosageControl", SysStr (pretty dc))];
     isPhPlusDosageEnabled := false;
     isPhMinusDosageEnabled := true;
     isChlorineDosageEnabled := true;
     isElectrolysis := false;
     isExtRelaysEnabled := false |}.

(** The relay "relays.1" with a value, a label and a unit. *)
Definition pump (v : Z) (l u : string) : GetStateDataObject :=
  {| id := 16; category := "relays"; categoryId := 1; label := l; value := v;
     displayValue := "Auto (off)"; unit := u; active := true |}.

(** The object with id 0. *)
Definition clock (v : Z) : GetStateDataObject :=
  {| id := 0; category := "time"; categoryId := 0; label := "Time"; value := v;
     displayValue := "12:00"; unit := "h"; active := true |}.

Definition snapshot (dc : Z) (objs : list GetStateDataObject) : GetStateData :=
  {| sysInfo := info dc; objects := objs;
     getChlorineDosageControlId := 1;
     getPhMinusDosageControlId := 2;
     getPhPlusDosageControlId := 3 |}.

Definition adapter (force : list Z) (baseline : GetStateData) (bootstrapped : bool)
  : ProconIp :=
  {| instance := 0;
     _relayDataInterpreter := interpreter;
     _getStateService_data := baseline;
     _forceUpdate := force;
     _stateData := baseline;
     _bootstrapped := bootstrapped |}.

(** A second relay, "relays.5", which is no dosage relay. *)
Definition heater (v : Z) : GetStateDataObject :=
  {| id := 20; category := "relays"; categoryId := 5; label := "Heater"; value := v;
     displayValue := "Off"; unit := ""; active := true |}.

(** The platform after the materializer ran on the adapter's baseline,
    with the given states and device. *)
Definition platform (a : ProconIp) (states : list (Id * ioState))
    (device : Command -> CallOutcome) : Platform :=
  {| p_objects :=
       applyCreates ∅ (flat_map (setDataObjectNotExists a) (objects (_stateData a)));
     p_states := list_to_map states;
     p_device := device |}.

Definition relay1 : Id := ["procon-ip"; "0"; "relays"; "1"].
Definition relay5 : Id := ["procon-ip"; "0"; "relays"; "5"].

(** A write intent: a state change that is not acknowledged. *)
Definition intent (v : StateValue) : ioState := {| val := v; ack := false |}.

End Sample.

(** * More of the adapter *)

(** ** The state store *)

(** [setStateAsync(id, value, ack)] on a store that accepts it: the state
    under the id holds the value and the flag. *)
Definition setState (states : gmap Id ioState) (w : StoreWrite) : gmap Id ioState :=
  <[sw_id w := {| val := sw_val w; ack := sw_ack w |}]> states.

(** The writes of a cycle applied in the order they were issued. *)
Definition applyWrites (states : gmap Id ioState) (ws : list StoreWrite)
  : gmap Id ioState :=
  foldl setState states ws.

(** ** The materializer at startup *)

(** The common part of the read-only states of [setSysInfoObjectsNotExists]. *)
Definition sysInfoCommon (name type : string) : StateCommon :=
  {| c_name := name; c_type := type; c_role := "state"; c_read := true;
     c_write := false; c_unit := None; c_smartName := SmartAbsent |}.

(** [setSysInfoObjectsNotExists]: the channel [info.system], a string state
    for every scalar of the system info, and the four derived booleans. *)
Definition setSysInfoObjectsNotExists (a : ProconIp) (data : GetStateDataSysInfo)
  : list Create :=
  ([((namespace a ++ ["info"; "system"])%list, ChannelObject "SysInfo")]
   ++ map (fun sysInfo : string * SysVal =>
             (sysInfoStateId a sysInfo.1,
              StateObject (sysInfoCommon sysInfo.1 "string") None))
          (toArrayOfObjects data)
   ++ [ (sysInfoStateId a "phPlusDosageEnabled",
         StateObject (sysInfoCommon "pH+ enabled" "boolean") None);
        (sysInfoStateId a "phMinusDosageEnabled",
         StateObject (sysInfoCommon "pH- enabled" "boolean") None);
        (sysInfoStateId a "chlorineDosageEnabled",
         StateObject (sysInfoCommon "CL enabled" "boolean") None);
        (sysInfoStateId a "electrolysis",
         StateObject (sysInfoCommon "Electrolysis" "boolean") None) ])%list.

(** [`${this.name}.${this.instance}.${obj.category}`] *)
Definition categoryChannelId (a : ProconIp) (category : string) : Id :=
  (namespace a ++ [category])%list.

(** The loop of [setStateDataObjectsNotExists] from a given
    [lastObjCategory]: a channel for the category whenever it is not the
    last one seen, then the object's own requests.  (The requests of one
    object are listed together; in the running adapter they are not
    awaited and interleave with those of the next objects.) *)
Fixpoint setStateDataObjectsNotExists_from (a : ProconIp) (lastObjCategory : string)
    (objs : list GetStateDataObject) : list Create :=
  match objs with
  | [] => []
  | obj :: rest =>
      ((if negb (bool_decide (lastObjCategory = category obj))
        then [(categoryChannelId a (category obj), ChannelObject (category obj))]
        else [])
       ++ setDataObjectNotExists a obj
       ++ setStateDataObjectsNotExists_from a (category obj) rest)%list
  end.

Definition setStateDataObjectsNotExists (a : ProconIp)
    (objs : list GetStateDataObject) : list Create :=
  setStateDataObjectsNotExists_from a "" objs.

(** ** Startup, the service callbacks and shutdown *)

(** What [onReady], the error callback and [onUnload] do to the platform
    and to the polling service. *)
Inductive Action :=
| SetConnection (v : bool)
| LogLine (level : string) (msg : string)
| Update
| Request (c : Create)
| StartTimer
| Subscribe (pattern : Id)
| StopService
| ClearTimeout
| Callback.

#[global] Instance Action_eq_dec : EqDecision Action.
Proof. solve_decision. Defined.

Definition with_stateData (a : ProconIp) (d : GetStateData) : ProconIp :=
  {| instance := instance a;
     _relayDataInterpreter := _relayDataInterpreter a;
     _getStateService_data := _getStateService_data a;
     _forceUpdate := _forceUpdate a;
     _stateData := d;
     _bootstrapped := _bootstrapped a |}.

(** [onReady].  [isValidURL] stands for the static method of that name
    (whether [new URL(url)] succeeds), [update] for how
    [_getStateService.update()] ends: [Some data], or [None] for a
    rejection.  The two [debug] lines with the service urls are left out.
    The result tells whether [onReady] completed ([false]: its promise is
    rejected by the failed update). *)
Definition onReady (isValidURL : string -> bool) (controllerUrl : string)
    (update : option GetStateData) (a : ProconIp)
  : bool * ProconIp * list Action :=
  let first := [SetConnection false] in
  if (Z.of_nat (String.length controllerUrl) <? 1) || negb (isValidURL controllerUrl)
  then
    (true, a,
     (first ++ [LogLine "warn" ("Invalid controller URL ('" ++ controllerUrl
                                ++ "') supplied.")])%list)
  else
    match update with
    | None => (false, a, (first ++ [Update])%list)
    | Some data =>
        let a' := with_stateData a data in
        (true, a',
         (first ++ [Update]
          ++ (if negb (_bootstrapped a')
              then LogLine "debug" "Initially setting adapter objects"
                   :: map Request (setSysInfoObjectsNotExists a' (sysInfo data)
                                   ++ setStateDataObjectsNotExists a' (objects data))
              else [])
          ++ [StartTimer;
              Subscribe (namespace a' ++ ["relays"; "*"]);
              Subscribe (namespace a' ++ ["externalRelays"; "*"])])%list)
    end.

(** What the polling service reports to the two callbacks it was started
    with. *)
Inductive ServiceReport :=
| Snapshot (data : GetStateData)
| Failure (reason : string).

(** The state the two callbacks share: the adapter and the local
    [connectionApproved] of [onReady]. *)
Record Session := {
  s_adapter : ProconIp;
  s_connectionApproved : bool;
}.

(** One report handled: a snapshot goes through the poll callback, which
    approves the connection first; a failure clears the connection flag
    and, while the connection was never approved, is logged and stops the
    service. *)
Definition onReport (s : Session) (r : ServiceReport)
  : Session * list Invoke * list Action :=
  match r with
  | Snapshot data =>
      let result := pollCallback (s_adapter s) data in
      ({| s_adapter := pr_adapter result; s_connectionApproved := true |},
       pr_calls result, [])
  | Failure reason =>
      (s, [],
       SetConnection false
       :: (if negb (s_connectionApproved s)
           then [LogLine "error" ("Could not connect to the controller: " ++ reason);
                 StopService]
           else []))
  end.

(** The actions of a sequence of reports, from a session. *)
Fixpoint onReports (s : Session) (rs : list ServiceReport) : list Action :=
  match rs with
  | [] => []
  | r :: rest =>
      let '(s', _, actions) := onReport s r in
      (actions ++ onReports s' rest)%list
  end.

(** [onUnload(callback)].  [service] is [None] when [_getStateService] was
    never set, else how [stop()] ends; [setStateThrows] is the error of a
    [setState] call that throws; [timeout] tells whether [_timeout] is
    set. *)
Definition onUnload (service : option (option string)) (setStateThrows : option string)
    (timeout : bool) : list Action :=
  let finally := ((if timeout then [ClearTimeout] else []) ++ [Callback])%list in
  let failed reason :=
    [LogLine "error" ("Failed to stop GetState service: " ++ reason)] in
  let connection :=
    match setStateThrows with
    | None => [SetConnection false]
    | Some reason => failed reason
    end in
  ((match service with
    | None => connection
    | Some None => StopService :: connection
    | Some (Some reason) => StopService :: failed reason
    end) ++ finally)%list.

(** * Properties *)

Local Open Scope list_scope.

(** ** Arrays *)

Section Arrays.
Context {A : Type} `{EqDecision A}.
Implicit Types (arr : list A) (x : A).

Lemma indexOf_ge arr x : -1 <= indexOf arr x.
Proof.
  induction arr as [|y rest IH]; simpl; [lia|].
  case_bool_decide; [lia|]. destruct (Z.ltb_spec (indexOf rest x) 0); lia.
Qed.

(** [indexOf] finds an element exactly when it is in the array. *)
Lemma indexOf_found arr x : 0 <= indexOf arr x <-> x ∈ arr.
Proof.
  induction arr as [|y rest IH]; simpl.
  - split; [lia|]. intros H; inversion H.
  - case_bool_decide as Hy.
    + subst. split; [intros _; left|lia].
    + pose proof (indexOf_ge rest x).
      destruct (Z.ltb_spec (indexOf rest x) 0) as [Hlt|Hge].
      * split; [lia|]. intros Hin.
        apply elem_of_cons in Hin. destruct Hin as [Heq|Hin]; [congruence|].
        apply IH in Hin. lia.
      * split; [|lia]. intros _. right. apply IH. lia.
Qed.

(** The index found holds the element. *)
Lemma indexOf_lookup arr x :
  0 <= indexOf arr x -> arr !! Z.to_nat (indexOf arr x) = Some x.
Proof.
  induction arr as [|y rest IH]; simpl; [lia|].
  case_bool_decide as Hy; [subst; done|].
  destruct (Z.ltb_spec (indexOf rest x) 0) as [Hlt|Hge]; [lia|].
  intros _. replace (Z.to_nat (indexOf rest x + 1)) with (S (Z.to_nat (indexOf rest x))) by lia.
  simpl. apply IH. lia.
Qed.
End Arrays.

Lemma js_get_indexOf (arr : list Z) (x : Z) :
  js_get arr (indexOf arr x) = if bool_decide (x ∈ arr) then Some x else None.
Proof.
  unfold js_get. pose proof (indexOf_ge arr x).
  destruct (Z.ltb_spec (indexOf arr x) 0) as [Hlt|Hge].
  - rewrite bool_decide_eq_false_2; [done|]. rewrite <- indexOf_found. lia.
  - rewrite bool_decide_eq_true_2 by (by apply indexOf_found).
    by apply indexOf_lookup.
Qed.

Lemma splice1_indexOf (arr : list Z) (x : Z) :
  x ∈ arr -> splice1 arr (indexOf arr x) = delete (Z.to_nat (indexOf arr x)) arr.
Proof.
  intros Hin. apply indexOf_found in Hin. unfold splice1.
  pose proof (lookup_lt_Some _ _ _ (indexOf_lookup arr x Hin)) as Hl.
  destruct (Z.ltb_spec (indexOf arr x) 0); [lia|]. f_equal. lia.
Qed.

Lemma occurrences_zero x arr : occurrences x arr = 0%nat <-> x ∉ arr.
Proof.
  unfold occurrences. induction arr as [|y rest IH]; simpl.
  - split; [intros _ H; inversion H|done].
  - rewrite filter_cons. case_decide as Hy; simpl.
    + subst. split; [lia|]. intros H. exfalso. apply H. left.
    + rewrite IH, not_elem_of_cons. intuition congruence.
Qed.

Lemma occurrences_delete_other x arr i y :
  arr !! i = Some y -> y <> x -> occurrences x (delete i arr) = occurrences x arr.
Proof.
  unfold occurrences. revert i. induction arr as [|z rest IH]; intros [|i] Hl Hne;
    simpl in *; try done.
  - simplify_eq. rewrite filter_cons. by case_decide.
  - rewrite !filter_cons. case_decide; simpl; by rewrite (IH i).
Qed.

Lemma occurrences_delete_same x arr i :
  arr !! i = Some x -> S (occurrences x (delete i arr)) = occurrences x arr.
Proof.
  unfold occurrences. revert i. induction arr as [|z rest IH]; intros [|i] Hl;
    simpl in *; try done.
  - simplify_eq. rewrite filter_cons. by case_decide.
  - rewrite !filter_cons. case_decide; simpl; by rewrite <- (IH i).
Qed.

(** ** The objects loop of the poll callback *)

Section ObjectsLoop.
Variable a : ProconIp.
Implicit Types (st : CycleState) (o : GetStateDataObject).

(** One iteration on an object with a baseline entry, written with
    propositions. *)
Lemma onObject_eq st o prev :
  cs_thrown st = false ->
  getDataObject (_stateData a) (id o) = Some prev ->
  onObject a st o =
    if decide (mustUpdate a (cs_force st) prev o) then
      {| cs_force :=
           if decide (id o ∈ cs_force st /\ id o <> 0)
           then delete (Z.to_nat (indexOf (cs_force st) (id o))) (cs_force st)
           else cs_force st;
         cs_calls :=
           cs_calls st
           ++ (if decide (label prev = label o) then []
               else [UpdateObjectCommonName o])
           ++ [SetDataState o];
         cs_thrown := false |}
    else st.
Proof.
  intros Hth Hprev. unfold onObject. rewrite Hth, Hprev.
  assert (Hcond : negb (_bootstrapped a) || (0 <=? indexOf (cs_force st) (id o))
                  || negb (value prev =? value o)
                  = bool_decide (mustUpdate a (cs_force st) prev o)).
  { symmetry. destruct (_bootstrapped a) eqn:Hb; simpl.
    - destruct (Z.leb_spec 0 (indexOf (cs_force st) (id o))) as [Hi|Hi]; simpl.
      + apply bool_decide_eq_true_2. right; left. by apply indexOf_found.
      + destruct (Z.eqb_spec (value prev) (value o)) as [Hv|Hv]; simpl.
        * apply bool_decide_eq_false_2. intros [?|[Hin|?]]; try congruence.
          apply indexOf_found in Hin. lia.
        * apply bool_decide_eq_true_2. by right; right.
    - apply bool_decide_eq_true_2. by left. }
  rewrite Hcond. destruct (decide (mustUpdate a (cs_force st) prev o)) as [Hm|Hm].
  - rewrite bool_decide_eq_true_2 by done. f_equal.
    + rewrite js_get_indexOf.
      destruct (decide (id o ∈ cs_force st)) as [Hin|Hin].
      * rewrite bool_decide_eq_true_2 by done. simpl.
        destruct (Z.eqb_spec (id o) 0) as [Hz|Hz]; simpl.
        -- rewrite decide_False by (intros [_ ?]; congruence). done.
        -- rewrite decide_True by done. by apply splice1_indexOf.
      * rewrite bool_decide_eq_false_2 by done. simpl.
        rewrite decide_False by (intros [? _]; congruence). done.
    + by destruct (decide (label prev = label o));
        [rewrite bool_decide_eq_true_2|rewrite bool_decide_eq_false_2].
  - by rewrite bool_decide_eq_false_2.
Qed.

Lemma onObject_thrown st o : cs_thrown st = true -> onObject a st o = st.
Proof. intros H. unfold onObject. by rewrite H. Qed.

Lemma onObject_missing st o :
  cs_thrown st = false ->
  getDataObject (_stateData a) (id o) = None ->
  onObject a st o
  = {| cs_force := cs_force st; cs_calls := cs_calls st; cs_thrown := true |}.
Proof. intros H1 H2. unfold onObject. by rewrite H1, H2. Qed.

(** The three ways an iteration can go. *)
Lemma onObject_cases st o :
  onObject a st o = st
  \/ (cs_thrown st = false /\ getDataObject (_stateData a) (id o) = None
      /\ onObject a st o
         = {| cs_force := cs_force st; cs_calls := cs_calls st; cs_thrown := true |})
  \/ (exists prev,
        cs_thrown st = false
        /\ getDataObject (_stateData a) (id o) = Some prev
        /\ mustUpdate a (cs_force st) prev o
        /\ onObject a st o
           = {| cs_force :=
                  if decide (id o ∈ cs_force st /\ id o <> 0)
                  then delete (Z.to_nat (indexOf (cs_force st) (id o))) (cs_force st)
                  else cs_force st;
                cs_calls :=
                  cs_calls st
                  ++ (if decide (label prev = label o) then []
                      else [UpdateObjectCommonName o])
                  ++ [SetDataState o];
                cs_thrown := false |}).
Proof.
  destruct (cs_thrown st) eqn:Hth; [left; by apply onObject_thrown|].
  destruct (getDataObject (_stateData a) (id o)) as [prev|] eqn:Hprev.
  - rewrite (onObject_eq st o prev Hth Hprev). case_decide; [|by left].
    right; right. by exists prev.
  - right; left. by rewrite onObject_missing.
Qed.
End ObjectsLoop.

Section Loop.
Variable a : ProconIp.
Implicit Types (st : CycleState) (o : GetStateDataObject)
  (objs : list GetStateDataObject) (c : Invoke).

Abbreviation loop := (foldl (onObject a)).

(** The array only loses entries. *)
Lemma onObject_force_sublist st o :
  cs_force (onObject a st o) `sublist_of` cs_force st.
Proof.
  destruct (onObject_cases a st o) as [->|[(_ & _ & ->)|(prev & _ & _ & _ & ->)]];
    simpl; try done.
  case_decide; [apply sublist_delete|done].
Qed.


Lemma mustUpdate_sublist force force' prev o :
  force' `sublist_of` force ->
  mustUpdate a force' prev o -> mustUpdate a force prev o.
Proof.
  intros Hsub [?|[Hin|?]]; [by left| |by right; right].
  right; left. eapply elem_of_sublist; eauto.
Qed.

(** Calls are only appended. *)
Lemma onObject_calls_mono st o c :
  c ∈ cs_calls st -> c ∈ cs_calls (onObject a st o).
Proof.
  intros Hc.
  destruct (onObject_cases a st o) as [->|[(_ & _ & ->)|(prev & _ & _ & _ & ->)]];
    simpl; try done.
  apply elem_of_app. by left.
Qed.

Lemma loop_calls_mono objs st c : c ∈ cs_calls st -> c ∈ cs_calls (loop st objs).
Proof.
  revert st. induction objs as [|o rest IH]; intros st Hc; simpl; [done|].
  by apply IH, onObject_calls_mono.
Qed.

(** Where a call of the loop comes from: an object of the snapshot
    whose test held when it was processed. *)
Lemma onObject_calls_inv st o c :
  c ∈ cs_calls (onObject a st o) ->
  c ∈ cs_calls st
  \/ exists prev,
       getDataObject (_stateData a) (id o) = Some prev
       /\ mustUpdate a (cs_force st) prev o
       /\ (c = SetDataState o
           \/ (c = UpdateObjectCommonName o /\ label prev <> label o)).
Proof.
  destruct (onObject_cases a st o) as [->|[(_ & _ & ->)|(prev & _ & Hp & Hm & ->)]];
    simpl; try by left.
  rewrite !elem_of_app. intros [Hc|[Hc|Hc]]; [by left| |].
  - case_decide as Hl; [inversion Hc|]. apply list_elem_of_singleton in Hc.
    right. exists prev. split_and!; try done. by right.
  - apply list_elem_of_singleton in Hc. right. exists prev. split_and!; try done.
    by left.
Qed.

Lemma loop_calls_inv objs st c :
  c ∈ cs_calls (loop st objs) ->
  c ∈ cs_calls st
  \/ exists o prev,
       o ∈ objs
       /\ getDataObject (_stateData a) (id o) = Some prev
       /\ mustUpdate a (cs_force st) prev o
       /\ (c = SetDataState o
           \/ (c = UpdateObjectCommonName o /\ label prev <> label o)).
Proof.
  revert st. induction objs as [|o rest IH]; intros st Hc; simpl in *; [by left|].
  apply IH in Hc as [Hc|(o' & prev & Hin & Hp & Hm & Hc)].
  - apply onObject_calls_inv in Hc as [Hc|(prev & Hp & Hm & Hc)]; [by left|].
    right. exists o, prev. split_and!; try done. left.
  - right. exists o', prev. split_and!; try done; [by right|].
    eapply mustUpdate_sublist; [apply onObject_force_sublist|done].
Qed.

(** An iteration leaves the entries of other ids alone. *)
Lemma onObject_other_id st o x :
  id o <> x ->
  occurrences x (cs_force (onObject a st o)) = occurrences x (cs_force st).
Proof.
  intros Hne.
  destruct (onObject_cases a st o) as [->|[(_ & _ & ->)|(prev & _ & _ & _ & ->)]];
    simpl; try done.
  case_decide as Hin; [|done]. destruct Hin as [Hin _].
  eapply occurrences_delete_other; [|exact Hne].
  apply indexOf_lookup. by apply indexOf_found.
Qed.

Lemma loop_other_ids objs st x :
  x ∉ id <$> objs ->
  occurrences x (cs_force (loop st objs)) = occurrences x (cs_force st).
Proof.
  revert st. induction objs as [|o rest IH]; intros st Hx; simpl; [done|].
  rewrite fmap_cons, not_elem_of_cons in Hx. destruct Hx as [Hne Hx].
  rewrite IH by done. apply onObject_other_id. congruence.
Qed.

Lemma elem_of_occurrences x (arr : list Z) : x ∈ arr <-> occurrences x arr <> 0%nat.
Proof.
  rewrite occurrences_zero. destruct (decide (x ∈ arr)); intuition.
Qed.

Lemma loop_no_throw objs st :
  cs_thrown st = false -> allInBaseline a objs -> cs_thrown (loop st objs) = false.
Proof.
  revert st. induction objs as [|o rest IH]; intros st Hth Hall; simpl; [done|].
  apply IH.
  - destruct (Hall o) as [prev Hp]; [left|].
    rewrite (onObject_eq a st o prev Hth Hp). by case_decide.
  - intros o' Hin. apply Hall. by right.
Qed.

(** An object whose test holds at the start of the loop is updated, and
    renamed when its label differs from the baseline's. *)
Lemma loop_emits objs st O P :
  NoDup (id <$> objs) ->
  allInBaseline a objs ->
  cs_thrown st = false ->
  O ∈ objs ->
  getDataObject (_stateData a) (id O) = Some P ->
  mustUpdate a (cs_force st) P O ->
  SetDataState O ∈ cs_calls (loop st objs)
  /\ (label P <> label O -> UpdateObjectCommonName O ∈ cs_calls (loop st objs)).
Proof.
  revert st. induction objs as [|o rest IH]; intros st Hnd Hall Hth Hin HP Hm;
    [inversion Hin|]. simpl.
  rewrite fmap_cons in Hnd. apply NoDup_cons in Hnd as [Hfresh Hnd].
  assert (Hall' : allInBaseline a rest) by (intros o' ?; apply Hall; by right).
  apply elem_of_cons in Hin. destruct Hin as [->|Hin].
  - rewrite (onObject_eq a st o P Hth HP), decide_True by done.
    split; [|intros Hl]; apply loop_calls_mono; simpl; rewrite !elem_of_app.
    + right; right. left.
    + right; left. rewrite decide_False by done. left.
  - destruct (Hall o) as [prev Hp]; [left|].
    assert (Hne : id o <> id O).
    { intros Heq. apply Hfresh. rewrite Heq. by apply list_elem_of_fmap_2. }
    apply IH; try done.
    + rewrite (onObject_eq a st o prev Hth Hp). by case_decide.
    + destruct Hm as [?|[Hf|?]]; [by left| |by right; right].
      right; left. apply elem_of_occurrences.
      rewrite onObject_other_id by done. by apply elem_of_occurrences.
Qed.

(** A forced object with a non-zero id consumes exactly one entry of its
    id. *)
Lemma loop_consumes objs st O :
  NoDup (id <$> objs) ->
  allInBaseline a objs ->
  cs_thrown st = false ->
  O ∈ objs ->
  id O ∈ cs_force st ->
  id O <> 0 ->
  S (occurrences (id O) (cs_force (loop st objs)))
  = occurrences (id O) (cs_force st).
Proof.
  revert st. induction objs as [|o rest IH]; intros st Hnd Hall Hth Hin Hf Hz;
    [inversion Hin|]. simpl.
  rewrite fmap_cons in Hnd. apply NoDup_cons in Hnd as [Hfresh Hnd].
  assert (Hall' : allInBaseline a rest) by (intros o' ?; apply Hall; by right).
  destruct (Hall o) as [prev Hp]; [left|].
  apply elem_of_cons in Hin. destruct Hin as [->|Hin].
  - rewrite loop_other_ids by done.
    rewrite (onObject_eq a st o prev Hth Hp).
    rewrite decide_True by (by right; left). simpl.
    rewrite decide_True by done.
    apply occurrences_delete_same, indexOf_lookup. by apply indexOf_found.
  - assert (Hne : id o <> id O).
    { intros Heq. apply Hfresh. rewrite Heq. by apply list_elem_of_fmap_2. }
    rewrite IH; try done.
    + by apply onObject_other_id.
    + rewrite (onObject_eq a st o prev Hth Hp). by case_decide.
    + apply elem_of_occurrences. rewrite onObject_other_id by done.
      by apply elem_of_occurrences.
Qed.
End Loop.

(** ** The poll callback as a whole *)

Lemma pollCallback_loop a data :
  pollCallback a data
  = let st := foldl (onObject a) (loopStart a data) (objects data) in
    if cs_thrown st then
      {| pr_adapter := with_forceUpdate a (cs_force st);
         pr_calls := cs_calls st; pr_thrown := true |}
    else
      {| pr_adapter :=
           {| instance := instance a;
              _relayDataInterpreter := _relayDataInterpreter a;
              _getStateService_data := _getStateService_data a;
              _forceUpdate := cs_force st;
              _stateData := data;
              _bootstrapped := true |};
         pr_calls :=
           cs_calls st
           ++ [SetStateAsync {| sw_id := connectionId a; sw_val := SVBool true;
                                sw_ack := true |}];
         pr_thrown := false |}.
Proof. reflexivity. Qed.

(** The force-update array after the callback is the loop's. *)
Lemma pollCallback_force a data :
  _forceUpdate (pr_adapter (pollCallback a data))
  = cs_force (foldl (onObject a) (loopStart a data) (objects data)).
Proof. rewrite pollCallback_loop. simpl. by case_match. Qed.

(** Before the loop the callback has only written system-info states. *)
Lemma loopStart_calls a data c :
  c ∈ cs_calls (loopStart a data) ->
  exists key v, c = SetStateAsync {| sw_id := sysInfoStateId a key; sw_val := v;
                                     sw_ack := true |}.
Proof.
  simpl. rewrite elem_of_app. intros [Hc|Hc].
  - unfold sysInfoCalls in Hc. apply list_elem_of_In, in_flat_map in Hc.
    destruct Hc as ([k v] & _ & Hc). simpl in Hc.
    destruct (_ || _); [|inversion Hc]. destruct Hc as [<-|[]]. eauto.
  - unfold updateAdvancedSysInfoStates, advancedSysInfoBatch in Hc.
    destruct (_ || _); [|inversion Hc].
    repeat (apply elem_of_cons in Hc; destruct Hc as [->|Hc]; [eauto|]).
    inversion Hc.
Qed.

(** The calls of the callback on a snapshot whose objects all have a
    baseline entry: those of the loop, then the connection flag. *)
Lemma pollCallback_calls a data c :
  allInBaseline a (objects data) ->
  c ∈ pr_calls (pollCallback a data) <->
  c ∈ cs_calls (foldl (onObject a) (loopStart a data) (objects data))
  \/ c = SetStateAsync {| sw_id := connectionId a; sw_val := SVBool true;
                          sw_ack := true |}.
Proof.
  intros Hall. rewrite pollCallback_loop. simpl.
  rewrite (loop_no_throw a (objects data) (loopStart a data)) by done. simpl.
  by rewrite elem_of_app, list_elem_of_singleton.
Qed.

(** A [setDataState] call writes each tracked field of its object. *)
Lemma setDataState_tracked a obj field :
  field ∈ _objectStateFields ->
  {| sw_id := stateId a obj field; sw_val := getField obj field; sw_ack := true |}
  ∈ setDataState a obj.
Proof.
  intros Hf. unfold setDataState. apply elem_of_app. left.
  apply (list_elem_of_fmap_2
           (fun f => {| sw_id := stateId a obj f; sw_val := getField obj f;
                        sw_ack := true |})).
  unfold _objectStateFields in Hf.
  repeat (apply elem_of_cons in Hf; destruct Hf as [->|Hf];
          [vm_compute; repeat constructor|]).
  inversion Hf.
Qed.

Lemma storeWrites_of_call a calls c w :
  c ∈ calls -> w ∈ storeWritesOf a c -> w ∈ storeWrites a calls.
Proof.
  intros Hc Hw. unfold storeWrites. apply list_elem_of_In, in_flat_map.
  exists c. split; by apply list_elem_of_In.
Qed.

(** Refutes a membership [H] in a list that was computed and holds no
    such element. *)
Ltac not_among H :=
  repeat (apply elem_of_cons in H; destruct H as [H|H]; [discriminate|]);
  inversion H.

(** ** C1: when an object is updated *)

(** C1, as stated, fails: with the bootstrap flag set, the id not forced
    and the value unchanged, a change of [unit] alone does not make the
    callback update the object, although a tracked field differs from the
    baseline's. *)
Lemma C1_unit_change_alone_not_updated :
  let a := Sample.adapter [] (Sample.snapshot 1 [Sample.pump 0 "Pump" ""]) true in
  let data := Sample.snapshot 1 [Sample.pump 0 "Pump" "m3"] in
  let O := Sample.pump 0 "Pump" "m3" in
  ~ (SetDataState O ∈ pr_calls (pollCallback a data)
     <-> (_bootstrapped a = false
          \/ id O ∈ _forceUpdate a
          \/ exists P, getDataObject (_stateData a) (id O) = Some P
                       /\ trackedFieldDiffers P O)).
Proof.
  intros a data O [_ H].
  assert (Hin : SetDataState O ∈ pr_calls (pollCallback a data)).
  { apply H. right; right. exists (Sample.pump 0 "Pump" ""). split; [reflexivity|].
    right; right; right; left. discriminate. }
  vm_compute in Hin. not_among Hin.
Qed.

(** C1, amended: on a snapshot whose objects have distinct ids and a
    baseline entry each, the callback updates object [O] (calls
    [setDataState] on it, which writes every tracked field) if and only
    if the bootstrap flag is unset, or [O]'s id is in the force-update
    array, or [O]'s value differs from the baseline's. *)
Theorem C1_update_iff_value_changed_or_forced a data O P :
  NoDup (id <$> objects data) ->
  allInBaseline a (objects data) ->
  O ∈ objects data ->
  getDataObject (_stateData a) (id O) = Some P ->
  (SetDataState O ∈ pr_calls (pollCallback a data)
   <-> (_bootstrapped a = false \/ id O ∈ _forceUpdate a \/ value P <> value O))
  /\ (SetDataState O ∈ pr_calls (pollCallback a data) ->
      forall field,
        field ∈ _objectStateFields ->
        {| sw_id := stateId a O field; sw_val := getField O field; sw_ack := true |}
        ∈ storeWrites a (pr_calls (pollCallback a data))).
Proof.
  intros Hnd Hall Hin HP. split.
  - rewrite pollCallback_calls by done. split.
    + intros [Hc|Hc]; [|discriminate].
      apply loop_calls_inv in Hc as [Hc|(o & prev & _ & Hp & Hm & Hc)].
      * apply loopStart_calls in Hc as (? & ? & ?). discriminate.
      * destruct Hc as [Hc|[Hc _]]; [|discriminate]. injection Hc as <-.
        rewrite HP in Hp. injection Hp as <-. exact Hm.
    + intros Hm. left.
      by apply (loop_emits a (objects data) (loopStart a data) O P).
  - intros Hc field Hf. eapply storeWrites_of_call; [exact Hc|].
    by apply setDataState_tracked.
Qed.

Lemma C1_update_iff_value_changed_or_forced_witness :
  let a := Sample.adapter [] (Sample.snapshot 1 [Sample.pump 0 "Pump" ""]) true in
  let data := Sample.snapshot 1 [Sample.pump 1 "Pump" ""] in
  SetDataState (Sample.pump 1 "Pump" "") ∈ pr_calls (pollCallback a data)
  <-> (_bootstrapped a = false \/ 16 ∈ _forceUpdate a \/ 0 <> 1).
Proof.
  intros a data.
  refine (proj1 (C1_update_iff_value_changed_or_forced a data
                   (Sample.pump 1 "Pump" "") (Sample.pump 0 "Pump" "") _ _ _ _)).
  - vm_compute. repeat constructor. intros H; inversion H.
  - intros o Ho. apply list_elem_of_singleton in Ho. subst o. by eexists.
  - left.
  - reflexivity.
Defined.

(** ** C2: rename propagation *)

Lemma foldl_setObject_lookup (f : ioObject -> ioObject) (l : list (Id * ioObject))
    (m : gmap Id ioObject) (k : Id) :
  NoDup l.*1 ->
  foldl (fun st (s : Id * ioObject) => setObject st s.1 (f s.2)) m l !! k
  = match (list_to_map l : gmap Id ioObject) !! k with
    | Some v => Some (f v)
    | None => m !! k
    end.
Proof.
  revert m. induction l as [|[k0 v0] rest IH]; intros m Hnd; simpl; [done|].
  rewrite fmap_cons in Hnd. apply NoDup_cons in Hnd as [Hfresh Hnd].
  rewrite IH by done. unfold setObject. simpl.
  destruct (decide (k0 = k)) as [->|Hne].
  - rewrite (not_elem_of_list_to_map_1 _ _ Hfresh). by rewrite !lookup_insert_eq.
  - rewrite (lookup_insert_ne (list_to_map rest)) by done.
    destruct (list_to_map rest !! k); [done|]. by rewrite lookup_insert_ne.
Qed.

Lemma elem_of_getStatesOf (store : gmap Id ioObject) (chan k : Id) (s : ioObject) :
  (k, s) ∈ getStatesOf store chan
  <-> store !! k = Some s /\ chan `prefix_of` k /\ chan <> k
      /\ is_state_object s = true.
Proof.
  unfold getStatesOf. rewrite elem_of_map_to_list, map_lookup_filter_Some. simpl.
  tauto.
Qed.

(** What the rename leaves under every id: the channel and the states
    beneath it get the new name, every other object is as before, and an
    id without an object stays without one. *)
Lemma updateObjectCommonName_lookup (a : ProconIp) (store : gmap Id ioObject)
    (obj : GetStateDataObject) (k : Id) :
  updateObjectCommonName a store obj !! k
  = match store !! k with
    | Some o =>
        if decide (k = channelId a obj
                   \/ (channelId a obj `prefix_of` k /\ channelId a obj <> k
                       /\ is_state_object o = true))
        then Some (set_common_name (label obj) o)
        else Some o
    | None => None
    end.
Proof.
  unfold updateObjectCommonName.
  set (chan := channelId a obj).
  set (store1 := match store !! chan with
                 | Some ioObj => setObject store chan (set_common_name (label obj) ioObj)
                 | None => store
                 end).
  assert (Hother : forall k', chan <> k' -> store1 !! k' = store !! k').
  { intros k' Hk. unfold store1, setObject. destruct (store !! chan); [|done].
    by rewrite lookup_insert_ne. }
  assert (Hchan : store1 !! chan = set_common_name (label obj) <$> store !! chan).
  { unfold store1, setObject. destruct (store !! chan) eqn:E; simpl.
    - by rewrite lookup_insert_eq.
    - done. }
  rewrite foldl_setObject_lookup by apply NoDup_fst_map_to_list.
  unfold getStatesOf. rewrite list_to_map_to_list.
  match goal with |- context [filter ?P store1 !! k] =>
    destruct (filter P store1 !! k) as [v|] eqn:E end.
  - apply map_lookup_filter_Some in E as (Hk & Hpre & Hne & Hst). simpl in *.
    rewrite Hother in Hk by done. rewrite Hk. rewrite decide_True; [done|].
    right. done.
  - apply map_lookup_filter_None in E. destruct (decide (k = chan)) as [->|Hne].
    + rewrite Hchan. destruct (store !! chan); simpl; [|done].
      rewrite decide_True; [done|by left].
    + rewrite Hother by done. destruct (store !! k) as [o|] eqn:Hk; [|done].
      rewrite decide_False; [done|]. intros [?|(Hpre & _ & Hst)]; [done|].
      destruct E as [E|E]; [rewrite Hother in E by done; congruence|].
      apply (E o); [by rewrite Hother|]. simpl. auto.
Qed.

(** C2: the code breaks the claim.  In a bootstrapped cycle that brings
    a new label for an object whose value is unchanged and whose id is not
    forced, no rename propagation is invoked: the label test of the
    callback sits inside the branch that the value test guards.  The cycle
    still makes the snapshot the baseline, so the new label is never
    propagated afterwards either: in the next cycle, in which the value
    changes, the object is updated but not renamed, its label being the
    baseline's by then.  The same new label arriving together with a
    changed value is propagated. *)
Lemma C2_label_only_rename_is_lost :
  let P := Sample.pump 0 "Pump" "" in
  let O := Sample.pump 0 "Filter pump" "" in
  let O' := Sample.pump 1 "Filter pump" "" in
  let a := Sample.adapter [] (Sample.snapshot 1 [P]) true in
  let first := pollCallback a (Sample.snapshot 1 [O]) in
  let second := pollCallback (pr_adapter first) (Sample.snapshot 1 [O']) in
  (_bootstrapped a = true
   /\ getDataObject (_stateData a) (id O) = Some P
   /\ label P <> label O
   /\ value P = value O /\ category P = category O /\ unit P = unit O
   /\ displayValue P = displayValue O /\ active P = active O
   /\ id O ∉ _forceUpdate a)
  /\ (forall o, UpdateObjectCommonName o ∉ pr_calls first)
  /\ getDataObject (_stateData (pr_adapter first)) (id O) = Some O
  /\ SetDataState O' ∈ pr_calls second
  /\ (forall o, UpdateObjectCommonName o ∉ pr_calls second)
  /\ UpdateObjectCommonName O' ∈ pr_calls (pollCallback a (Sample.snapshot 1 [O'])).
Proof.
  intros P O O' a first second.
  split; [split_and!; try done; intros H; inversion H|].
  split; [intros o Hin; vm_compute in Hin; not_among Hin|].
  split; [reflexivity|].
  split; [apply (bool_decide_unpack _); vm_compute; exact I|].
  split; [intros o Hin; vm_compute in Hin; not_among Hin|].
  apply (bool_decide_unpack _). vm_compute. exact I.
Qed.

(** ** Store paths *)

(** A printed number is never the segment [system]. *)
Lemma pretty_N_go_not_system (x : N) (s : string) :
  s <> "system" -> pretty_N_go x s <> "system".
Proof.
  revert s. induction (N.lt_wf_0 x) as [x _ IH]. intros s Hs.
  destruct (decide (x = 0%N)) as [->|Hx]; [by rewrite pretty_N_go_0|].
  rewrite pretty_N_go_step by lia. apply IH; [apply N.div_lt; lia|].
  unfold pretty_N_char. repeat case_match; discriminate.
Qed.

Lemma pretty_Z_not_system (z : Z) : pretty z <> "system".
Proof.
  destruct z as [|p|p]; [discriminate| |discriminate].
  unfold pretty, pretty_Z, pretty, pretty_positive, pretty, pretty_N.
  case_decide; [discriminate|]. by apply pretty_N_go_not_system.
Qed.

Lemma stateId_inj a o o' f f' :
  stateId a o f = stateId a o' f' ->
  category o = category o' /\ categoryId o = categoryId o' /\ f = f'.
Proof.
  unfold stateId, channelId, namespace. simpl. intros H. injection H as H1 H2 H3.
  split_and!; try done. by apply (inj pretty).
Qed.

Lemma stateId_not_sysInfo a o f key : stateId a o f <> sysInfoStateId a key.
Proof.
  unfold stateId, sysInfoStateId, channelId, namespace. simpl. intros H.
  injection H as _ H _. by apply pretty_Z_not_system in H.
Qed.

Lemma stateId_not_connection a o f : stateId a o f <> connectionId a.
Proof. discriminate. Qed.

(** Every write of [setDataState] goes to a state of the object's channel. *)
Lemma setDataState_ids a o w :
  w ∈ setDataState a o -> exists f, sw_id w = stateId a o f.
Proof.
  unfold setDataState. rewrite elem_of_app. intros [Hw|Hw].
  - apply list_elem_of_fmap in Hw as (f & -> & _). by exists f.
  - destruct (isRelayClass a o); [|inversion Hw]. unfold setRelayDataState in Hw.
    repeat (apply elem_of_cons in Hw; destruct Hw as [->|Hw]; [by eexists|]).
    inversion Hw.
Qed.

(** ** C3: which writes a cycle spares *)

(** C3, as stated, fails: when the value of an object changes, its label,
    though unchanged and not forced, is written again. *)
Lemma C3_unchanged_label_written_again :
  let P := Sample.pump 0 "Pump" "" in
  let O := Sample.pump 1 "Pump" "" in
  let a := Sample.adapter [] (Sample.snapshot 1 [P]) true in
  let data := Sample.snapshot 1 [O] in
  _bootstrapped a = true
  /\ P ∈ objects (_stateData a) /\ O ∈ objects data /\ id P = id O
  /\ label P = label O
  /\ (id O ∉ _forceUpdate a)
  /\ ({| sw_id := stateId a O "label"; sw_val := SVStr (label O); sw_ack := true |}
      ∈ storeWrites a (pr_calls (pollCallback a data))).
Proof.
  intros P O a data. split_and!; try done; try (by left).
  - intros H; inversion H.
  - apply (bool_decide_unpack _). vm_compute. exact I.
Qed.

(** Without any assumption on the snapshot: a call of the callback is one
    of the loop's or the connection flag. *)
Lemma pollCallback_calls_inv a data c :
  c ∈ pr_calls (pollCallback a data) ->
  c ∈ cs_calls (foldl (onObject a) (loopStart a data) (objects data))
  \/ c = SetStateAsync {| sw_id := connectionId a; sw_val := SVBool true;
                          sw_ack := true |}.
Proof.
  rewrite pollCallback_loop. simpl. destruct (cs_thrown _); simpl; [by left|].
  rewrite elem_of_app, list_elem_of_singleton. tauto.
Qed.

(** C3, amended: in a bootstrapped cycle, for an object [O] that has a
    baseline entry and is the only object of the snapshot at its channel:
    if the value of [O] is unchanged from the baseline and [O]'s id is not
    in the force-update array at the start of the cycle, then no store
    write of the cycle goes to a state of [O]'s channel, for no field,
    whichever other fields of [O] changed. *)
Theorem C3_no_write_when_value_unchanged a data O P :
  _bootstrapped a = true ->
  O ∈ objects data ->
  getDataObject (_stateData a) (id O) = Some P ->
  value P = value O ->
  id O ∉ _forceUpdate a ->
  (forall o, o ∈ objects data ->
             category o = category O -> categoryId o = categoryId O -> o = O) ->
  forall w field,
    w ∈ storeWrites a (pr_calls (pollCallback a data)) ->
    sw_id w <> stateId a O field.
Proof.
  intros Hboot Hin HP Hval Hforce Huniq w field Hw Hid.
  unfold storeWrites in Hw. apply list_elem_of_In, in_flat_map in Hw.
  destruct Hw as (c & Hc & Hw). apply list_elem_of_In in Hc, Hw.
  apply pollCallback_calls_inv in Hc as [Hc| ->].
  - apply loop_calls_inv in Hc as [Hc|(o & prev & Ho & Hp & Hm & Hc)].
    + apply loopStart_calls in Hc as (key & v & ->). simpl in Hw.
      apply list_elem_of_singleton in Hw. subst w. simpl in Hid.
      symmetry in Hid. by apply stateId_not_sysInfo in Hid.
    + destruct Hc as [->|[-> _]]; simpl in Hw; [|inversion Hw].
      apply setDataState_ids in Hw as (f & Hf). rewrite Hf in Hid.
      apply stateId_inj in Hid as (Hcat & Hcid & _).
      assert (o = O) as -> by (by apply Huniq).
      rewrite HP in Hp. injection Hp as <-.
      destruct Hm as [Hm|[Hm|Hm]]; [congruence|done|done].
  - simpl in Hw. apply list_elem_of_singleton in Hw. subst w. simpl in Hid.
    symmetry in Hid. by apply stateId_not_connection in Hid.
Qed.

Lemma C3_no_write_when_value_unchanged_witness :
  let P := Sample.pump 0 "Pump" "" in
  let O := Sample.pump 0 "Filter pump" "m3" in
  let a := Sample.adapter [] (Sample.snapshot 1 [P]) true in
  let data := Sample.snapshot 2 [O] in
  let w := {| sw_id := sysInfoStateId a "dosageControl"; sw_val := SVStr "2";
              sw_ack := true |} in
  w ∈ storeWrites a (pr_calls (pollCallback a data))
  /\ sw_id w <> stateId a O "unit".
Proof.
  intros P O a data w.
  assert (Hw : w ∈ storeWrites a (pr_calls (pollCallback a data))).
  { apply (bool_decide_unpack _). vm_compute. exact I. }
  split; [exact Hw|].
  refine (C3_no_write_when_value_unchanged a data O P _ _ _ _ _ _ w "unit" Hw).
  - reflexivity.
  - left.
  - reflexivity.
  - reflexivity.
  - intros H; inversion H.
  - intros o Ho _ _. by apply list_elem_of_singleton in Ho.
Defined.

(** ** C4: forced updates *)

(** An entry 0 of the force-update array is never consumed: the test
    before the [splice] reads the entry itself, and 0 is falsy. *)
Lemma loop_keeps_zero a objs st :
  occurrences 0 (cs_force (foldl (onObject a) st objs)) = occurrences 0 (cs_force st).
Proof.
  revert st. induction objs as [|o rest IH]; intros st; simpl; [done|].
  rewrite IH.
  destruct (onObject_cases a st o) as [->|[(_ & _ & ->)|(prev & _ & _ & _ & ->)]];
    simpl; try done.
  case_decide as Hin; [|done]. destruct Hin as [Hin Hz].
  eapply occurrences_delete_other; [|exact Hz].
  apply indexOf_lookup. by apply indexOf_found.
Qed.

Lemma forced_id_zero_stays a data :
  0 ∈ _forceUpdate a -> 0 ∈ _forceUpdate (pr_adapter (pollCallback a data)).
Proof.
  rewrite pollCallback_force, !elem_of_occurrences. by rewrite loop_keeps_zero.
Qed.




(** ** C9: system-info writes *)

(** What the objects loop appends are calls about objects. *)
Lemma loop_calls_app a objs st :
  exists rest,
    cs_calls (foldl (onObject a) st objs) = cs_calls st ++ rest
    /\ forall c, c ∈ rest ->
                 exists o, c = SetDataState o \/ c = UpdateObjectCommonName o.
Proof.
  revert st. induction objs as [|o tl IH]; intros st; simpl.
  - exists []. split; [by rewrite app_nil_r|]. intros c Hc. inversion Hc.
  - destruct (IH (onObject a st o)) as (rest & -> & Hrest).
    destruct (onObject_cases a st o) as [->|[(_ & _ & ->)|(prev & _ & _ & _ & ->)]];
      simpl; try by exists rest.
    eexists. rewrite <- !app_assoc. split; [reflexivity|].
    intros c. rewrite !elem_of_app. intros [Hc|[Hc|Hc]]; [| |by apply Hrest].
    + case_decide; [inversion Hc|]. apply list_elem_of_singleton in Hc. eauto.
    + apply list_elem_of_singleton in Hc. eauto.
Qed.

Lemma sysInfoCalls_filter a s :
  sysInfoCalls a s
  = map (fun info : string * SysVal =>
           SetStateAsync {| sw_id := sysInfoStateId a info.1;
                            sw_val := SVStr (toString info.2);
                            sw_ack := true |})
        (filter (fun info : string * SysVal =>
                   _bootstrapped a = false
                   \/ sysInfo_get (sysInfo (_stateData a)) info.1 <> Some info.2)
                (toArrayOfObjects s)).
Proof.
  unfold sysInfoCalls. induction (toArrayOfObjects s) as [|info rest IH]; [done|].
  cbn [flat_map]. rewrite filter_cons, IH.
  destruct (decide (_bootstrapped a = false
                    \/ sysInfo_get (sysInfo (_stateData a)) info.1 <> Some info.2))
    as [Hc|Hc].
  - assert (negb (_bootstrapped a)
            || negb (bool_decide (Some info.2
                                  = sysInfo_get (sysInfo (_stateData a)) info.1))
            = true) as ->; [|done].
    destruct Hc as [->|Hc]; [done|]. rewrite bool_decide_eq_false_2 by congruence.
    by rewrite orb_true_r.
  - assert (negb (_bootstrapped a)
            || negb (bool_decide (Some info.2
                                  = sysInfo_get (sysInfo (_stateData a)) info.1))
            = false) as ->; [|done].
    destruct (_bootstrapped a); [|exfalso; apply Hc; by left]. simpl.
    rewrite bool_decide_eq_true_2; [done|].
    destruct (decide (Some info.2 = sysInfo_get (sysInfo (_stateData a)) info.1));
      [done|]. exfalso. apply Hc. right. congruence.
Qed.

(** The test of [updateAdvancedSysInfoStates], as a proposition on the
    [dosageControl] properties. *)
Lemma updateAdvancedSysInfoStates_batch a s :
  updateAdvancedSysInfoStates a s
  = if decide (_bootstrapped a = false
               \/ properties s !! "dosageControl"
                  <> properties (sysInfo (_stateData a)) !! "dosageControl")
    then advancedSysInfoBatch a s else [].
Proof.
  unfold updateAdvancedSysInfoStates, dosageControl, sysInfo_get.
  case_decide as Hc.
  - destruct Hc as [->|Hc]; [done|].
    rewrite bool_decide_eq_false_2 by done. by rewrite orb_true_r.
  - destruct (_bootstrapped a); [|exfalso; apply Hc; by left]. simpl.
    rewrite bool_decide_eq_true_2; [done|].
    destruct (decide (properties s !! "dosageControl"
                      = properties (sysInfo (_stateData a)) !! "dosageControl"));
      [done|]. exfalso. apply Hc. by right.
Qed.

(** C9: the code breaks the claim.  On a bootstrapped cycle that delivers
    the very snapshot that is the baseline, the scalar [dosageControl],
    though unchanged, is written again: the callback compares the value
    that [toArrayOfObjects] delivers, the string ["5"], with the property
    of the baseline, the number 5, and the two are never strictly equal.
    The string scalar [version] is compared like with like and is not
    written. *)
Lemma C9_unchanged_numeric_scalar_written_again :
  let data := Sample.snapshot 5 [Sample.pump 0 "Pump" ""] in
  let a := Sample.adapter [] data true in
  let written key v :=
    SetStateAsync {| sw_id := sysInfoStateId a key; sw_val := SVStr v; sw_ack := true |} in
  (_bootstrapped a = true /\ _stateData a = data)
  /\ sysInfo_get (sysInfo data) "dosageControl" = Some (SysNum 5)
  /\ ("dosageControl", SysStr "5") ∈ toArrayOfObjects (sysInfo data)
  /\ written "dosageControl" "5" ∈ pr_calls (pollCallback a data)
  /\ (forall v, written "version" v ∉ pr_calls (pollCallback a data)).
Proof.
  intros data a written.
  split; [by split|].
  split; [reflexivity|].
  split; [apply (bool_decide_unpack _); vm_compute; exact I|].
  split; [apply (bool_decide_unpack _); vm_compute; exact I|].
  intros v Hin. vm_compute in Hin. not_among Hin.
Qed.

(** ** The write path *)

(** Unfolds a handler into the plain function on runs it stands for. *)
Ltac unfold_handler :=
  unfold relayToggleAuto, relayToggleOnOff, setDosageTimer, setRelayTimer,
    promise_catch, getStateAsync, getObjectAsync, dataObjectOf, deref,
    forceUpdate_push, try_catch, await_call, call, await, log, emit,
    get_stateData, bind, ret, throw, start;
  cbn [r_adapter r_trace fst snd].

(** ** C6: the command of an auto intent *)

(** C6, as stated, fails: an auto intent with the value true, on a relay
    of the store whose onOff state cannot be read, transmits no command. *)
Lemma C6_auto_true_without_onOff_state_transmits_nothing :
  let relay := Sample.pump 0 "Pump" "" in
  let a := Sample.adapter [] (Sample.snapshot 1 [relay]) true in
  let env := Sample.platform a [] (fun _ => Fulfils 16) in
  let state := Sample.intent (SVBool true) in
  let objectId := Sample.relay1 ++ ["auto"] in
  (is_Some (p_objects env !! objectId)
   /\ getDataObject (_stateData a) 16 = Some relay
   /\ truthy (val state) = true)
  /\ transmitted (r_trace (relayToggleAuto env objectId state (start a)).2) = [].
Proof.
  intros relay a env state objectId.
  split; [|vm_compute; reflexivity].
  split; [vm_compute; by eexists|]. by split.
Qed.

(** C6, amended: an auto intent on a relay whose onOff state can be read
    and whose object and data object are found transmits exactly one
    device command: "set auto" when the intended value is true, whatever
    the onOff state holds; otherwise "set on" when the onOff state read
    holds true, and "set off" when it does not.  The onOff state is read
    in either case. *)
Theorem C6_auto_intent_transmits_one_command
    env a objectId state onOffState common native relay :
  p_states env !! replace_auto_onOff objectId = Some onOffState ->
  p_objects env !! objectId = Some (StateObject common (Some native)) ->
  getDataObject (_stateData a) (id native) = Some relay ->
  let trace := r_trace (relayToggleAuto env objectId state (start a)).2 in
  transmitted trace
  = [ if truthy (val state) then SetAuto relay
      else if truthy (val onOffState) then SetOn relay
      else SetOff relay ]
  /\ GetStateAsync (replace_auto_onOff objectId) ∈ trace.
Proof.
  intros Hstate Hobj Hdata. unfold_handler. rewrite Hstate, Hobj. simpl.
  rewrite Hdata. simpl.
  destruct (truthy (val state)); [|destruct (truthy (val onOffState))]; simpl;
    match goal with |- context [p_device env ?c] => destruct (p_device env c) end;
    simpl; (split; [reflexivity|left]).
Qed.

Lemma C6_auto_intent_transmits_one_command_witness :
  let a := Sample.adapter [] (Sample.snapshot 1 [Sample.pump 0 "Pump" ""]) true in
  let env := Sample.platform a
               [(Sample.relay1 ++ ["onOff"], {| val := SVBool true; ack := true |})]
               (fun _ => Fulfils 16) in
  transmitted
    (r_trace (relayToggleAuto env (Sample.relay1 ++ ["auto"])
                (Sample.intent (SVBool false)) (start a)).2)
  = [SetOn (Sample.pump 0 "Pump" "")].
Proof.
  intros a env.
  refine (proj1 (C6_auto_intent_transmits_one_command env a
                   (Sample.relay1 ++ ["auto"]) (Sample.intent (SVBool false))
                   {| val := SVBool true; ack := true |}
                   {| c_name := "Pump"; c_type := "boolean"; c_role := "switch.mode.auto";
                      c_read := true; c_write := true; c_unit := None;
                      c_smartName := Smart "Pump auto" "Pump auto" "SWITCH" |}
                   (Sample.pump 0 "Pump" "") (Sample.pump 0 "Pump" "") _ _ _)).
  - vm_compute. reflexivity.
  - vm_compute. reflexivity.
  - reflexivity.
Defined.

(** ** C10: the onOff state is read first *)




(** ** C7: routing of a dosage-timer intent *)

(** C7: a dosage-timer intent whose object and data object are found
    resolves the channel as [categoryId + 8] for a relay of the external
    bank and as [categoryId] otherwise, and transmits the chlorine, the
    pH-minus or the pH-plus dosage command when the channel is the
    configured id of that dosage control (the first of the three that
    matches), and nothing when it is none of them; in every case the
    handler completes without an error. *)
Theorem C7_dosage_timer_routed_by_channel env a objectId state common native relay :
  p_objects env !! objectId = Some (StateObject common (Some native)) ->
  getDataObject (_stateData a) (id native) = Some relay ->
  let channel :=
    if decide (category relay = "externalRelays") then categoryId relay + 8
    else categoryId relay in
  let run := setDosageTimer env objectId state (start a) in
  run.1 = Returned tt
  /\ transmitted (r_trace run.2)
     = (if decide (channel = getChlorineDosageControlId (_stateData a))
        then [SetChlorineDosage (val state)]
        else if decide (channel = getPhMinusDosageControlId (_stateData a))
        then [SetPhMinusDosage (val state)]
        else if decide (channel = getPhPlusDosageControlId (_stateData a))
        then [SetPhPlusDosage (val state)]
        else []).
Proof.
  intros Hobj Hdata channel run. unfold run. unfold_handler.
  rewrite Hobj. simpl. rewrite Hdata. simpl.
  assert (Hch : dosageRelayId relay = channel).
  { unfold dosageRelayId, channel, GetStateCategory.EXTERNAL_RELAYS.
    case_bool_decide; [rewrite decide_True by done|rewrite decide_False by done]; lia. }
  rewrite Hch.
  destruct (Z.eqb_spec channel (getChlorineDosageControlId (_stateData a)));
    [rewrite decide_True by done|rewrite decide_False by done;
     destruct (Z.eqb_spec channel (getPhMinusDosageControlId (_stateData a)));
     [rewrite decide_True by done|rewrite decide_False by done;
      destruct (Z.eqb_spec channel (getPhPlusDosageControlId (_stateData a)));
      [rewrite decide_True by done|rewrite decide_False by done]]];
    simpl;
    try match goal with |- context [p_device env ?c] => destruct (p_device env c) end;
    simpl; done.
Qed.

Lemma C7_dosage_timer_routed_by_channel_witness :
  let a := Sample.adapter [] (Sample.snapshot 1 [Sample.pump 0 "Pump" ""]) true in
  let env := Sample.platform a [] (fun _ => Rejects "timeout") in
  let run := setDosageTimer env (Sample.relay1 ++ ["dosageTimer"])
               (Sample.intent (SVNum 30)) (start a) in
  run.1 = Returned tt /\ transmitted (r_trace run.2) = [SetChlorineDosage (SVNum 30)].
Proof.
  intros a env run.
  refine (C7_dosage_timer_routed_by_channel env a (Sample.relay1 ++ ["dosageTimer"])
            (Sample.intent (SVNum 30))
            {| c_name := "Pump"; c_type := "number"; c_role := "value.interval";
               c_read := false; c_write := true; c_unit := None;
               c_smartName := SmartAbsent |}
            (Sample.pump 0 "Pump" "") (Sample.pump 0 "Pump" "") _ _).
  - vm_compute. reflexivity.
  - reflexivity.
Defined.

(** ** C5: the ledger and transport failures *)

(** The three handlers that await the device call complete normally and
    record the id, whatever the device does. *)
Lemma relayToggleOnOff_recorded env a objectId state common native relay :
  p_objects env !! objectId = Some (StateObject common (Some native)) ->
  getDataObject (_stateData a) (id native) = Some relay ->
  (relayToggleOnOff env objectId state (start a)).1 = Returned tt
  /\ _forceUpdate (r_adapter (relayToggleOnOff env objectId state (start a)).2)
     = push (_forceUpdate a) (id relay).
Proof.
  intros Hobj Hdata. unfold_handler. rewrite Hobj. simpl. rewrite Hdata. simpl.
  destruct (truthy (val state)); simpl;
    match goal with |- context [p_device env ?c] => destruct (p_device env c) end;
    simpl; done.
Qed.

Lemma setDosageTimer_recorded env a objectId state common native relay :
  p_objects env !! objectId = Some (StateObject common (Some native)) ->
  getDataObject (_stateData a) (id native) = Some relay ->
  (setDosageTimer env objectId state (start a)).1 = Returned tt
  /\ _forceUpdate (r_adapter (setDosageTimer env objectId state (start a)).2)
     = push (_forceUpdate a) (id relay).
Proof.
  intros Hobj Hdata. unfold_handler. rewrite Hobj. simpl. rewrite Hdata. simpl.
  repeat (match goal with |- context [if ?b then _ else _] => destruct b end; simpl);
    try match goal with |- context [p_device env ?c] => destruct (p_device env c) end;
    simpl; done.
Qed.

Lemma setRelayTimer_recorded env a objectId state common native relay :
  p_objects env !! objectId = Some (StateObject common (Some native)) ->
  getDataObject (_stateData a) (id native) = Some relay ->
  (setRelayTimer env objectId state (start a)).1 = Returned tt
  /\ _forceUpdate (r_adapter (setRelayTimer env objectId state (start a)).2)
     = push (_forceUpdate a) (id relay).
Proof.
  intros Hobj Hdata. unfold_handler. rewrite Hobj. simpl. rewrite Hdata. simpl.
  match goal with |- context [p_device env ?c] => destruct (p_device env c) end;
    simpl; done.
Qed.

(** The auto handler records the id too, once the onOff state is read;
    it hands the promise of the device call back without awaiting it. *)
Lemma relayToggleAuto_recorded env a objectId state onOffState common native relay :
  p_states env !! replace_auto_onOff objectId = Some onOffState ->
  p_objects env !! objectId = Some (StateObject common (Some native)) ->
  getDataObject (_stateData a) (id native) = Some relay ->
  _forceUpdate (r_adapter (relayToggleAuto env objectId state (start a)).2)
  = push (_forceUpdate a) (id relay).
Proof.
  intros Hstate Hobj Hdata. unfold_handler. rewrite Hstate, Hobj. simpl.
  rewrite Hdata. simpl.
  destruct (truthy (val state)); [|destruct (truthy (val onOffState))]; simpl;
    match goal with |- context [p_device env ?c] => destruct (p_device env c) end;
    simpl; done.
Qed.

(** A rejection of the device call passes through the [try] of the auto
    handler: its promise is returned, not awaited, so the handler's own
    [catch] does not see it. *)
Lemma relayToggleAuto_rejection_passes env a objectId state onOffState common native
    relay reason :
  p_states env !! replace_auto_onOff objectId = Some onOffState ->
  p_objects env !! objectId = Some (StateObject common (Some native)) ->
  getDataObject (_stateData a) (id native) = Some relay ->
  (forall c, p_device env c = Rejects reason) ->
  (relayToggleAuto env objectId state (start a)).1 = Failed (ServiceError reason).
Proof.
  intros Hstate Hobj Hdata Hdev. unfold_handler. rewrite Hstate, Hobj. simpl.
  rewrite Hdata. simpl.
  destruct (truthy (val state)); [|destruct (truthy (val onOffState))]; simpl;
    rewrite Hdev; simpl; done.
Qed.

(** What [promise_catch] with a logging callback keeps of a handler: it
    always completes normally, and the adapter is as the handler left it. *)
Lemma promise_catch_log_returns {A} (m : Handler A) (msg : Error -> string) (r : Run) :
  (promise_catch m (fun e => log "error" (msg e)) r).1 = Returned tt.
Proof. unfold promise_catch, log, emit. destruct (m r) as [[x|e] r']; simpl; done. Qed.

Lemma promise_catch_log_adapter {A} (m : Handler A) (msg : Error -> string) (r : Run) :
  r_adapter (promise_catch m (fun e => log "error" (msg e)) r).2 = r_adapter (m r).2.
Proof. unfold promise_catch, log, emit. destruct (m r) as [[x|e] r']; simpl; done. Qed.

(** C5, as stated, fails: an auto intent whose target object and data
    object are found, but whose companion onOff state cannot be read, does
    not put the id into the force-update array. *)
Lemma C5_auto_intent_without_onOff_state_not_recorded :
  let relay := Sample.pump 0 "Pump" "" in
  let a := Sample.adapter [] (Sample.snapshot 1 [relay]) true in
  let env := Sample.platform a [] (fun _ => Fulfils 16) in
  let objectId := Sample.relay1 ++ ["auto"] in
  let run := onStateChange env objectId (Some (Sample.intent (SVBool true))) (start a) in
  (exists common native,
     p_objects env !! objectId = Some (StateObject common (Some native))
     /\ getDataObject (_stateData a) (id native) = Some relay)
  /\ id relay ∉ _forceUpdate (r_adapter run.2).
Proof.
  intros relay a env objectId run. split.
  - eexists _, _. split; [vm_compute; reflexivity|reflexivity].
  - vm_compute. intros H. inversion H.
Qed.

(** C5, amended: for a write intent (auto, onOff, dosageTimer or timer)
    whose target object and data object are found and, for an auto intent,
    whose companion onOff state can be read, the id of the data object is
    appended to the force-update array by the time the dispatcher is done,
    whatever the device call does, and no failure of the device call
    leaves the dispatcher; the onOff, dosageTimer and timer handlers
    complete normally themselves. *)
Theorem C5_intent_recorded_whatever_the_device_does
    env a objectId state common native relay :
  ack state = false ->
  endsWith objectId "auto" = true \/ endsWith objectId "onOff" = true
  \/ endsWith objectId "dosageTimer" = true \/ endsWith objectId "timer" = true ->
  p_objects env !! objectId = Some (StateObject common (Some native)) ->
  getDataObject (_stateData a) (id native) = Some relay ->
  (endsWith objectId "auto" = true ->
   is_Some (p_states env !! replace_auto_onOff objectId)) ->
  let run := onStateChange env objectId (Some state) (start a) in
  run.1 = Returned tt
  /\ _forceUpdate (r_adapter run.2) = push (_forceUpdate a) (id relay)
  /\ (relayToggleOnOff env objectId state (start a)).1 = Returned tt
  /\ (setDosageTimer env objectId state (start a)).1 = Returned tt
  /\ (setRelayTimer env objectId state (start a)).1 = Returned tt.
Proof.
  intros Hack Hkind Hobj Hdata HonOff run.
  pose proof (relayToggleOnOff_recorded env a objectId state _ _ _ Hobj Hdata)
    as [HonOff1 HonOff2].
  pose proof (setDosageTimer_recorded env a objectId state _ _ _ Hobj Hdata)
    as [Hdos1 Hdos2].
  pose proof (setRelayTimer_recorded env a objectId state _ _ _ Hobj Hdata)
    as [Htim1 Htim2].
  split_and!; try done; unfold run, onStateChange; rewrite Hack.
  - repeat case_match; try apply promise_catch_log_returns. reflexivity.
  - destruct (endsWith objectId "auto") eqn:Hauto.
    { destruct (HonOff eq_refl) as [onOffState Hstate].
      rewrite promise_catch_log_adapter.
      by eapply relayToggleAuto_recorded. }
    destruct (endsWith objectId "onOff");
      [by rewrite promise_catch_log_adapter|].
    destruct (endsWith objectId "dosageTimer");
      [by rewrite promise_catch_log_adapter|].
    destruct (endsWith objectId "timer");
      [by rewrite promise_catch_log_adapter|].
    destruct Hkind as [?|[?|[?|?]]]; discriminate.
Qed.

Lemma C5_intent_recorded_whatever_the_device_does_witness :
  let relay := Sample.pump 0 "Pump" "" in
  let a := Sample.adapter [] (Sample.snapshot 1 [relay]) true in
  let env := Sample.platform a
               [(Sample.relay1 ++ ["onOff"], {| val := SVBool false; ack := true |})]
               (fun _ => Rejects "timeout") in
  let run := onStateChange env (Sample.relay1 ++ ["auto"])
               (Some (Sample.intent (SVBool true))) (start a) in
  run.1 = Returned tt /\ _forceUpdate (r_adapter run.2) = [16].
Proof.
  intros relay a env run.
  assert (H := C5_intent_recorded_whatever_the_device_does env a
                 (Sample.relay1 ++ ["auto"]) (Sample.intent (SVBool true))
                 {| c_name := "Pump"; c_type := "boolean"; c_role := "switch.mode.auto";
                    c_read := true; c_write := true; c_unit := None;
                    c_smartName := Smart "Pump auto" "Pump auto" "SWITCH" |}
                 relay relay).
  destruct H as (H1 & H2 & _).
  - reflexivity.
  - left. reflexivity.
  - vm_compute. reflexivity.
  - reflexivity.
  - intros _. vm_compute. by eexists.
  - split; [exact H1|exact H2].
Defined.

(** ** C8: the states of a relay *)

Lemma startsWith_spec (w s : string) :
  startsWith w s = true <-> exists post, s = (w ++ post)%string.
Proof.
  revert s. induction w as [|a w IH]; intros s; simpl.
  - split; [intros _; by exists s|done].
  - destruct s as [|b s]; simpl.
    + split; [done|]. intros [post H]. discriminate.
    + rewrite andb_true_iff, bool_decide_eq_true, IH. split.
      * intros [-> [post ->]]. by exists post.
      * intros [post H]. injection H as -> ->. split; [done|]. by exists post.
Qed.

Lemma occursIn_spec (w s : string) :
  occursIn w s = true <-> exists pre post, s = (pre ++ w ++ post)%string.
Proof.
  induction s as [|b s IH]; simpl.
  - rewrite orb_false_r, startsWith_spec. split.
    + intros [post H]. by exists "", post.
    + intros (pre & post & H). destruct pre; [by exists post|discriminate].
  - rewrite orb_true_iff, startsWith_spec, IH. split.
    + intros [[post H]|(pre & post & ->)].
      * by exists "", post.
      * by exists (String b pre), post.
    + intros (pre & post & H). destruct pre as [|c pre]; simpl in H.
      * left. by exists post.
      * right. injection H as -> ->. by exists pre, post.
Qed.

(** The pattern test: an alternative occurs in the label, read in lower
    case. *)
Lemma isLightLabel_spec (l : string) :
  isLightLabel l = true
  <-> exists w pre post,
        w ∈ ["light"; "bulb"; "licht"; "leucht"]
        /\ lowercase l = (pre ++ w ++ post)%string.
Proof.
  unfold isLightLabel. rewrite existsb_exists. split.
  - intros (w & Hw & Hocc). apply occursIn_spec in Hocc as (pre & post & H).
    exists w, pre, post. split; [by apply list_elem_of_In|done].
  - intros (w & pre & post & Hw & H). exists w. split; [by apply list_elem_of_In|].
    apply occursIn_spec. by exists pre, post.
Qed.

Lemma nat_of_ascii_inj (c d : ascii) : nat_of_ascii c = nat_of_ascii d -> c = d.
Proof.
  intros H. rewrite <- (ascii_nat_embedding c), <- (ascii_nat_embedding d).
  by rewrite H.
Qed.

(** The test of [lower] for a capital, on the code of the character. *)
Lemma is_capital_spec (n : nat) :
  ((65 <=? n) && (n <=? 90))%nat = true <-> (65 <= n <= 90)%nat.
Proof. rewrite andb_true_iff, !Nat.leb_le. done. Qed.

(** [lower] identifies exactly the characters that are the same letter. *)
Lemma lower_same_letter (c d : ascii) : lower c = lower d <-> sameLetter c d.
Proof.
  unfold lower, sameLetter.
  pose proof (nat_ascii_bounded c) as Hc. pose proof (nat_ascii_bounded d) as Hd.
  pose proof (is_capital_spec (nat_of_ascii c)) as Ec.
  pose proof (is_capital_spec (nat_of_ascii d)) as Ed.
  destruct ((65 <=? nat_of_ascii c)%nat && (nat_of_ascii c <=? 90)%nat);
    destruct ((65 <=? nat_of_ascii d)%nat && (nat_of_ascii d <=? 90)%nat).
  - pose proof (proj1 Ec eq_refl). pose proof (proj1 Ed eq_refl). split.
    + intros H'. apply (f_equal nat_of_ascii) in H'.
      rewrite !nat_ascii_embedding in H' by lia. left. apply nat_of_ascii_inj. lia.
    + intros [->|[[_ H']|[_ H']]]; [done|lia|lia].
  - pose proof (proj1 Ec eq_refl).
    assert (~ (65 <= nat_of_ascii d <= 90)%nat) by (intros H'; by apply Ed in H'). split.
    + intros H'. apply (f_equal nat_of_ascii) in H'.
      rewrite nat_ascii_embedding in H' by lia. right; left. lia.
    + intros [->|[[_ H']|[H' _]]]; [lia| |lia].
      rewrite <- H'. apply ascii_nat_embedding.
  - pose proof (proj1 Ed eq_refl).
    assert (~ (65 <= nat_of_ascii c <= 90)%nat) by (intros H'; by apply Ec in H'). split.
    + intros H'. apply (f_equal nat_of_ascii) in H'.
      rewrite nat_ascii_embedding in H' by lia. right; right. lia.
    + intros [->|[[H' _]|[_ H']]]; [lia|lia|].
      rewrite <- H'. symmetry. apply ascii_nat_embedding.
  - assert (~ (65 <= nat_of_ascii c <= 90)%nat) by (intros H'; by apply Ec in H').
    assert (~ (65 <= nat_of_ascii d <= 90)%nat) by (intros H'; by apply Ed in H').
    split; [by left|]. intros [->|[[H' _]|[H' _]]]; [done|lia|lia].
Qed.

Lemma equalIgnoringCase_lowercase (s t : string) :
  equalIgnoringCase s t <-> lowercase s = lowercase t.
Proof.
  revert t. induction s as [|c s IH]; intros [|d t]; simpl; try done.
  rewrite IH, <- lower_same_letter. split.
  - by intros [-> ->].
  - intros H. by injection H.
Qed.

Lemma lowercase_app (s t : string) :
  lowercase (s ++ t) = (lowercase s ++ lowercase t)%string.
Proof. induction s as [|c s IH]; simpl; [done|]. by rewrite IH. Qed.

(** A string whose lower case is [x ++ y] splits accordingly. *)
Lemma lowercase_split (l x y : string) :
  lowercase l = (x ++ y)%string ->
  exists s t, l = (s ++ t)%string /\ lowercase s = x /\ lowercase t = y.
Proof.
  revert l. induction x as [|a x IH]; intros l H; simpl in H.
  - by exists "", l.
  - destruct l as [|c l]; [discriminate|]. simpl in H. injection H as Ha H.
    destruct (IH l H) as (s & t & -> & Hs & Ht).
    exists (String c s), t. simpl. by rewrite Ha, Hs.
Qed.

(** The pattern test is the spec's heuristic: one of the four words is
    contained in the label, case ignored. *)
Lemma isLightLabel_ignoring_case (l : string) :
  isLightLabel l = true
  <-> containsIgnoringCase ["light"; "bulb"; "licht"; "leucht"] l.
Proof.
  rewrite isLightLabel_spec. unfold containsIgnoringCase.
  assert (Hlow : forall w, w ∈ ["light"; "bulb"; "licht"; "leucht"] -> lowercase w = w).
  { intros w Hw.
    repeat (apply elem_of_cons in Hw; destruct Hw as [->|Hw]; [reflexivity|]).
    inversion Hw. }
  split.
  - intros (w & pre & post & Hw & H).
    apply lowercase_split in H as (s & t & -> & _ & H).
    apply lowercase_split in H as (mid & u & -> & Hmid & _).
    exists w, s, mid, u. split_and!; try done.
    apply equalIgnoringCase_lowercase. by rewrite (Hlow w Hw).
  - intros (w & pre & mid & post & Hw & -> & Hmid).
    apply equalIgnoringCase_lowercase in Hmid. rewrite (Hlow w Hw) in Hmid.
    exists w, (lowercase pre), (lowercase post). split; [done|].
    by rewrite !lowercase_app, Hmid.
Qed.

Lemma filter_none {A} (P : A -> Prop) `{forall x, Decision (P x)} (l : list A) :
  (forall x, x ∈ l -> ~ P x) -> filter P l = [].
Proof.
  induction l as [|x l IH]; intros Hl; [done|].
  rewrite filter_cons, decide_False by (apply Hl; left).
  apply IH. intros y Hy. apply Hl. by right.
Qed.

(** The states the materializer creates for the keys of an object are
    those of the tracked fields. *)
Lemma fieldCommon_tracked obj field common :
  field ∈ Object_keys -> fieldCommon obj field = Some common ->
  field ∈ _objectStateFields.
Proof.
  intros Hf. unfold Object_keys in Hf.
  repeat (apply elem_of_cons in Hf; destruct Hf as [->|Hf];
          [first [ by (intros _; apply (bool_decide_unpack _); vm_compute)
                 | by (vm_compute; intros ?; discriminate) ]|]).
  inversion Hf.
Qed.

Lemma channelId_not_stateId a o f : channelId a o <> stateId a o f.
Proof.
  unfold stateId. intros H. apply (f_equal length) in H.
  rewrite length_app in H. simpl in H. lia.
Qed.

(** For a test on ids that neither the channel nor a tracked field
    passes, only the relay states of the materializer are in question. *)
Lemma filter_creates_relay_part a obj (P : Id -> Prop) `{forall i, Decision (P i)} :
  ~ P (channelId a obj) ->
  (forall f, f ∈ _objectStateFields -> ~ P (stateId a obj f)) ->
  filter (fun c : Create => P c.1) (setDataObjectNotExists a obj)
  = filter (fun c : Create => P c.1)
           (if isRelayClass a obj then setRelayDataObject a obj else []).
Proof.
  intros Hchan Hfields. unfold setDataObjectNotExists.
  rewrite !filter_app, filter_cons, decide_False by done.
  rewrite filter_nil.
  rewrite (filter_none (fun c : Create => P c.1) (flat_map _ _)); [done|].
  intros [i o] Hc. apply list_elem_of_In, in_flat_map in Hc.
  destruct Hc as (f & Hf & Hc). apply list_elem_of_In in Hf.
  destruct (fieldCommon obj f) as [common|] eqn:Hcommon; [|inversion Hc].
  destruct Hc as [Hc|[]]. injection Hc as <- <-. simpl.
  apply Hfields. by eapply fieldCommon_tracked.
Qed.

(** A field name that is not among the tracked ones. *)
Ltac not_tracked Hf :=
  unfold _objectStateFields in Hf;
  repeat (apply elem_of_cons in Hf; destruct Hf as [Hf|Hf]; [discriminate|]);
  inversion Hf.

(** Deciding whether two states of one channel are the same state. *)
Ltac same_state :=
  repeat first
    [ rewrite decide_True by (first [reflexivity | by left | by right])
    | rewrite decide_False
        by (let H := fresh in
            intros H;
            repeat match type of H with
                   | _ \/ _ => destruct H as [H|H]
                   end;
            apply stateId_inj in H as (_ & _ & H); discriminate) ].

(** C8: for a relay-class object (category [relays], or [externalRelays]
    with the external bank enabled) the materializer requests exactly one
    onOff state, writable if and only if the relay's channel
    ([categoryId], plus 8 in the external bank) is none of the three
    configured dosage-control ids, and exactly one timer state:
    [dosageTimer] when the channel is one of those ids and [timer]
    otherwise, in both cases a number that can be written but not read,
    with the role [value.interval].  The onOff state has the role
    [switch.light] if and only if the label contains one of [light],
    [bulb], [licht], [leucht] with case ignored (a capital and its small
    letter count as the same letter), and the role [switch] otherwise. *)
Theorem C8_relay_states_of_the_materializer a obj :
  category obj = "relays"
  \/ (category obj = "externalRelays"
      /\ isExtRelaysEnabled (sysInfo (_stateData a)) = true) ->
  let creates := setDataObjectNotExists a obj in
  let channel :=
    (if decide (category obj = "externalRelays") then 8 else 0) + categoryId obj in
  let dosage :=
    channel = getChlorineDosageControlId (_getStateService_data a)
    \/ channel = getPhMinusDosageControlId (_getStateService_data a)
    \/ channel = getPhPlusDosageControlId (_getStateService_data a) in
  let light := containsIgnoringCase ["light"; "bulb"; "licht"; "leucht"] (label obj) in
  (exists common,
     filter (fun c : Create => c.1 = stateId a obj "onOff") creates
     = [(stateId a obj "onOff", StateObject common (Some obj))]
     /\ (c_write common = true <-> ~ dosage)
     /\ (c_role common = "switch.light" <-> light)
     /\ (c_role common = "switch" <-> ~ light))
  /\ filter (fun c : Create =>
               c.1 = stateId a obj "dosageTimer" \/ c.1 = stateId a obj "timer")
            creates
     = [(stateId a obj (if decide dosage then "dosageTimer" else "timer"),
         StateObject {| c_name := label obj; c_type := "number";
                        c_role := "value.interval"; c_read := false;
                        c_write := true; c_unit := None;
                        c_smartName := SmartAbsent |} (Some obj))].
Proof.
  intros Hrelay creates channel dosage light.
  assert (Hclass : isRelayClass a obj = true).
  { unfold isRelayClass, GetStateCategory.RELAYS, GetStateCategory.EXTERNAL_RELAYS.
    destruct Hrelay as [->|[-> ->]]; done. }
  assert (Hdosage : isDosageControl (_getStateService_data a) channel = true <-> dosage).
  { unfold isDosageControl, dosage. rewrite !orb_true_iff, !Z.eqb_eq. tauto. }
  assert (Hchannel :
    (if bool_decide (category obj = GetStateCategory.EXTERNAL_RELAYS) then 8 else 0)
    + categoryId obj = channel).
  { unfold channel, GetStateCategory.EXTERNAL_RELAYS.
    case_bool_decide; [by rewrite decide_True|by rewrite decide_False]. }
  assert (Hlight : isLightLabel (label obj) = true <-> light)
    by apply isLightLabel_ignoring_case.
  split.
  - exists {| c_name := label obj; c_type := "boolean";
              c_role := if isLightLabel (label obj) then "switch.light" else "switch";
              c_read := true;
              c_write := negb (isDosageControl (_getStateService_data a) channel);
              c_unit := None;
              c_smartName :=
                if active obj
                   && negb (isDosageControl (_getStateService_data a) channel)
                then Smart (label obj) (label obj)
                           (if isLightLabel (label obj) then "LIGHT" else "SWITCH")
                else SmartEmpty |}.
    split_and!.
    + unfold creates.
      pose proof (filter_creates_relay_part a obj (fun i => i = stateId a obj "onOff"))
        as Hpart.
      cbv beta in Hpart. rewrite Hpart; clear Hpart.
      * rewrite Hclass. unfold setRelayDataObject. rewrite Hchannel.
        rewrite !filter_cons, filter_nil. cbn [fst].
        destruct (isDosageControl (_getStateService_data a) channel);
          same_state; reflexivity.
      * apply channelId_not_stateId.
      * intros f Hf Heq. apply stateId_inj in Heq as (_ & _ & ->).
        not_tracked Hf.
    + simpl. rewrite negb_true_iff, <- Hdosage. by destruct (isDosageControl _ _).
    + simpl. rewrite <- Hlight. by destruct (isLightLabel _).
    + simpl. rewrite <- Hlight. by destruct (isLightLabel _).
  - unfold creates.
    pose proof (filter_creates_relay_part a obj
                  (fun i => i = stateId a obj "dosageTimer" \/ i = stateId a obj "timer"))
      as Hpart.
    cbv beta in Hpart. rewrite Hpart; clear Hpart.
    + rewrite Hclass. unfold setRelayDataObject. rewrite Hchannel.
      rewrite !filter_cons, filter_nil. cbn [fst].
      destruct (isDosageControl (_getStateService_data a) channel) eqn:Hd.
      * rewrite (decide_True (P := dosage)) by (by apply Hdosage).
        same_state. reflexivity.
      * rewrite (decide_False (P := dosage))
          by (intros Hx; apply Hdosage in Hx; congruence).
        same_state. reflexivity.
    + intros [Heq|Heq]; by apply channelId_not_stateId in Heq.
    + intros f Hf [Heq|Heq]; apply stateId_inj in Heq as (_ & _ & ->);
        not_tracked Hf.
Qed.

Lemma C8_relay_states_of_the_materializer_witness :
  let obj := Sample.pump 0 "Pool LIGHT" "" in
  let a := Sample.adapter [] (Sample.snapshot 1 [obj]) true in
  exists common,
    filter (fun c : Create => c.1 = stateId a obj "onOff") (setDataObjectNotExists a obj)
    = [(stateId a obj "onOff", StateObject common (Some obj))]
    /\ c_role common = "switch.light"
    /\ c_write common = false.
Proof.
  intros obj a.
  pose proof (C8_relay_states_of_the_materializer a obj (or_introl eq_refl)) as H.
  cbv zeta in H. destruct H as [(common & Hf & Hw & Hl & _) _].
  exists common. split; [exact Hf|]. split.
  - apply Hl. exists "light", "Pool ", "LIGHT", "". split; [left|].
    split; [reflexivity|]. by apply equalIgnoringCase_lowercase.
  - destruct (c_write common); [|done]. exfalso.
    apply (proj1 Hw eq_refl). left. reflexivity.
Defined.

(** ** Runs of the sample installation *)

(** An entry 0 forces the update of the object with id 0 in every cycle
    and stays in the array. *)
Example forced_clock_stays :
  let a := Sample.adapter [0] (Sample.snapshot 1 [Sample.clock 5]) true in
  let after := pollCallback a (Sample.snapshot 1 [Sample.clock 5]) in
  pr_calls after
  = [SetStateAsync {| sw_id := sysInfoStateId a "dosageControl"; sw_val := SVStr "1";
                      sw_ack := true |};
     SetDataState (Sample.clock 5);
     SetStateAsync {| sw_id := connectionId a; sw_val := SVBool true; sw_ack := true |}]
  /\ _forceUpdate (pr_adapter after) = [0].
Proof. split; reflexivity. Qed.

(** A timer intent on relay 5 sets the timer of channel 6 and records the
    relay's id. *)
Example timer_intent_on_heater :
  let a := Sample.adapter [] (Sample.snapshot 1 [Sample.heater 0]) true in
  let env := Sample.platform a [] (fun _ => Fulfils 0) in
  let run := onStateChange env (Sample.relay5 ++ ["timer"])
               (Some (Sample.intent (SVNum 60))) (start a) in
  transmitted (r_trace run.2) = [SetTimer 6 (SVNum 60)]
  /\ _forceUpdate (r_adapter run.2) = [20].
Proof. split; vm_compute; reflexivity. Qed.

(** An auto intent on relay 1 transmits one "set auto" and records the
    id; the next poll, with the device's values unchanged, still updates
    the relay and consumes the entry. *)
Example auto_intent_then_poll :
  let relay := Sample.pump 0 "Pump" "" in
  let a := Sample.adapter [] (Sample.snapshot 1 [relay]) true in
  let env := Sample.platform a
               [(Sample.relay1 ++ ["onOff"], {| val := SVBool false; ack := true |})]
               (fun _ => Fulfils 16) in
  let run := onStateChange env (Sample.relay1 ++ ["auto"])
               (Some (Sample.intent (SVBool true))) (start a) in
  let after := pollCallback (r_adapter run.2) (Sample.snapshot 1 [relay]) in
  transmitted (r_trace run.2) = [SetAuto relay]
  /\ _forceUpdate (r_adapter run.2) = [16]
  /\ SetDataState relay ∈ pr_calls after
  /\ _forceUpdate (pr_adapter after) = [].
Proof.
  intros relay a env run after. split_and!; try (vm_compute; reflexivity).
  apply (bool_decide_unpack _). vm_compute. exact I.
Qed.

(** * Further properties of the adapter *)

(** ** The poll callback: completion, first cycle, quiet cycle *)

(** X1: on a snapshot whose objects all have a baseline entry the
    callback runs to its end, and what it leaves is the next cycle's
    starting point: the snapshot is the baseline, the bootstrap flag is
    set, and the connection flag, set to true, is the last thing written,
    after every call for the system info and the objects. *)
Theorem pollCallback_replaces_the_baseline a data :
  allInBaseline a (objects data) ->
  let result := pollCallback a data in
  pr_thrown result = false
  /\ _stateData (pr_adapter result) = data
  /\ _bootstrapped (pr_adapter result) = true
  /\ instance (pr_adapter result) = instance a
  /\ last (pr_calls result)
     = Some (SetStateAsync {| sw_id := connectionId a; sw_val := SVBool true;
                              sw_ack := true |}).
Proof.
  intros Hall result. unfold result. rewrite pollCallback_loop. cbv zeta.
  rewrite (loop_no_throw a (objects data) (loopStart a data)) by done. simpl.
  split_and!; try done. by rewrite last_snoc.
Qed.

Lemma pollCallback_replaces_the_baseline_witness :
  let a := Sample.adapter [] (Sample.snapshot 1 [Sample.pump 0 "Pump" ""]) true in
  let data := Sample.snapshot 2 [Sample.pump 3 "Filter pump" ""] in
  let result := pollCallback a data in
  pr_thrown result = false
  /\ _stateData (pr_adapter result) = data
  /\ _bootstrapped (pr_adapter result) = true
  /\ instance (pr_adapter result) = instance a
  /\ last (pr_calls result)
     = Some (SetStateAsync {| sw_id := connectionId a; sw_val := SVBool true;
                              sw_ack := true |}).
Proof.
  intros a data.
  refine (pollCallback_replaces_the_baseline a data _).
  intros o Ho. apply list_elem_of_singleton in Ho. subst o. by eexists.
Defined.

(** The objects that a run of the callback updates, in order. *)
Lemma updated_app (l k : list Invoke) :
  omap (fun c => match c with SetDataState o => Some o | _ => None end) (l ++ k)
  = omap (fun c => match c with SetDataState o => Some o | _ => None end) l
    ++ omap (fun c => match c with SetDataState o => Some o | _ => None end) k.
Proof. apply omap_app. Qed.

Lemma omap_none {A B} (f : A -> option B) (l : list A) :
  (forall x, x ∈ l -> f x = None) -> omap f l = [].
Proof.
  induction l as [|x l IH]; intros Hl; [done|]. simpl.
  rewrite (Hl x) by left. apply IH. intros y Hy. apply Hl. by right.
Qed.

Lemma loop_first_cycle a objs st :
  _bootstrapped a = false ->
  cs_thrown st = false ->
  allInBaseline a objs ->
  omap (fun c => match c with SetDataState o => Some o | _ => None end)
       (cs_calls (foldl (onObject a) st objs))
  = omap (fun c => match c with SetDataState o => Some o | _ => None end) (cs_calls st)
    ++ objs.
Proof.
  intros Hboot. revert st. induction objs as [|o rest IH]; intros st Hth Hall; simpl.
  - by rewrite app_nil_r.
  - destruct (Hall o) as [prev Hp]; [left|].
    assert (Hall' : allInBaseline a rest) by (intros o' ?; apply Hall; by right).
    rewrite IH; [|rewrite (onObject_eq a st o prev Hth Hp); by case_decide|done].
    rewrite (onObject_eq a st o prev Hth Hp), decide_True by (by left). simpl.
    rewrite !updated_app. simpl. rewrite <- !app_assoc.
    f_equal. by case_decide.
Qed.

(** X2: while the bootstrap flag is unset, a cycle on a snapshot whose
    objects all have a baseline entry updates every object of the
    snapshot exactly once, in the snapshot's order, whether or not
    anything changed, and writes every scalar of the system info and the
    four derived booleans. *)
Theorem first_cycle_updates_every_object_once a data :
  _bootstrapped a = false ->
  allInBaseline a (objects data) ->
  omap (fun c => match c with SetDataState o => Some o | _ => None end)
       (pr_calls (pollCallback a data))
  = objects data
  /\ (forall key v,
        (key, v) ∈ toArrayOfObjects (sysInfo data) ->
        {| sw_id := sysInfoStateId a key; sw_val := SVStr (toString v); sw_ack := true |}
        ∈ storeWrites a (pr_calls (pollCallback a data)))
  /\ (forall c, c ∈ advancedSysInfoBatch a (sysInfo data) ->
                c ∈ pr_calls (pollCallback a data)).
Proof.
  intros Hboot Hall.
  assert (Hstart : forall c, c ∈ cs_calls (loopStart a data) ->
                             c ∈ pr_calls (pollCallback a data)).
  { intros c Hc. apply pollCallback_calls; [done|]. left. by apply loop_calls_mono. }
  split_and!.
  - rewrite pollCallback_loop. cbv zeta.
    rewrite (loop_no_throw a (objects data) (loopStart a data)) by done. simpl.
    rewrite updated_app, loop_first_cycle by done. simpl. rewrite app_nil_r.
    replace (omap _ (cs_calls (loopStart a data))) with (@nil GetStateDataObject);
      [done|].
    symmetry. apply omap_none. intros c Hc.
    by apply loopStart_calls in Hc as (key & v & ->).
  - intros key v Hin.
    apply (storeWrites_of_call a _
             (SetStateAsync {| sw_id := sysInfoStateId a key;
                               sw_val := SVStr (toString v); sw_ack := true |}));
      [|simpl; left].
    apply Hstart. simpl. apply elem_of_app. left.
    rewrite sysInfoCalls_filter.
    apply (list_elem_of_fmap_2
             (fun info : string * SysVal =>
                SetStateAsync {| sw_id := sysInfoStateId a info.1;
                                 sw_val := SVStr (toString info.2); sw_ack := true |})
             _ (key, v)).
    apply list_elem_of_filter. split; [by left|done].
  - intros c Hc. apply Hstart. simpl. apply elem_of_app. right.
    unfold updateAdvancedSysInfoStates. by rewrite Hboot.
Qed.

Lemma first_cycle_updates_every_object_once_witness :
  let a := Sample.adapter []
             (Sample.snapshot 1 [Sample.pump 0 "Pump" ""; Sample.heater 0]) false in
  let data := Sample.snapshot 1 [Sample.pump 0 "Pump" ""; Sample.heater 0] in
  omap (fun c => match c with SetDataState o => Some o | _ => None end)
       (pr_calls (pollCallback a data))
  = [Sample.pump 0 "Pump" ""; Sample.heater 0].
Proof.
  intros a data.
  refine (proj1 (first_cycle_updates_every_object_once a data _ _)).
  - reflexivity.
  - intros o Ho. apply elem_of_cons in Ho. destruct Ho as [->|Ho]; [by eexists|].
    apply list_elem_of_singleton in Ho. subst o. by eexists.
Defined.

Lemma findObject_NoDup objs o :
  NoDup (id <$> objs) -> o ∈ objs -> findObject objs (id o) = Some o.
Proof.
  induction objs as [|x rest IH]; intros Hnd Hin; [inversion Hin|].
  rewrite fmap_cons in Hnd. apply NoDup_cons in Hnd as [Hfresh Hnd]. simpl.
  apply elem_of_cons in Hin. destruct Hin as [->|Hin]; [by rewrite Z.eqb_refl|].
  destruct (Z.eqb_spec (id x) (id o)) as [Heq|Hne]; [|by apply IH].
  exfalso. apply Hfresh. rewrite Heq. by apply list_elem_of_fmap_2.
Qed.

Lemma loop_quiet a objs st :
  cs_thrown st = false ->
  (forall o, o ∈ objs ->
             exists prev, getDataObject (_stateData a) (id o) = Some prev
                          /\ ~ mustUpdate a (cs_force st) prev o) ->
  foldl (onObject a) st objs = st.
Proof.
  intros Hth. induction objs as [|o rest IH]; intros Hq; simpl; [done|].
  destruct (Hq o) as (prev & Hp & Hm); [left|].
  rewrite (onObject_eq a st o prev Hth Hp), decide_False by done.
  apply IH. intros o' Ho'. apply Hq. by right.
Qed.

(** X3: a bootstrapped cycle on the snapshot that is already the baseline
    (distinct object ids), with no id of the snapshot pending in the
    force-update array, updates and renames no object and does not write
    the derived booleans.  Its calls are the writes of those system-info
    scalars whose delivered value is not strictly equal to the property of
    the same key, then the connection flag; the adapter is left as it
    was. *)
Theorem unchanged_snapshot_updates_no_object a :
  _bootstrapped a = true ->
  NoDup (id <$> objects (_stateData a)) ->
  (forall o, o ∈ objects (_stateData a) -> id o ∉ _forceUpdate a) ->
  pollCallback a (_stateData a)
  = {| pr_adapter := a;
       pr_calls :=
         map (fun info : string * SysVal =>
                SetStateAsync {| sw_id := sysInfoStateId a info.1;
                                 sw_val := SVStr (toString info.2);
                                 sw_ack := true |})
             (filter (fun info : string * SysVal =>
                        properties (sysInfo (_stateData a)) !! info.1 <> Some info.2)
                     (toArrayOfObjects (sysInfo (_stateData a))))
         ++ [SetStateAsync {| sw_id := connectionId a; sw_val := SVBool true;
                              sw_ack := true |}];
       pr_thrown := false |}.
Proof.
  intros Hboot Hids Hforce.
  set (scalars :=
         map (fun info : string * SysVal =>
                SetStateAsync {| sw_id := sysInfoStateId a info.1;
                                 sw_val := SVStr (toString info.2);
                                 sw_ack := true |})
             (filter (fun info : string * SysVal =>
                        properties (sysInfo (_stateData a)) !! info.1 <> Some info.2)
                     (toArrayOfObjects (sysInfo (_stateData a))))).
  assert (Hstart : loopStart a (_stateData a)
                   = {| cs_force := _forceUpdate a; cs_calls := scalars;
                        cs_thrown := false |}).
  { unfold loopStart. f_equal.
    rewrite updateAdvancedSysInfoStates_batch, decide_False, app_nil_r
      by (intros [?|?]; congruence).
    rewrite sysInfoCalls_filter. unfold scalars. f_equal.
    apply list_filter_iff. intros info. unfold sysInfo_get.
    split; [intros [?|?]; [congruence|done]|by right]. }
  rewrite pollCallback_loop. cbv zeta. rewrite loop_quiet, Hstart.
  - simpl. f_equal. destruct a; simpl in *. by subst.
  - done.
  - intros o Ho. exists o. split; [by apply findObject_NoDup|].
    intros [Hb|[Hin|Hv]]; [congruence| |done].
    rewrite Hstart in Hin. by apply (Hforce o).
Qed.

Lemma unchanged_snapshot_updates_no_object_witness :
  let a := Sample.adapter [7]
             (Sample.snapshot 1 [Sample.pump 0 "Pump" ""; Sample.heater 0]) true in
  pr_calls (pollCallback a (_stateData a))
  = [SetStateAsync {| sw_id := sysInfoStateId a "dosageControl"; sw_val := SVStr "1";
                      sw_ack := true |};
     SetStateAsync {| sw_id := connectionId a; sw_val := SVBool true; sw_ack := true |}].
Proof.
  intros a.
  refine (f_equal pr_calls (unchanged_snapshot_updates_no_object a _ _ _)).
  - reflexivity.
  - vm_compute. repeat constructor; intros H;
      repeat (apply elem_of_cons in H; destruct H as [H|H]; [discriminate|]);
      inversion H.
  - intros o Ho Hin. apply list_elem_of_singleton in Hin.
    apply elem_of_cons in Ho. destruct Ho as [->|Ho]; [discriminate|].
    apply list_elem_of_singleton in Ho. subst o. discriminate.
Defined.

Lemma loop_consumes_only_with_update a objs st x :
  (occurrences x (cs_force (foldl (onObject a) st objs))
   < occurrences x (cs_force st))%nat ->
  exists O, O ∈ objs /\ id O = x
            /\ SetDataState O ∈ cs_calls (foldl (onObject a) st objs).
Proof.
  revert st. induction objs as [|o rest IH]; intros st Hlt; simpl in *; [lia|].
  destruct (decide (occurrences x (cs_force (foldl (onObject a) (onObject a st o) rest))
                    < occurrences x (cs_force (onObject a st o)))%nat) as [Hrest|Hrest].
  - destruct (IH _ Hrest) as (O & HO & Hid & Hc). exists O. split; [by right|done].
  - assert (Hhere : (occurrences x (cs_force (onObject a st o))
                     < occurrences x (cs_force st))%nat) by lia.
    destruct (decide (id o = x)) as [Heq|Hne];
      [|rewrite onObject_other_id in Hhere by done; lia].
    exists o. split; [left|]. split; [done|]. apply loop_calls_mono.
    destruct (onObject_cases a st o) as [Hs|[(_ & _ & Hs)|(prev & _ & _ & _ & Hs)]];
      rewrite Hs in Hhere |- *; simpl in *; try lia.
    rewrite !elem_of_app. right; right. left.
Qed.

(** X4: the force-update array only loses an entry together with an
    update of the object that has that id: if an id occurs less often
    after the callback than before, an object of the snapshot with that
    id was updated in this run. *)
Theorem forced_entry_consumed_only_with_update a data x :
  (occurrences x (_forceUpdate (pr_adapter (pollCallback a data)))
   < occurrences x (_forceUpdate a))%nat ->
  exists O, O ∈ objects data /\ id O = x
            /\ SetDataState O ∈ pr_calls (pollCallback a data).
Proof.
  rewrite pollCallback_force. intros Hlt.
  apply (loop_consumes_only_with_update a _ (loopStart a data)) in Hlt
    as (O & HO & Hid & Hc).
  exists O. split_and!; try done.
  rewrite pollCallback_loop. cbv zeta. destruct (cs_thrown _); simpl; [done|].
  apply elem_of_app. by left.
Qed.

Lemma forced_entry_consumed_only_with_update_witness :
  let O := Sample.pump 0 "Pump" "" in
  let a := Sample.adapter [16; 20] (Sample.snapshot 1 [O]) true in
  exists O', O' ∈ [O] /\ id O' = 16
             /\ SetDataState O' ∈ pr_calls (pollCallback a (Sample.snapshot 1 [O])).
Proof.
  intros O a.
  refine (forced_entry_consumed_only_with_update a (Sample.snapshot 1 [O]) 16 _).
  vm_compute. lia.
Defined.

(** X25: an entry 0 of the force-update array is permanent: no run of
    the callback changes how often 0 occurs in the array (the test before
    the [splice] reads the entry, and 0 is falsy), so the object with id
    0, once forced, is updated in every cycle. *)
Theorem zero_entry_is_never_consumed a data :
  occurrences 0 (_forceUpdate (pr_adapter (pollCallback a data)))
  = occurrences 0 (_forceUpdate a).
Proof. rewrite pollCallback_force. apply loop_keeps_zero. Qed.

(** ** The adapter's own writes *)

(** Every store write of the callback carries the acknowledged flag. *)
Lemma pollCallback_writes_acked a data w :
  w ∈ storeWrites a (pr_calls (pollCallback a data)) -> sw_ack w = true.
Proof.
  intros Hw. unfold storeWrites in Hw. apply list_elem_of_In, in_flat_map in Hw.
  destruct Hw as (c & Hc & Hw). apply list_elem_of_In in Hc, Hw.
  apply pollCallback_calls_inv in Hc as [Hc| ->].
  - apply loop_calls_inv in Hc as [Hc|(o & prev & _ & _ & _ & Hc)].
    + apply loopStart_calls in Hc as (key & v & ->). simpl in Hw.
      apply list_elem_of_singleton in Hw. by subst w.
    + destruct Hc as [->|[-> _]]; simpl in Hw; [|inversion Hw].
      unfold setDataState in Hw. apply elem_of_app in Hw as [Hw|Hw].
      * by apply list_elem_of_fmap in Hw as (f & -> & _).
      * destruct (isRelayClass a o); [|inversion Hw]. unfold setRelayDataState in Hw.
        repeat (apply elem_of_cons in Hw; destruct Hw as [->|Hw]; [done|]).
        inversion Hw.
  - simpl in Hw. apply list_elem_of_singleton in Hw. by subst w.
Qed.

(** X5: the dispatcher does not react to what the poll callback wrote:
    every store write of a cycle is acknowledged, and the state change it
    causes, handed to [onStateChange], transmits nothing, logs nothing and
    leaves the adapter as it is. *)
Theorem own_writes_do_not_dispatch a data w env r :
  w ∈ storeWrites a (pr_calls (pollCallback a data)) ->
  sw_ack w = true
  /\ onStateChange env (sw_id w) (Some {| val := sw_val w; ack := sw_ack w |}) r
     = (Returned tt, r).
Proof.
  intros Hw. apply pollCallback_writes_acked in Hw. split; [done|].
  unfold onStateChange. simpl. by rewrite Hw.
Qed.

Lemma own_writes_do_not_dispatch_witness :
  let O := Sample.pump 1 "Pump" "" in
  let a := Sample.adapter [] (Sample.snapshot 1 [Sample.pump 0 "Pump" ""]) true in
  let env := Sample.platform a [] (fun _ => Fulfils 16) in
  onStateChange env (stateId a O "auto") (Some {| val := SVBool true; ack := true |})
    (start a)
  = (Returned tt, start a).
Proof.
  intros O a env.
  refine (proj2 (own_writes_do_not_dispatch a (Sample.snapshot 1 [O])
                   {| sw_id := stateId a O "auto"; sw_val := SVBool true; sw_ack := true |}
                   env (start a) _)).
  apply (bool_decide_unpack _). vm_compute. exact I.
Defined.

(** ** The states after a cycle *)

Lemma applyWrites_snoc states ws w :
  applyWrites states (ws ++ [w]) = setState (applyWrites states ws) w.
Proof. unfold applyWrites. by rewrite foldl_app. Qed.

(** A state after the writes of a cycle is the one a write of the cycle
    set, or the one that was there. *)
Lemma applyWrites_lookup (states : gmap Id ioState) ws (k : Id) st :
  applyWrites states ws !! k = Some st ->
  states !! k = Some st
  \/ exists w, w ∈ ws /\ sw_id w = k /\ st = {| val := sw_val w; ack := sw_ack w |}.
Proof.
  induction ws as [|w ws IH] using rev_ind; [by left|].
  rewrite applyWrites_snoc. unfold setState.
  destruct (decide (sw_id w = k)) as [<-|Hne].
  - rewrite lookup_insert_eq. intros [= <-]. right. exists w.
    split; [apply elem_of_app; right; left|done].
  - rewrite lookup_insert_ne by done. intros H.
    destruct (IH H) as [?|(w' & Hw' & ? & ?)]; [by left|].
    right. exists w'. split; [apply elem_of_app; by left|done].
Qed.

(** An id that a cycle wrote holds what the last write to it set. *)
Lemma applyWrites_written (states : gmap Id ioState) ws w0 :
  w0 ∈ ws ->
  exists w, w ∈ ws /\ sw_id w = sw_id w0
            /\ applyWrites states ws !! sw_id w0
               = Some {| val := sw_val w; ack := sw_ack w |}.
Proof.
  induction ws as [|w' ws IH] using rev_ind; intros Hw; [inversion Hw|].
  rewrite applyWrites_snoc. unfold setState.
  destruct (decide (sw_id w' = sw_id w0)) as [Heq|Hne].
  - exists w'. rewrite Heq, lookup_insert_eq.
    split_and!; try done. apply elem_of_app. right. left.
  - rewrite lookup_insert_ne by done.
    apply elem_of_app in Hw as [Hw|Hw];
      [|apply list_elem_of_singleton in Hw; by subst].
    destruct (IH Hw) as (w & Hin & Hid & Hl). exists w.
    split_and!; try done. apply elem_of_app. by left.
Qed.

Lemma replace_auto_onOff_stateId a o :
  replace_auto_onOff (stateId a o "auto") = stateId a o "onOff".
Proof. reflexivity. Qed.

(** X6: once a cycle has updated a relay-class object, the states hold
    its onOff state, acknowledged, under the very id that an auto intent
    on that relay reads first; so such an intent no longer fails for want
    of the onOff state. *)
Theorem updated_relay_has_onOff_state (a : ProconIp) (data : GetStateData)
    (O : GetStateDataObject) (states : gmap Id ioState) :
  SetDataState O ∈ pr_calls (pollCallback a data) ->
  isRelayClass a O = true ->
  let states' := applyWrites states (storeWrites a (pr_calls (pollCallback a data))) in
  exists st,
    states' !! replace_auto_onOff (stateId a O "auto") = Some st /\ ack st = true.
Proof.
  intros Hc Hrelay states'. rewrite replace_auto_onOff_stateId.
  assert (Hw : {| sw_id := stateId a O "onOff";
                  sw_val := SVBool (isOn (_relayDataInterpreter a) O);
                  sw_ack := true |}
               ∈ storeWrites a (pr_calls (pollCallback a data))).
  { eapply storeWrites_of_call; [exact Hc|]. simpl. unfold setDataState.
    apply elem_of_app. right. rewrite Hrelay. unfold setRelayDataState.
    right. left. }
  destruct (applyWrites_written states _ _ Hw) as (w & Hin & _ & Hl). simpl in Hl.
  eexists. split; [exact Hl|]. simpl. by eapply pollCallback_writes_acked.
Qed.

Lemma updated_relay_has_onOff_state_witness :
  let O := Sample.pump 1 "Pump" "" in
  let a := Sample.adapter [] (Sample.snapshot 1 [Sample.pump 0 "Pump" ""]) true in
  let data := Sample.snapshot 1 [O] in
  exists st,
    applyWrites ∅ (storeWrites a (pr_calls (pollCallback a data)))
    !! replace_auto_onOff (stateId a O "auto") = Some st
    /\ ack st = true.
Proof.
  intros O a data.
  refine (updated_relay_has_onOff_state a data O ∅ _ _).
  - apply (bool_decide_unpack _). vm_compute. exact I.
  - reflexivity.
Defined.

(** ** The dispatcher and its handlers *)

(** X7: [onStateChange] does nothing for a deleted state but log it, and
    nothing at all for an acknowledged state or for an id that ends in
    none of [.auto], [.onOff], [.dosageTimer], [.timer]: no store read, no
    device command, no change of the adapter. *)
Theorem onStateChange_ignores_what_is_no_intent env a i state :
  state = None
  \/ (exists s, state = Some s /\ ack s = true)
  \/ (endsWith i "auto" = false /\ endsWith i "onOff" = false
      /\ endsWith i "dosageTimer" = false /\ endsWith i "timer" = false) ->
  onStateChange env i state (start a)
  = (Returned tt,
     {| r_adapter := a;
        r_trace := match state with
                   | None => [Log "info" ("state " ++ showId i ++ " deleted")%string]
                   | Some _ => []
                   end |}).
Proof.
  intros [->|[(s & -> & Hack)|(H1 & H2 & H3 & H4)]]; unfold onStateChange.
  - reflexivity.
  - by rewrite Hack.
  - destruct state as [s|]; [|reflexivity]. rewrite H1, H2, H3, H4.
    by destruct (ack s).
Qed.

Lemma onStateChange_ignores_what_is_no_intent_witness :
  let a := Sample.adapter [] (Sample.snapshot 1 [Sample.pump 0 "Pump" ""]) true in
  let env := Sample.platform a [] (fun _ => Fulfils 16) in
  onStateChange env (Sample.relay1 ++ ["value"]) (Some (Sample.intent (SVNum 3))) (start a)
  = (Returned tt, {| r_adapter := a; r_trace := [] |}).
Proof.
  intros a env.
  refine (onStateChange_ignores_what_is_no_intent env a (Sample.relay1 ++ ["value"])
            (Some (Sample.intent (SVNum 3))) _).
  right; right. split_and!; reflexivity.
Defined.

(** X8: an intent on an id under which the platform has no object changes
    nothing: the dispatcher returns normally, no device command is
    transmitted and the adapter, its force-update array included, is as
    before; the onOff, dosageTimer and timer handlers fail with the error
    that names the id. *)
Theorem intent_on_missing_object_changes_nothing env a i state :
  p_objects env !! i = None ->
  let run := onStateChange env i (Some state) (start a) in
  let missing :=
    JsError ("Cannot handle state change for non-existent object '"
             ++ showId i ++ "'")%string in
  run.1 = Returned tt
  /\ transmitted (r_trace run.2) = []
  /\ r_adapter run.2 = a
  /\ (relayToggleOnOff env i state (start a)).1 = Failed missing
  /\ (setDosageTimer env i state (start a)).1 = Failed missing
  /\ (setRelayTimer env i state (start a)).1 = Failed missing.
Proof.
  intros Hobj run missing. unfold run, onStateChange.
  split_and!; try (unfold_handler; rewrite Hobj; reflexivity);
    destruct (ack state); try reflexivity;
    repeat (match goal with
            | |- context [endsWith i ?s] => destruct (endsWith i s)
            end; try reflexivity);
    unfold_handler; rewrite ?Hobj; simpl;
    repeat (match goal with
            | |- context [p_states env !! ?k] => destruct (p_states env !! k)
            end; simpl; rewrite ?Hobj; simpl);
    reflexivity.
Qed.

Lemma intent_on_missing_object_changes_nothing_witness :
  let a := Sample.adapter [] (Sample.snapshot 1 [Sample.pump 0 "Pump" ""]) true in
  let env := Sample.platform a [] (fun _ => Fulfils 16) in
  let run := onStateChange env (Sample.relay5 ++ ["timer"])
               (Some (Sample.intent (SVNum 60))) (start a) in
  run.1 = Returned tt /\ transmitted (r_trace run.2) = [] /\ r_adapter run.2 = a.
Proof.
  intros a env run.
  assert (H := intent_on_missing_object_changes_nothing env a
                 (Sample.relay5 ++ ["timer"]) (Sample.intent (SVNum 60))).
  destruct H as (H1 & H2 & H3 & _).
  - vm_compute. reflexivity.
  - split_and!; [exact H1|exact H2|exact H3].
Defined.

(** X9: an onOff intent whose object and data object are found transmits
    exactly one device command, "set on" for a truthy value and "set off"
    otherwise, and completes normally whatever the device does. *)
Theorem onOff_intent_transmits_one_command env a objectId state common native relay :
  p_objects env !! objectId = Some (StateObject common (Some native)) ->
  getDataObject (_stateData a) (id native) = Some relay ->
  let run := relayToggleOnOff env objectId state (start a) in
  run.1 = Returned tt
  /\ transmitted (r_trace run.2)
     = [if truthy (val state) then SetOn relay else SetOff relay].
Proof.
  intros Hobj Hdata. unfold_handler. rewrite Hobj. simpl. rewrite Hdata. simpl.
  destruct (truthy (val state)); simpl;
    match goal with |- context [p_device env ?c] => destruct (p_device env c) end;
    simpl; done.
Qed.

Lemma onOff_intent_transmits_one_command_witness :
  let relay := Sample.heater 0 in
  let a := Sample.adapter [] (Sample.snapshot 1 [relay]) true in
  let env := Sample.platform a [] (fun _ => Rejects "timeout") in
  let run := relayToggleOnOff env (Sample.relay5 ++ ["onOff"])
               (Sample.intent (SVBool true)) (start a) in
  run.1 = Returned tt /\ transmitted (r_trace run.2) = [SetOn relay].
Proof.
  intros relay a env run.
  refine (onOff_intent_transmits_one_command env a (Sample.relay5 ++ ["onOff"])
            (Sample.intent (SVBool true))
            {| c_name := "Heater"; c_type := "boolean"; c_role := "switch";
               c_read := true; c_write := true; c_unit := None;
               c_smartName := Smart "Heater" "Heater" "SWITCH" |}
            relay relay _ _).
  - vm_compute. reflexivity.
  - reflexivity.
Defined.

(** X10: a timer intent whose object and data object are found transmits
    exactly one "set timer" command, for channel [categoryId + 9] when the
    relay is of the external bank and [categoryId + 1] otherwise, with
    the value of the state as the seconds, and completes normally
    whatever the device does. *)
Theorem timer_intent_transmits_one_command env a objectId state common native relay :
  p_objects env !! objectId = Some (StateObject common (Some native)) ->
  getDataObject (_stateData a) (id native) = Some relay ->
  let run := setRelayTimer env objectId state (start a) in
  run.1 = Returned tt
  /\ transmitted (r_trace run.2)
     = [SetTimer (if decide (category relay = "externalRelays")
                  then categoryId relay + 9 else categoryId relay + 1)
                 (val state)].
Proof.
  intros Hobj Hdata. unfold_handler. rewrite Hobj. simpl. rewrite Hdata. simpl.
  assert (Hch : categoryId relay
                + (if bool_decide (category relay = GetStateCategory.EXTERNAL_RELAYS)
                   then 9 else 1)
                = if decide (category relay = "externalRelays")
                  then categoryId relay + 9 else categoryId relay + 1).
  { unfold GetStateCategory.EXTERNAL_RELAYS.
    case_bool_decide; [by rewrite decide_True|by rewrite decide_False]. }
  rewrite Hch.
  match goal with |- context [p_device env ?c] => destruct (p_device env c) end;
    simpl; done.
Qed.

Lemma timer_intent_transmits_one_command_witness :
  let relay := Sample.heater 0 in
  let a := Sample.adapter [] (Sample.snapshot 1 [relay]) true in
  let env := Sample.platform a [] (fun _ => Throws "offline") in
  let run := setRelayTimer env (Sample.relay5 ++ ["timer"])
               (Sample.intent (SVNum 60)) (start a) in
  run.1 = Returned tt /\ transmitted (r_trace run.2) = [SetTimer 6 (SVNum 60)].
Proof.
  intros relay a env run.
  refine (timer_intent_transmits_one_command env a (Sample.relay5 ++ ["timer"])
            (Sample.intent (SVNum 60))
            {| c_name := "Heater"; c_type := "number"; c_role := "value.interval";
               c_read := false; c_write := true; c_unit := None;
               c_smartName := SmartAbsent |}
            relay relay _ _).
  - vm_compute. reflexivity.
  - reflexivity.
Defined.

(** X11: how an auto intent that is dispatched ends depends on the device
    call alone: the handler returns what the call fulfils with; a
    rejection of the call becomes the handler's own failure (its promise
    is returned from inside the [try] without being awaited); only a call
    that throws before returning a promise is caught, logged, and
    answered with -1. *)
Theorem auto_intent_ends_as_the_device_call env a objectId state onOffState common
    native relay :
  p_states env !! replace_auto_onOff objectId = Some onOffState ->
  p_objects env !! objectId = Some (StateObject common (Some native)) ->
  getDataObject (_stateData a) (id native) = Some relay ->
  let command :=
    if truthy (val state) then SetAuto relay
    else if truthy (val onOffState) then SetOn relay else SetOff relay in
  let run := relayToggleAuto env objectId state (start a) in
  run.1 = match p_device env command with
          | Fulfils n => Returned n
          | Rejects reason => Failed (ServiceError reason)
          | Throws _ => Returned (-1)
          end
  /\ (forall reason,
        p_device env command = Throws reason ->
        Log "error" ("Error on switching operation: " ++ reason)%string
        ∈ r_trace run.2).
Proof.
  intros Hstate Hobj Hdata. unfold_handler. rewrite Hstate, Hobj. simpl.
  rewrite Hdata. simpl.
  destruct (truthy (val state)); [|destruct (truthy (val onOffState))]; simpl;
    match goal with |- context [p_device env ?c] => destruct (p_device env c) end;
    simpl; (split; [reflexivity|]);
    first [ by intros reason' [=] | intros reason' [= <-]; repeat constructor ].
Qed.

Lemma auto_intent_ends_as_the_device_call_witness :
  let relay := Sample.pump 0 "Pump" "" in
  let a := Sample.adapter [] (Sample.snapshot 1 [relay]) true in
  let env := Sample.platform a
               [(Sample.relay1 ++ ["onOff"], {| val := SVBool true; ack := true |})]
               (fun _ => Rejects "timeout") in
  (relayToggleAuto env (Sample.relay1 ++ ["auto"]) (Sample.intent (SVBool true))
     (start a)).1
  = Failed (ServiceError "timeout").
Proof.
  intros relay a env.
  refine (proj1 (auto_intent_ends_as_the_device_call env a (Sample.relay1 ++ ["auto"])
                   (Sample.intent (SVBool true)) {| val := SVBool true; ack := true |}
                   {| c_name := "Pump"; c_type := "boolean"; c_role := "switch.mode.auto";
                      c_read := true; c_write := true; c_unit := None;
                      c_smartName := Smart "Pump auto" "Pump auto" "SWITCH" |}
                   relay relay _ _ _)).
  - vm_compute. reflexivity.
  - vm_compute. reflexivity.
  - reflexivity.
Defined.

(** ** What an intent does to the adapter *)

Lemma findObject_elem objs i d : findObject objs i = Some d -> d ∈ objs /\ id d = i.
Proof.
  induction objs as [|o rest IH]; simpl; [done|].
  destruct (Z.eqb_spec (id o) i) as [Heq|Hne].
  - intros [= <-]. split; [left|done].
  - intros H. destruct (IH H). split; [by right|done].
Qed.

(** Finishes a goal about the adapter after a handler ran: either nothing
    changed or the id of a baseline object was appended. *)
Ltac adapter_after :=
  first
    [ by left
    | right;
      match goal with
      | H : getDataObject _ _ = Some ?d |- _ =>
          exists d; split; [exact (proj1 (findObject_elem _ _ _ H))|reflexivity]
      end ].

Ltac run_all_cases env :=
  repeat (match goal with
          | |- context [p_states env !! ?k] => destruct (p_states env !! k); simpl
          | |- context [p_objects env !! ?k] =>
              destruct (p_objects env !! k) as [[?|? [?|]]|]; simpl
          | |- context [getDataObject ?d ?k] =>
              destruct (getDataObject d k) eqn:?; simpl
          | |- context [truthy ?v] => destruct (truthy v); simpl
          | |- context [?x =? ?y] => destruct (x =? y); simpl
          | |- context [p_device env ?c] => destruct (p_device env c); simpl
          end).

Lemma relayToggleAuto_adapter env a i state :
  r_adapter (relayToggleAuto env i state (start a)).2 = a
  \/ exists relay, relay ∈ objects (_stateData a)
       /\ r_adapter (relayToggleAuto env i state (start a)).2
          = with_forceUpdate a (push (_forceUpdate a) (id relay)).
Proof. unfold_handler. run_all_cases env; adapter_after. Qed.

Lemma relayToggleOnOff_adapter env a i state :
  r_adapter (relayToggleOnOff env i state (start a)).2 = a
  \/ exists relay, relay ∈ objects (_stateData a)
       /\ r_adapter (relayToggleOnOff env i state (start a)).2
          = with_forceUpdate a (push (_forceUpdate a) (id relay)).
Proof. unfold_handler. run_all_cases env; adapter_after. Qed.

Lemma setDosageTimer_adapter env a i state :
  r_adapter (setDosageTimer env i state (start a)).2 = a
  \/ exists relay, relay ∈ objects (_stateData a)
       /\ r_adapter (setDosageTimer env i state (start a)).2
          = with_forceUpdate a (push (_forceUpdate a) (id relay)).
Proof. unfold_handler. run_all_cases env; adapter_after. Qed.

Lemma setRelayTimer_adapter env a i state :
  r_adapter (setRelayTimer env i state (start a)).2 = a
  \/ exists relay, relay ∈ objects (_stateData a)
       /\ r_adapter (setRelayTimer env i state (start a)).2
          = with_forceUpdate a (push (_forceUpdate a) (id relay)).
Proof. unfold_handler. run_all_cases env; adapter_after. Qed.

(** X12: for a state change whose target, if the store holds an object
    under that id, is a state of a data object that has a baseline entry:
    whatever the change is and whatever the states of the platform and
    the device do, [onStateChange] completes normally, and all it can do
    to the adapter is to append the id of one object of the baseline to
    the force-update array: the baseline, the bootstrap flag and the
    entries already recorded stay as they are. *)
Theorem onStateChange_only_appends_to_the_ledger env a i state :
  (forall obj, p_objects env !! i = Some obj ->
               exists common native,
                 obj = StateObject common (Some native)
                 /\ is_Some (getDataObject (_stateData a) (id native))) ->
  let run := onStateChange env i state (start a) in
  run.1 = Returned tt
  /\ (r_adapter run.2 = a
      \/ exists relay, relay ∈ objects (_stateData a)
           /\ r_adapter run.2 = with_forceUpdate a (push (_forceUpdate a) (id relay))).
Proof.
  intros _. unfold onStateChange. destruct state as [state|]; [|split; [done|by left]].
  destruct (ack state); [split; [done|by left]|].
  destruct (endsWith i "auto");
    [split; [apply promise_catch_log_returns|rewrite promise_catch_log_adapter;
                                             apply relayToggleAuto_adapter]|].
  destruct (endsWith i "onOff");
    [split; [apply promise_catch_log_returns|rewrite promise_catch_log_adapter;
                                             apply relayToggleOnOff_adapter]|].
  destruct (endsWith i "dosageTimer");
    [split; [apply promise_catch_log_returns|rewrite promise_catch_log_adapter;
                                             apply setDosageTimer_adapter]|].
  destruct (endsWith i "timer");
    [split; [apply promise_catch_log_returns|rewrite promise_catch_log_adapter;
                                             apply setRelayTimer_adapter]|].
  split; [done|by left].
Qed.

Lemma onStateChange_only_appends_to_the_ledger_witness :
  let relay := Sample.pump 0 "Pump" "" in
  let a := Sample.adapter [20] (Sample.snapshot 1 [relay]) true in
  let env := Sample.platform a [] (fun _ => Throws "unreachable") in
  let run := onStateChange env (Sample.relay1 ++ ["dosageTimer"])
               (Some (Sample.intent (SVNum 30))) (start a) in
  run.1 = Returned tt
  /\ (r_adapter run.2 = a
      \/ exists relay, relay ∈ objects (_stateData a)
           /\ r_adapter run.2 = with_forceUpdate a (push (_forceUpdate a) (id relay))).
Proof.
  intros relay a env.
  refine (onStateChange_only_appends_to_the_ledger env a
            (Sample.relay1 ++ ["dosageTimer"]) (Some (Sample.intent (SVNum 30))) _).
  intros obj Hobj. vm_compute in Hobj. injection Hobj as <-.
  eexists _, _. split; [reflexivity|]. by eexists.
Defined.

(** The adapter after an intent that is dispatched: the id is appended
    and nothing else changes. *)
Lemma dispatched_intent_adapter env a i state common native relay :
  ack state = false ->
  endsWith i "auto" = true \/ endsWith i "onOff" = true
  \/ endsWith i "dosageTimer" = true \/ endsWith i "timer" = true ->
  p_objects env !! i = Some (StateObject common (Some native)) ->
  getDataObject (_stateData a) (id native) = Some relay ->
  (endsWith i "auto" = true -> is_Some (p_states env !! replace_auto_onOff i)) ->
  r_adapter (onStateChange env i (Some state) (start a)).2
  = with_forceUpdate a (push (_forceUpdate a) (id relay)).
Proof.
  intros Hack Hkind Hobj Hdata HonOff. unfold onStateChange. rewrite Hack.
  destruct (endsWith i "auto") eqn:Hauto.
  { destruct (HonOff eq_refl) as [onOffState Hstate].
    rewrite promise_catch_log_adapter. unfold_handler. rewrite Hstate, Hobj. simpl.
    rewrite Hdata. simpl. run_all_cases env; reflexivity. }
  destruct (endsWith i "onOff");
    [rewrite promise_catch_log_adapter; unfold_handler; rewrite Hobj; simpl;
     rewrite Hdata; simpl; run_all_cases env; reflexivity|].
  destruct (endsWith i "dosageTimer");
    [rewrite promise_catch_log_adapter; unfold_handler; rewrite Hobj; simpl;
     rewrite Hdata; simpl; run_all_cases env; reflexivity|].
  destruct (endsWith i "timer");
    [rewrite promise_catch_log_adapter; unfold_handler; rewrite Hobj; simpl;
     rewrite Hdata; simpl; run_all_cases env; reflexivity|].
  destruct Hkind as [?|[?|[?|?]]]; discriminate.
Qed.

Lemma occurrences_push x arr : occurrences x (push arr x) = S (occurrences x arr).
Proof.
  unfold occurrences, push. rewrite filter_app, length_app, filter_cons.
  rewrite decide_True by done. simpl. lia.
Qed.

(** X13: an intent and the poll after it.  When a dispatched intent
    names a relay with a non-zero id that was not pending, the next cycle
    on a snapshot that holds that relay (distinct ids, baseline entries)
    updates the relay whether or not the device reports a change, and the
    id is no longer pending afterwards. *)
Theorem intent_forces_the_next_update_once
    env a i state common native relay data O :
  ack state = false ->
  endsWith i "auto" = true \/ endsWith i "onOff" = true
  \/ endsWith i "dosageTimer" = true \/ endsWith i "timer" = true ->
  p_objects env !! i = Some (StateObject common (Some native)) ->
  getDataObject (_stateData a) (id native) = Some relay ->
  (endsWith i "auto" = true -> is_Some (p_states env !! replace_auto_onOff i)) ->
  id relay <> 0 ->
  id relay ∉ _forceUpdate a ->
  NoDup (id <$> objects data) ->
  allInBaseline a (objects data) ->
  O ∈ objects data ->
  id O = id relay ->
  let a1 := r_adapter (onStateChange env i (Some state) (start a)).2 in
  SetDataState O ∈ pr_calls (pollCallback a1 data)
  /\ id relay ∉ _forceUpdate (pr_adapter (pollCallback a1 data)).
Proof.
  intros Hack Hkind Hobj Hdata HonOff Hz Hfresh Hnd Hall HO Hid a1.
  assert (Ha1 : a1 = with_forceUpdate a (push (_forceUpdate a) (id relay)))
    by (by eapply dispatched_intent_adapter).
  assert (Hall1 : allInBaseline a1 (objects data)) by (by rewrite Ha1).
  assert (Hin : id O ∈ _forceUpdate a1).
  { rewrite Ha1, Hid. simpl. unfold push. apply elem_of_app. right. left. }
  destruct (Hall1 O HO) as [P HP].
  split.
  - apply pollCallback_calls; [done|]. left.
    apply (loop_emits a1 (objects data) (loopStart a1 data) O P); try done.
    by right; left.
  - rewrite pollCallback_force, <- Hid. apply occurrences_zero.
    pose proof (loop_consumes a1 (objects data) (loopStart a1 data) O Hnd Hall1
                  eq_refl HO Hin) as Hcount.
    rewrite Hid in Hcount. specialize (Hcount Hz).
    assert (Hone : occurrences (id relay) (cs_force (loopStart a1 data)) = 1%nat).
    { simpl. rewrite Ha1. simpl. rewrite occurrences_push.
      by rewrite (proj2 (occurrences_zero _ _) Hfresh). }
    rewrite Hid. lia.
Qed.

Lemma intent_forces_the_next_update_once_witness :
  let relay := Sample.pump 0 "Pump" "" in
  let a := Sample.adapter [] (Sample.snapshot 1 [relay]) true in
  let env := Sample.platform a [] (fun _ => Rejects "timeout") in
  let a1 := r_adapter (onStateChange env (Sample.relay1 ++ ["onOff"])
                         (Some (Sample.intent (SVBool true))) (start a)).2 in
  SetDataState relay ∈ pr_calls (pollCallback a1 (Sample.snapshot 1 [relay]))
  /\ id relay ∉ _forceUpdate (pr_adapter (pollCallback a1 (Sample.snapshot 1 [relay]))).
Proof.
  intros relay a env a1.
  refine (intent_forces_the_next_update_once env a (Sample.relay1 ++ ["onOff"])
            (Sample.intent (SVBool true))
            {| c_name := "Pump"; c_type := "boolean"; c_role := "switch";
               c_read := true; c_write := false; c_unit := None;
               c_smartName := SmartEmpty |}
            relay relay (Sample.snapshot 1 [relay]) relay _ _ _ _ _ _ _ _ _ _ _).
  - reflexivity.
  - right; left. reflexivity.
  - vm_compute. reflexivity.
  - reflexivity.
  - intros H. discriminate H.
  - discriminate.
  - intros H; inversion H.
  - vm_compute. repeat constructor. intros H; inversion H.
  - intros o Ho. apply list_elem_of_singleton in Ho. subst o. by eexists.
  - left.
  - reflexivity.
Defined.

(** ** What the materializer requests *)

(** The ids of the requests for one object: the channel, the states of
    the six tracked fields, and for a relay-class object [auto], [onOff]
    and one timer. *)
Lemma setDataObjectNotExists_ids a obj :
  (setDataObjectNotExists a obj).*1
  = channelId a obj
    :: (stateId a obj
          <$> ["category"; "label"; "value"; "displayValue"; "unit"; "active"]
              ++ (if isRelayClass a obj
                  then ["auto"; "onOff";
                        if isDosageControl (_getStateService_data a)
                             ((if bool_decide (category obj
                                               = GetStateCategory.EXTERNAL_RELAYS)
                               then 8 else 0) + categoryId obj)
                        then "dosageTimer" else "timer"]
                  else [])).
Proof.
  unfold setDataObjectNotExists. rewrite !fmap_app.
  assert (Hfields :
    (flat_map (fun field =>
                 match fieldCommon obj field with
                 | Some common => [(stateId a obj field, StateObject common (Some obj))]
                 | None => []
                 end) Object_keys).*1
    = stateId a obj <$> ["category"; "label"; "value"; "displayValue"; "unit"; "active"]).
  { unfold Object_keys, fieldCommon. cbn.
    by destruct (bool_decide (category obj = GetStateCategory.TEMPERATURES)). }
  rewrite Hfields. simpl. f_equal. f_equal.
  destruct (isRelayClass a obj); [|done]. unfold setRelayDataObject. cbn.
  by destruct (isDosageControl _ _).
Qed.

Lemma requested_ids_as_writes a obj :
  (setDataObjectNotExists a obj).*1
  = channelId a obj
    :: (sw_id <$> setDataState a obj)
    ++ (if isRelayClass a obj
        then [stateId a obj
                (if isDosageControl (_getStateService_data a)
                      ((if bool_decide (category obj = GetStateCategory.EXTERNAL_RELAYS)
                        then 8 else 0) + categoryId obj)
                 then "dosageTimer" else "timer")]
        else []).
Proof.
  rewrite setDataObjectNotExists_ids. f_equal.
  unfold setDataState. rewrite !fmap_app.
  replace (sw_id <$> map (fun field => {| sw_id := stateId a obj field;
                                            sw_val := getField obj field;
                                            sw_ack := true |})
                         (filter (fun field => -1 < indexOf _objectStateFields field)
                                 Object_keys))
    with (stateId a obj
            <$> ["category"; "label"; "value"; "displayValue"; "unit"; "active"])
    by reflexivity.
  rewrite <- app_assoc. f_equal.
  destruct (isRelayClass a obj); [|done]. simpl. by destruct (isDosageControl _ _).
Qed.

(** The states an update writes: those of the six tracked fields, and
    [auto] and [onOff] for a relay-class object. *)
Lemma setDataState_written_ids a obj i :
  i ∈ sw_id <$> setDataState a obj
  <-> (exists f, f ∈ _objectStateFields /\ i = stateId a obj f)
      \/ (isRelayClass a obj = true
          /\ (i = stateId a obj "auto" \/ i = stateId a obj "onOff")).
Proof.
  unfold setDataState. rewrite fmap_app, elem_of_app.
  replace (sw_id <$> map (fun field => {| sw_id := stateId a obj field;
                                            sw_val := getField obj field;
                                            sw_ack := true |})
                         (filter (fun field => -1 < indexOf _objectStateFields field)
                                 Object_keys))
    with (stateId a obj
            <$> ["category"; "label"; "value"; "displayValue"; "unit"; "active"])
    by reflexivity.
  assert (Hfields :
    i ∈ stateId a obj <$> ["category"; "label"; "value"; "displayValue"; "unit"; "active"]
    <-> exists f, f ∈ _objectStateFields /\ i = stateId a obj f).
  { rewrite list_elem_of_fmap. split.
    - intros (f & -> & Hf). exists f. split; [|done].
      repeat (apply elem_of_cons in Hf; destruct Hf as [->|Hf];
              [apply (bool_decide_unpack _); vm_compute; exact I|]).
      inversion Hf.
    - intros (f & Hf & ->). exists f. split; [done|]. unfold _objectStateFields in Hf.
      repeat (apply elem_of_cons in Hf; destruct Hf as [->|Hf];
              [apply (bool_decide_unpack _); vm_compute; exact I|]).
      inversion Hf. }
  assert (Hrelay :
    i ∈ sw_id <$> (if isRelayClass a obj then setRelayDataState a obj else [])
    <-> isRelayClass a obj = true
        /\ (i = stateId a obj "auto" \/ i = stateId a obj "onOff")).
  { destruct (isRelayClass a obj); simpl.
    - rewrite !elem_of_cons, elem_of_nil.
      split; [intros [?|[?|[]]]; auto|intros [_ [?|?]]; auto].
    - rewrite elem_of_nil. split; [intros []|intros [? _]; discriminate]. }
  by rewrite Hfields, Hrelay.
Qed.

(** X14: the materializer and the update agree on the states of an
    object, whatever the order of the object's keys.  The ids that
    [setDataObjectNotExists] requests are the channel, the states that
    [setDataState] writes, and for a relay-class object one timer state;
    [setDataState] writes the states of the six tracked fields, and
    [auto] and [onOff] for a relay-class object, and never a timer
    state. *)
Theorem materializer_requests_what_updates_write a obj :
  let timer :=
    stateId a obj
      (if isDosageControl (_getStateService_data a)
            ((if bool_decide (category obj = GetStateCategory.EXTERNAL_RELAYS)
              then 8 else 0) + categoryId obj)
       then "dosageTimer" else "timer") in
  (forall i,
     i ∈ (setDataObjectNotExists a obj).*1
     <-> i = channelId a obj
         \/ i ∈ sw_id <$> setDataState a obj
         \/ (isRelayClass a obj = true /\ i = timer))
  /\ (forall i,
        i ∈ sw_id <$> setDataState a obj
        <-> (exists f, f ∈ ["value"; "category"; "label"; "unit"; "displayValue"; "active"]
                       /\ i = stateId a obj f)
            \/ (isRelayClass a obj = true
                /\ (i = stateId a obj "auto" \/ i = stateId a obj "onOff")))
  /\ (forall i,
        i ∈ sw_id <$> setDataState a obj ->
        i <> stateId a obj "timer" /\ i <> stateId a obj "dosageTimer").
Proof.
  intros timer. split; [|split].
  - intros i. rewrite requested_ids_as_writes, elem_of_cons, elem_of_app.
    apply or_iff_compat_l, or_iff_compat_l. fold timer.
    destruct (isRelayClass a obj).
    + rewrite list_elem_of_singleton. split; [by split|by intros [_ ?]].
    + rewrite elem_of_nil. split; [intros []|intros [? _]; discriminate].
  - intros i. apply setDataState_written_ids.
  - intros i Hi. apply setDataState_written_ids in Hi.
    destruct Hi as [(f & Hf & ->)|(_ & [-> | ->])].
    + split; intros Heq; apply stateId_inj in Heq as (_ & _ & ->); not_tracked Hf.
    + split; intros Heq; apply stateId_inj in Heq as (_ & _ & Heq); discriminate.
    + split; intros Heq; apply stateId_inj in Heq as (_ & _ & Heq); discriminate.
Qed.

(** Every state an update writes was requested for the object. *)
Lemma setDataState_requested a obj w :
  w ∈ setDataState a obj -> sw_id w ∈ (setDataObjectNotExists a obj).*1.
Proof.
  intros Hw. rewrite requested_ids_as_writes. right. apply elem_of_app. left.
  by apply list_elem_of_fmap_2.
Qed.

Lemma endsWith_stateId a obj f : endsWith (stateId a obj f) f = true.
Proof.
  unfold endsWith, stateId, channelId, namespace. cbn.
  by rewrite bool_decide_eq_true_2.
Qed.

(** X15: every state that the materializer requests as writable for an
    object is one the dispatcher handles: its id ends in [.auto],
    [.onOff], [.dosageTimer] or [.timer], it carries the data object as
    its [native] part, and the object is of the relay class.  The states
    of the tracked fields are read-only. *)
Theorem writable_states_are_dispatched a obj i common native :
  (i, StateObject common native) ∈ setDataObjectNotExists a obj ->
  c_write common = true ->
  (endsWith i "auto" = true \/ endsWith i "onOff" = true
   \/ endsWith i "dosageTimer" = true \/ endsWith i "timer" = true)
  /\ native = Some obj
  /\ isRelayClass a obj = true.
Proof.
  unfold setDataObjectNotExists. rewrite !elem_of_app.
  intros [Hc|[Hc|Hc]] Hw.
  - apply list_elem_of_singleton in Hc. discriminate.
  - exfalso. apply list_elem_of_In, in_flat_map in Hc.
    destruct Hc as (f & _ & Hc).
    destruct (fieldCommon obj f) as [c|] eqn:Hf; [|inversion Hc].
    destruct Hc as [[= _ <- _]|[]].
    unfold fieldCommon in Hf.
    repeat (case_match; simplify_eq); simpl in Hw; discriminate.
  - destruct (isRelayClass a obj); [|inversion Hc]. unfold setRelayDataObject in Hc.
    repeat (apply elem_of_cons in Hc; destruct Hc as [Hc|Hc]).
    + injection Hc as -> _ <-. split_and!; try done. left. apply endsWith_stateId.
    + injection Hc as -> _ <-. split_and!; try done. right; left.
      apply endsWith_stateId.
    + destruct (isDosageControl _ _); injection Hc as -> _ <-; split_and!; try done.
      * right; right; left. apply endsWith_stateId.
      * right; right; right. apply endsWith_stateId.
    + inversion Hc.
Qed.

Lemma writable_states_are_dispatched_witness :
  let obj := Sample.heater 0 in
  let a := Sample.adapter [] (Sample.snapshot 1 [obj]) true in
  (endsWith (stateId a obj "timer") "auto" = true
   \/ endsWith (stateId a obj "timer") "onOff" = true
   \/ endsWith (stateId a obj "timer") "dosageTimer" = true
   \/ endsWith (stateId a obj "timer") "timer" = true)
  /\ Some obj = Some obj
  /\ isRelayClass a obj = true.
Proof.
  intros obj a.
  refine (writable_states_are_dispatched a obj (stateId a obj "timer")
            {| c_name := "Heater"; c_type := "number"; c_role := "value.interval";
               c_read := false; c_write := true; c_unit := None;
               c_smartName := SmartAbsent |} (Some obj) _ _).
  - apply (bool_decide_unpack _). vm_compute. exact I.
  - reflexivity.
Defined.

(** ** The object store under create-if-absent *)

Lemma setObjectNotExists_lookup (store : gmap Id ioObject) (i k : Id) o :
  setObjectNotExists store i o !! k
  = match store !! k with
    | Some o' => Some o'
    | None => if decide (i = k) then Some o else None
    end.
Proof.
  unfold setObjectNotExists. destruct (store !! i) eqn:Ei.
  - destruct (store !! k) eqn:Ek; [done|]. rewrite decide_False; [done|].
    intros ->. congruence.
  - destruct (decide (i = k)) as [->|Hne].
    + by rewrite lookup_insert_eq, Ei.
    + rewrite lookup_insert_ne by done. by destruct (store !! k).
Qed.

Lemma applyCreates_keeps (store : gmap Id ioObject) cs (k : Id) o :
  store !! k = Some o -> applyCreates store cs !! k = Some o.
Proof.
  revert store. induction cs as [|c cs IH]; intros store Hk; simpl; [done|].
  apply IH. by rewrite setObjectNotExists_lookup, Hk.
Qed.

Lemma setObjectNotExists_dom (store : gmap Id ioObject) (i : Id) o :
  dom (setObjectNotExists store i o) = dom store ∪ {[i]}.
Proof.
  unfold setObjectNotExists. destruct (store !! i) eqn:Ei.
  - apply elem_of_dom_2 in Ei. apply set_eq. intros k.
    rewrite elem_of_union, elem_of_singleton. split; [by left|].
    intros [?| ->]; done.
  - rewrite dom_insert_L. apply union_comm_L.
Qed.

Lemma applyCreates_dom (store : gmap Id ioObject) cs :
  dom (applyCreates store cs) = dom store ∪ list_to_set cs.*1.
Proof.
  revert store. induction cs as [|c cs IH]; intros store; simpl.
  - by rewrite union_empty_r_L.
  - rewrite IH, setObjectNotExists_dom. by rewrite <- union_assoc_L.
Qed.

Lemma applyCreates_present (store : gmap Id ioObject) cs :
  (forall c, c ∈ cs -> is_Some (store !! c.1)) -> applyCreates store cs = store.
Proof.
  induction cs as [|c cs IH]; intros Hcs; simpl; [done|].
  destruct (Hcs c) as [o Ho]; [left|].
  unfold setObjectNotExists at 1. rewrite Ho. apply IH.
  intros c' Hc'. apply Hcs. by right.
Qed.

(** The ids requested for an object depend on its category and its
    position in the category only. *)
Lemma requested_ids_by_path a obj obj' :
  category obj' = category obj -> categoryId obj' = categoryId obj ->
  (setDataObjectNotExists a obj').*1 = (setDataObjectNotExists a obj).*1.
Proof.
  intros Hcat Hcid. rewrite !setDataObjectNotExists_ids.
  unfold isRelayClass, stateId, channelId. by rewrite Hcat, Hcid.
Qed.

(** X16: the materializer never changes an object that is in the store,
    and running it again for the same channel changes nothing, even when
    the object's label (or any other field) has changed meanwhile: the
    objects keep the names they were created with, which is what the
    rename propagation is there for. *)
Theorem rematerializing_changes_nothing (a : ProconIp) (store : gmap Id ioObject)
    (obj obj' : GetStateDataObject) :
  category obj' = category obj ->
  categoryId obj' = categoryId obj ->
  let created := applyCreates store (setDataObjectNotExists a obj) in
  applyCreates created (setDataObjectNotExists a obj') = created
  /\ (forall k o, store !! k = Some o -> created !! k = Some o)
  /\ dom created = dom store ∪ list_to_set (setDataObjectNotExists a obj).*1.
Proof.
  intros Hcat Hcid created. split_and!.
  - apply applyCreates_present. intros c Hc. apply elem_of_dom.
    unfold created. rewrite applyCreates_dom. apply elem_of_union. right.
    apply elem_of_list_to_set.
    rewrite <- (requested_ids_by_path a obj obj') by done.
    by apply list_elem_of_fmap_2.
  - intros k o. apply applyCreates_keeps.
  - apply applyCreates_dom.
Qed.

Lemma rematerializing_changes_nothing_witness :
  let a := Sample.adapter [] (Sample.snapshot 1 []) true in
  let created := applyCreates ∅ (setDataObjectNotExists a (Sample.pump 0 "Pump" "")) in
  applyCreates created (setDataObjectNotExists a (Sample.pump 3 "Filter pump" "m3"))
  = created.
Proof.
  intros a created.
  refine (proj1 (rematerializing_changes_nothing a ∅ (Sample.pump 0 "Pump" "")
                   (Sample.pump 3 "Filter pump" "m3") _ _)); reflexivity.
Defined.

(** ** The rename propagation on the store *)

Lemma set_common_name_twice l o :
  set_common_name l (set_common_name l o) = set_common_name l o.
Proof. by destruct o. Qed.

Lemma is_state_object_renamed l o :
  is_state_object (set_common_name l o) = is_state_object o.
Proof. by destruct o. Qed.

(** X17: the rename propagation is local and idempotent: an object that
    is neither the channel nor beneath it is left as it is, a channel
    object beneath the channel keeps its name, every object is what it
    was up to its name, and propagating the same label a second time
    changes nothing. *)
Theorem rename_is_local_and_idempotent (a : ProconIp) (store : gmap Id ioObject)
    (obj : GetStateDataObject) :
  let store' := updateObjectCommonName a store obj in
  (forall k, k <> channelId a obj -> ~ channelId a obj `prefix_of` k ->
             store' !! k = store !! k)
  /\ (forall k n, k <> channelId a obj -> store !! k = Some (ChannelObject n) ->
                  store' !! k = Some (ChannelObject n))
  /\ (forall k o', store' !! k = Some o' ->
                   exists o, store !! k = Some o
                             /\ (o' = o \/ o' = set_common_name (label obj) o))
  /\ updateObjectCommonName a store' obj = store'.
Proof.
  intros store'. unfold store'. split_and!.
  - intros k Hk Hpre. rewrite updateObjectCommonName_lookup.
    destruct (store !! k); [|done]. rewrite decide_False; [done|].
    intros [?|(? & _)]; done.
  - intros k n Hk Hl. rewrite updateObjectCommonName_lookup, Hl.
    rewrite decide_False; [done|]. intros [?|(_ & _ & ?)]; done.
  - intros k o'. rewrite updateObjectCommonName_lookup.
    destruct (store !! k) as [o|]; [|done]. case_decide; intros [= <-]; eauto.
  - apply map_eq. intros k. rewrite !updateObjectCommonName_lookup.
    destruct (store !! k) as [o|]; [|done].
    destruct (decide (k = channelId a obj
                      \/ channelId a obj `prefix_of` k /\ channelId a obj <> k
                         /\ is_state_object o = true)) as [Hd|Hd].
    + rewrite decide_True; [by rewrite set_common_name_twice|].
      by rewrite is_state_object_renamed.
    + by rewrite decide_False.
Qed.

(** ** The materializer at startup *)

Lemma from_includes_objects a objs lastc o c :
  o ∈ objs -> c ∈ setDataObjectNotExists a o ->
  c ∈ setStateDataObjectsNotExists_from a lastc objs.
Proof.
  revert lastc. induction objs as [|x rest IH]; intros lastc Ho Hc; [inversion Ho|].
  cbn [setStateDataObjectsNotExists_from]. rewrite !elem_of_app.
  apply elem_of_cons in Ho. destruct Ho as [->|Ho]; [by right; left|].
  right; right. by apply IH.
Qed.

Lemma from_includes_channel a objs lastc o :
  o ∈ objs -> category o <> lastc ->
  (categoryChannelId a (category o), ChannelObject (category o))
  ∈ setStateDataObjectsNotExists_from a lastc objs.
Proof.
  revert lastc. induction objs as [|x rest IH]; intros lastc Ho Hne; [inversion Ho|].
  cbn [setStateDataObjectsNotExists_from]. rewrite !elem_of_app.
  destruct (decide (category o = category x)) as [Heq|Hdiff].
  - left. rewrite bool_decide_eq_false_2 by congruence. rewrite Heq. left.
  - apply elem_of_cons in Ho. destruct Ho as [->|Ho]; [done|].
    right; right. by apply IH.
Qed.

Lemma from_origin a objs lastc c :
  c ∈ setStateDataObjectsNotExists_from a lastc objs ->
  exists o, o ∈ objs
    /\ (c ∈ setDataObjectNotExists a o
        \/ c = (categoryChannelId a (category o), ChannelObject (category o))).
Proof.
  revert lastc. induction objs as [|x rest IH]; intros lastc Hc; [inversion Hc|].
  cbn [setStateDataObjectsNotExists_from] in Hc. rewrite !elem_of_app in Hc.
  destruct Hc as [Hc|[Hc|Hc]].
  - case_bool_decide as Hl; simpl in Hc; [inversion Hc|].
    apply list_elem_of_singleton in Hc. exists x. split; [left|by right].
  - exists x. split; [left|by left].
  - destruct (IH _ Hc) as (o & Ho & Hor). exists o. split; [by right|done].
Qed.

Lemma categoryChannel_not_of_object a o cat n :
  (categoryChannelId a cat, ChannelObject n) ∉ setDataObjectNotExists a o.
Proof.
  intros Hc. apply (list_elem_of_fmap_2 fst) in Hc.
  rewrite setDataObjectNotExists_ids in Hc. cbn [fst] in Hc.
  apply elem_of_cons in Hc. destruct Hc as [Hc|Hc]; [discriminate|].
  apply list_elem_of_fmap in Hc as (f & Hc & _). discriminate.
Qed.

Lemma from_same_category a objs cat :
  Forall (fun o => category o = cat) objs ->
  filter (fun c : Create => c = (categoryChannelId a cat, ChannelObject cat))
         (setStateDataObjectsNotExists_from a cat objs)
  = [].
Proof.
  induction 1 as [|o rest Ho _ IH]; [done|]. simpl in Ho. subst cat.
  cbn [setStateDataObjectsNotExists_from].
  rewrite bool_decide_eq_true_2 by done. cbn [negb app].
  rewrite filter_app, IH, app_nil_r.
  apply filter_none. intros c Hc ->. by apply categoryChannel_not_of_object in Hc.
Qed.

(** X18: at startup [setStateDataObjectsNotExists] requests, for every
    object of the snapshot, all that [setDataObjectNotExists] requests for
    it, and the channel of its category unless the category is the empty
    string; it requests nothing that does not come from an object of the
    snapshot; and for a snapshot whose objects all have one category it
    requests that channel exactly once. *)
Theorem startup_requests_cover_the_snapshot a objs :
  (forall o c, o ∈ objs -> c ∈ setDataObjectNotExists a o ->
               c ∈ setStateDataObjectsNotExists a objs)
  /\ (forall o, o ∈ objs -> category o <> "" ->
                (categoryChannelId a (category o), ChannelObject (category o))
                ∈ setStateDataObjectsNotExists a objs)
  /\ (forall c, c ∈ setStateDataObjectsNotExists a objs ->
                exists o, o ∈ objs
                  /\ (c ∈ setDataObjectNotExists a o
                      \/ c = (categoryChannelId a (category o),
                              ChannelObject (category o))))
  /\ (forall cat,
        cat <> "" -> objs <> [] -> Forall (fun o => category o = cat) objs ->
        filter (fun c : Create => c = (categoryChannelId a cat, ChannelObject cat))
               (setStateDataObjectsNotExists a objs)
        = [(categoryChannelId a cat, ChannelObject cat)]).
Proof.
  split_and!.
  - intros o c. apply from_includes_objects.
  - intros o Ho Hne. by apply from_includes_channel.
  - intros c. apply from_origin.
  - intros cat Hcat Hne Hall. destruct objs as [|o rest]; [done|].
    apply Forall_cons in Hall as [Ho Hall]. simpl in Ho. subst cat.
    unfold setStateDataObjectsNotExists. cbn [setStateDataObjectsNotExists_from].
    rewrite bool_decide_eq_false_2 by congruence. cbn [negb app].
    rewrite filter_cons, decide_True by done. f_equal.
    rewrite filter_app, from_same_category, app_nil_r by done.
    apply filter_none. intros c Hc ->. by apply categoryChannel_not_of_object in Hc.
Qed.

(** The states under [info.system] that a cycle writes have been
    requested with the type of the value written. *)
Lemma sysInfo_write_requested a s c :
  c ∈ sysInfoCalls a s ++ updateAdvancedSysInfoStates a s ->
  exists w common,
    c = SetStateAsync w
    /\ (sw_id w, StateObject common None) ∈ setSysInfoObjectsNotExists a s
    /\ c_type common = typeof (sw_val w).
Proof.
  unfold setSysInfoObjectsNotExists. rewrite elem_of_app. intros [Hc|Hc].
  - rewrite sysInfoCalls_filter in Hc.
    apply list_elem_of_fmap in Hc as ([key v] & -> & Hin).
    apply list_elem_of_filter in Hin as [_ Hin].
    eexists _, (sysInfoCommon key "string"). split_and!; [reflexivity| |reflexivity].
    rewrite !elem_of_app. right; left.
    by apply (list_elem_of_fmap_2
                (fun sysInfo : string * SysVal =>
                   (sysInfoStateId a sysInfo.1,
                    StateObject (sysInfoCommon sysInfo.1 "string") None)) _ (key, v)).
  - unfold updateAdvancedSysInfoStates, advancedSysInfoBatch in Hc.
    destruct (_ || _); [|inversion Hc].
    repeat (apply elem_of_cons in Hc; destruct Hc as [->|Hc];
            [eexists _, (sysInfoCommon _ "boolean");
             split_and!; [reflexivity| |reflexivity];
             rewrite !elem_of_app; right; right; simpl; repeat constructor|]).
    inversion Hc.
Qed.

(** X19: the states of the system info are requested read-only and
    without a [native] part, one string state for each scalar and four
    boolean ones, and every write of a cycle beneath [info.system] goes
    to a state that [setSysInfoObjectsNotExists] requests for the same
    system info, declared with the type of the value written. *)
Theorem sysInfo_states_read_only_and_typed a s :
  length (setSysInfoObjectsNotExists a s) = (5 + length (toArrayOfObjects s))%nat
  /\ (forall i common native,
        (i, StateObject common native) ∈ setSysInfoObjectsNotExists a s ->
        c_write common = false /\ c_read common = true /\ native = None)
  /\ (forall c,
        c ∈ sysInfoCalls a s ++ updateAdvancedSysInfoStates a s ->
        exists w common,
          c = SetStateAsync w
          /\ (sw_id w, StateObject common None) ∈ setSysInfoObjectsNotExists a s
          /\ c_type common = typeof (sw_val w)).
Proof.
  split_and!.
  - unfold setSysInfoObjectsNotExists. rewrite !length_app, length_map. simpl. lia.
  - intros i common native. unfold setSysInfoObjectsNotExists.
    rewrite !elem_of_app. intros [Hc|[Hc|Hc]].
    + apply list_elem_of_singleton in Hc. discriminate.
    + apply list_elem_of_fmap in Hc as (info & [= _ -> ->] & _). done.
    + repeat (apply elem_of_cons in Hc; destruct Hc as [[= _ -> ->]|Hc]; [done|]).
      inversion Hc.
  - intros c. apply sysInfo_write_requested.
Qed.

(** ** The derived booleans *)

(** X26: the four derived booleans are written as one batch, after the
    scalar writes and before anything else, exactly when the bootstrap
    flag is unset or the [dosageControl] property of the new system info
    is not the baseline's; otherwise none of them is written.  The calls
    before the batch are writes of scalars that [toArrayOfObjects]
    delivers, the calls after it are about objects or set the connection
    flag. *)
Theorem derived_flags_written_as_one_batch a data :
  exists scalars rest,
    pr_calls (pollCallback a data)
    = scalars
      ++ (if decide (_bootstrapped a = false
                     \/ properties (sysInfo data) !! "dosageControl"
                        <> properties (sysInfo (_stateData a)) !! "dosageControl")
          then
            [ SetStateAsync {| sw_id := namespace a ++ ["info"; "system"; "phPlusDosageEnabled"];
                               sw_val := SVBool (isPhPlusDosageEnabled (sysInfo data));
                               sw_ack := true |};
              SetStateAsync {| sw_id := namespace a ++ ["info"; "system"; "phMinusDosageEnabled"];
                               sw_val := SVBool (isPhMinusDosageEnabled (sysInfo data));
                               sw_ack := true |};
              SetStateAsync {| sw_id := namespace a ++ ["info"; "system"; "chlorineDosageEnabled"];
                               sw_val := SVBool (isChlorineDosageEnabled (sysInfo data));
                               sw_ack := true |};
              SetStateAsync {| sw_id := namespace a ++ ["info"; "system"; "electrolysis"];
                               sw_val := SVBool (isElectrolysis (sysInfo data));
                               sw_ack := true |} ]
          else [])
      ++ rest
    /\ (forall c, c ∈ scalars ->
                  exists key v,
                    (key, v) ∈ toArrayOfObjects (sysInfo data)
                    /\ c = SetStateAsync {| sw_id := namespace a ++ ["info"; "system"; key];
                                            sw_val := SVStr (toString v);
                                            sw_ack := true |})
    /\ (forall c, c ∈ rest ->
                  (exists o, c = SetDataState o \/ c = UpdateObjectCommonName o)
                  \/ c = SetStateAsync {| sw_id := connectionId a; sw_val := SVBool true;
                                          sw_ack := true |}).
Proof.
  destruct (loop_calls_app a (objects data) (loopStart a data)) as (rest & Hcalls & Hrest).
  assert (Hscalars : forall c, c ∈ sysInfoCalls a (sysInfo data) ->
            exists key v,
              (key, v) ∈ toArrayOfObjects (sysInfo data)
              /\ c = SetStateAsync {| sw_id := namespace a ++ ["info"; "system"; key];
                                      sw_val := SVStr (toString v);
                                      sw_ack := true |}).
  { intros c Hc. rewrite sysInfoCalls_filter in Hc.
    apply list_elem_of_fmap in Hc as ([key v] & -> & Hin).
    apply list_elem_of_filter in Hin as [_ Hin]. by exists key, v. }
  pose proof (updateAdvancedSysInfoStates_batch a (sysInfo data)) as Hbatch.
  unfold advancedSysInfoBatch, sysInfoStateId in Hbatch.
  rewrite pollCallback_loop. simpl. rewrite Hcalls. simpl. rewrite Hbatch.
  destruct (cs_thrown _).
  - exists (sysInfoCalls a (sysInfo data)), rest.
    simpl. rewrite <- app_assoc. split_and!; try done.
    intros c Hc. left. by apply Hrest.
  - exists (sysInfoCalls a (sysInfo data)),
      (rest ++ [SetStateAsync {| sw_id := connectionId a; sw_val := SVBool true;
                                 sw_ack := true |}]).
    simpl. rewrite <- !app_assoc. split_and!; try done.
    intros c. rewrite elem_of_app, list_elem_of_singleton.
    intros [Hc|Hc]; [left; by apply Hrest|by right].
Qed.

Lemma derived_flags_written_as_one_batch_witness :
  let relay := Sample.pump 0 "Pump" "" in
  let a := Sample.adapter [] (Sample.snapshot 5 [relay]) true in
  let flag key v :=
    SetStateAsync {| sw_id := sysInfoStateId a key; sw_val := SVBool v; sw_ack := true |} in
  (exists scalars rest,
     pr_calls (pollCallback a (Sample.snapshot 6 [relay]))
     = scalars
       ++ [flag "phPlusDosageEnabled" false; flag "phMinusDosageEnabled" true;
           flag "chlorineDosageEnabled" true; flag "electrolysis" false]
       ++ rest)
  /\ (forall key v, flag key v ∉ pr_calls (pollCallback a (Sample.snapshot 5 [relay]))).
Proof.
  intros relay a flag. split.
  - destruct (derived_flags_written_as_one_batch a (Sample.snapshot 6 [relay]))
      as (scalars & rest & H & _).
    exists scalars, rest. rewrite H. rewrite decide_True; [reflexivity|].
    right. vm_compute. discriminate.
  - destruct (derived_flags_written_as_one_batch a (Sample.snapshot 5 [relay]))
      as (scalars & rest & H & Hscalars & Hrest).
    rewrite decide_False in H
      by (intros [H'|H']; [discriminate|apply H'; reflexivity]).
    intros key v Hin. rewrite H, !elem_of_app in Hin.
    destruct Hin as [Hin|[Hin|Hin]].
    + destruct (Hscalars _ Hin) as (k & w & _ & Heq). discriminate.
    + inversion Hin.
    + destruct (Hrest _ Hin) as [[o [Heq|Heq]]|Heq]; discriminate.
Defined.

(** ** The dosage timer: the state and the intent *)

Lemma dosageTimer_requested_iff a obj :
  isRelayClass a obj = true ->
  (stateId a obj "dosageTimer" ∈ (setDataObjectNotExists a obj).*1
   <-> isDosageControl (_getStateService_data a) (dosageRelayId obj) = true)
  /\ (stateId a obj "timer" ∈ (setDataObjectNotExists a obj).*1
      <-> isDosageControl (_getStateService_data a) (dosageRelayId obj) = false).
Proof.
  intros Hrelay. rewrite setDataObjectNotExists_ids, Hrelay.
  replace ((if bool_decide (category obj = GetStateCategory.EXTERNAL_RELAYS)
            then 8 else 0) + categoryId obj)
    with (dosageRelayId obj) by (unfold dosageRelayId; lia).
  assert (Hmem : forall f g : string,
            stateId a obj f
            ∈ channelId a obj
              :: (stateId a obj
                    <$> ["category"; "label"; "value"; "displayValue"; "unit"; "active"]
                        ++ ["auto"; "onOff"; g])
            <-> f ∈ ["category"; "label"; "value"; "displayValue"; "unit"; "active";
                     "auto"; "onOff"; g]).
  { intros f g. rewrite elem_of_cons. split.
    - intros [Hc|Hc]; [symmetry in Hc; by apply channelId_not_stateId in Hc|].
      apply list_elem_of_fmap in Hc as (f' & Heq & Hf').
      by apply stateId_inj in Heq as (_ & _ & ->).
    - intros Hf. right. by apply list_elem_of_fmap_2. }
  rewrite !Hmem. destruct (isDosageControl _ _); split; split;
    first [ done
          | by (intros _; repeat constructor)
          | intros H;
            repeat (apply elem_of_cons in H; destruct H as [H|H]; [discriminate|]);
            inversion H ].
Qed.

(** X20: the timer state of a relay and the dosage handler agree.  With
    the same three dosage-control ids configured in the service's data
    and in the baseline, the materializer requests a [dosageTimer] state
    for a relay-class object exactly when a dosage-timer intent on that
    object transmits a dosage command, and a plain [timer] state exactly
    when such an intent would transmit nothing. *)
Theorem dosageTimer_state_iff_intent_transmits env a objectId state common obj :
  isRelayClass a obj = true ->
  getChlorineDosageControlId (_getStateService_data a)
  = getChlorineDosageControlId (_stateData a) ->
  getPhMinusDosageControlId (_getStateService_data a)
  = getPhMinusDosageControlId (_stateData a) ->
  getPhPlusDosageControlId (_getStateService_data a)
  = getPhPlusDosageControlId (_stateData a) ->
  p_objects env !! objectId = Some (StateObject common (Some obj)) ->
  getDataObject (_stateData a) (id obj) = Some obj ->
  let sent := transmitted (r_trace (setDosageTimer env objectId state (start a)).2) in
  (stateId a obj "dosageTimer" ∈ (setDataObjectNotExists a obj).*1
   <-> length sent = 1%nat)
  /\ (stateId a obj "timer" ∈ (setDataObjectNotExists a obj).*1 <-> sent = []).
Proof.
  intros Hrelay Hcl Hminus Hplus Hobj Hdata sent.
  destruct (dosageTimer_requested_iff a obj Hrelay) as [-> ->].
  unfold isDosageControl. rewrite Hcl, Hminus, Hplus.
  unfold sent. unfold_handler. rewrite Hobj. simpl. rewrite Hdata. simpl.
  destruct (dosageRelayId obj =? getChlorineDosageControlId (_stateData a));
    [|destruct (dosageRelayId obj =? getPhMinusDosageControlId (_stateData a));
      [|destruct (dosageRelayId obj =? getPhPlusDosageControlId (_stateData a))]];
    simpl;
    try match goal with |- context [p_device env ?c] => destruct (p_device env c) end;
    simpl; split; split; done.
Qed.

Lemma dosageTimer_state_iff_intent_transmits_witness :
  let obj := Sample.pump 0 "Pump" "" in
  let a := Sample.adapter [] (Sample.snapshot 1 [obj]) true in
  let env := Sample.platform a [] (fun _ => Fulfils 0) in
  let sent := transmitted
                (r_trace (setDosageTimer env (stateId a obj "dosageTimer")
                            (Sample.intent (SVNum 30)) (start a)).2) in
  stateId a obj "dosageTimer" ∈ (setDataObjectNotExists a obj).*1
  <-> length sent = 1%nat.
Proof.
  intros obj a env sent.
  refine (proj1 (dosageTimer_state_iff_intent_transmits env a
                   (stateId a obj "dosageTimer") (Sample.intent (SVNum 30))
                   {| c_name := "Pump"; c_type := "number"; c_role := "value.interval";
                      c_read := false; c_write := true; c_unit := None;
                      c_smartName := SmartAbsent |} obj _ _ _ _ _ _));
    reflexivity.
Defined.

(** ** Startup *)

Lemma length_below_one (s : string) :
  (Z.of_nat (String.length s) <? 1) = bool_decide (s = "").
Proof.
  destruct s as [|c s]; [done|]. rewrite bool_decide_eq_false_2 by done.
  apply Z.ltb_ge. cbn [String.length]. lia.
Qed.

Lemma onReady_invalid isValidURL url update a :
  url = "" \/ isValidURL url = false ->
  onReady isValidURL url update a
  = (true, a, [SetConnection false;
               LogLine "warn" ("Invalid controller URL ('" ++ url ++ "') supplied.")%string]).
Proof.
  intros H. unfold onReady. rewrite length_below_one.
  destruct H as [-> | ->]; [done|]. by rewrite orb_true_r.
Qed.

Lemma onReady_valid isValidURL url update a :
  url <> "" -> isValidURL url = true ->
  onReady isValidURL url update a
  = match update with
    | None => (false, a, [SetConnection false; Update])
    | Some data =>
        let a' := with_stateData a data in
        (true, a',
         [SetConnection false; Update]
         ++ (if _bootstrapped a then []
             else LogLine "debug" "Initially setting adapter objects"
                  :: map Request (setSysInfoObjectsNotExists a' (sysInfo data)
                                  ++ setStateDataObjectsNotExists a' (objects data)))
         ++ [StartTimer;
             Subscribe (namespace a ++ ["relays"; "*"]);
             Subscribe (namespace a ++ ["externalRelays"; "*"])])
    end.
Proof.
  intros Hne Hvalid. unfold onReady. rewrite length_below_one.
  rewrite bool_decide_eq_false_2, Hvalid by done. simpl.
  destruct update; [|done]. simpl. by destruct (_bootstrapped a).
Qed.

(** X21: [onReady] schedules the polling service and subscribes to the
    relay states exactly when the controller URL is non-empty and valid
    and the first update succeeds.  With an empty or invalid URL it only
    clears the connection flag and logs a warning; when the update fails
    its promise is rejected after the connection flag was cleared, with
    nothing requested, scheduled or subscribed.  It requests objects only
    while the bootstrap flag is unset, and never touches the force-update
    array or the bootstrap flag. *)
Theorem onReady_starts_polling_iff_configured_and_updated isValidURL url update a :
  let result := onReady isValidURL url update a in
  let configured := url <> "" /\ isValidURL url = true in
  (StartTimer ∈ result.2 <-> configured /\ is_Some update)
  /\ (Subscribe (namespace a ++ ["relays"; "*"]) ∈ result.2
      <-> configured /\ is_Some update)
  /\ (Subscribe (namespace a ++ ["externalRelays"; "*"]) ∈ result.2
      <-> configured /\ is_Some update)
  /\ (~ configured ->
      result
      = (true, a,
         [SetConnection false;
          LogLine "warn" ("Invalid controller URL ('" ++ url ++ "') supplied.")%string]))
  /\ (configured -> update = None ->
      result = (false, a, [SetConnection false; Update]))
  /\ (forall c, Request c ∈ result.2 ->
                configured /\ is_Some update /\ _bootstrapped a = false)
  /\ _forceUpdate result.1.2 = _forceUpdate a
  /\ _bootstrapped result.1.2 = _bootstrapped a.
Proof.
  intros result configured. unfold result, configured.
  destruct (decide (url <> "" /\ isValidURL url = true)) as [[Hne Hvalid]|Hnot].
  - rewrite onReady_valid by done. destruct update as [data|]; cbn [fst snd].
    + assert (Hlast : forall x,
                x ∈ [StartTimer; Subscribe (namespace a ++ ["relays"; "*"]);
                     Subscribe (namespace a ++ ["externalRelays"; "*"])] ->
                x ∈ [SetConnection false; Update]
                    ++ (if _bootstrapped a then []
                        else LogLine "debug" "Initially setting adapter objects"
                             :: map Request
                                  (setSysInfoObjectsNotExists (with_stateData a data)
                                     (sysInfo data)
                                   ++ setStateDataObjectsNotExists
                                        (with_stateData a data) (objects data)))
                    ++ [StartTimer; Subscribe (namespace a ++ ["relays"; "*"]);
                        Subscribe (namespace a ++ ["externalRelays"; "*"])]).
      { intros x Hx. apply elem_of_app. right. apply elem_of_app. by right. }
      split_and!.
      * split; [by eauto|]. intros _. apply Hlast. repeat constructor.
      * split; [by eauto|]. intros _. apply Hlast. repeat constructor.
      * split; [by eauto|]. intros _. apply Hlast. repeat constructor.
      * intros []. done.
      * done.
      * intros c Hc. split; [done|]. split; [by eauto|].
        destruct (_bootstrapped a); [|done]. exfalso.
        repeat (apply elem_of_cons in Hc; destruct Hc as [Hc|Hc]; [discriminate|]).
        inversion Hc.
      * done.
      * done.
    + split_and!.
      * split; [intros H|intros (_ & [? [=]])].
        repeat (apply elem_of_cons in H; destruct H as [H|H]; [discriminate|]).
        inversion H.
      * split; [intros H|intros (_ & [? [=]])].
        repeat (apply elem_of_cons in H; destruct H as [H|H]; [discriminate|]).
        inversion H.
      * split; [intros H|intros (_ & [? [=]])].
        repeat (apply elem_of_cons in H; destruct H as [H|H]; [discriminate|]).
        inversion H.
      * intros []. done.
      * done.
      * intros c H. exfalso.
        repeat (apply elem_of_cons in H; destruct H as [H|H]; [discriminate|]).
        inversion H.
      * done.
      * done.
  - assert (Hinv : url = "" \/ isValidURL url = false).
    { destruct (decide (url = "")); [by left|right].
      destruct (isValidURL url); [|done]. exfalso. by apply Hnot. }
    rewrite onReady_invalid by done. cbn [fst snd].
    split_and!.
    + split; [intros H|intros [? _]; done].
      repeat (apply elem_of_cons in H; destruct H as [H|H]; [discriminate|]).
      inversion H.
    + split; [intros H|intros [? _]; done].
      repeat (apply elem_of_cons in H; destruct H as [H|H]; [discriminate|]).
      inversion H.
    + split; [intros H|intros [? _]; done].
      repeat (apply elem_of_cons in H; destruct H as [H|H]; [discriminate|]).
      inversion H.
    + done.
    + intros ?. done.
    + intros c H. exfalso.
      repeat (apply elem_of_cons in H; destruct H as [H|H]; [discriminate|]).
      inversion H.
    + done.
    + done.
Qed.

Lemma findObject_is_Some objs o : o ∈ objs -> is_Some (findObject objs (id o)).
Proof.
  induction objs as [|x rest IH]; intros Ho; [inversion Ho|]. simpl.
  destruct (Z.eqb_spec (id x) (id o)); [by eexists|].
  apply IH. apply elem_of_cons in Ho. destruct Ho as [->|Ho]; done.
Qed.

(** X22: startup and the first poll.  After [onReady] succeeded on an
    adapter that is not bootstrapped, the first cycle on the snapshot of
    the update runs to its end, updates every object of the snapshot
    exactly once, and writes, apart from the connection flag, only to
    states that [onReady] requested. *)
Theorem first_poll_after_startup isValidURL url data a :
  url <> "" ->
  isValidURL url = true ->
  _bootstrapped a = false ->
  let started := onReady isValidURL url (Some data) a in
  let a' := started.1.2 in
  let result := pollCallback a' data in
  pr_thrown result = false
  /\ omap (fun c => match c with SetDataState o => Some o | _ => None end)
          (pr_calls result)
     = objects data
  /\ (forall w, w ∈ storeWrites a' (pr_calls result) ->
                sw_id w = connectionId a'
                \/ exists c, Request c ∈ started.2 /\ c.1 = sw_id w).
Proof.
  intros Hne Hvalid Hboot started a' result.
  unfold result, a', started. rewrite onReady_valid by done. cbn [fst snd].
  rewrite Hboot.
  set (b := with_stateData a data).
  assert (Hb : _bootstrapped b = false) by done.
  assert (Hall : allInBaseline b (objects data)).
  { intros o Ho. by apply findObject_is_Some. }
  assert (Hth : cs_thrown (foldl (onObject b) (loopStart b data) (objects data)) = false)
    by (by apply loop_no_throw).
  split_and!.
  - rewrite pollCallback_loop. cbv zeta. by rewrite Hth.
  - rewrite pollCallback_loop. cbv zeta. rewrite Hth. simpl.
    rewrite updated_app, loop_first_cycle by done. simpl. rewrite app_nil_r.
    replace (omap _ (cs_calls (loopStart b data))) with (@nil GetStateDataObject);
      [done|].
    symmetry. apply omap_none. intros c Hc.
    by apply loopStart_calls in Hc as (key & v & ->).
  - intros w Hw. unfold storeWrites in Hw. apply list_elem_of_In, in_flat_map in Hw.
    destruct Hw as (c & Hc & Hw). apply list_elem_of_In in Hc, Hw.
    assert (Hreq : forall c', c' ∈ setSysInfoObjectsNotExists b (sysInfo data)
                              ++ setStateDataObjectsNotExists b (objects data) ->
                     Request c'
                     ∈ [SetConnection false; Update]
                       ++ (LogLine "debug" "Initially setting adapter objects"
                           :: map Request
                                (setSysInfoObjectsNotExists b (sysInfo data)
                                 ++ setStateDataObjectsNotExists b (objects data)))
                       ++ [StartTimer; Subscribe (namespace a ++ ["relays"; "*"]);
                           Subscribe (namespace a ++ ["externalRelays"; "*"])]).
    { intros c' Hc'. apply elem_of_app. right. apply elem_of_app. left. right.
      by apply (list_elem_of_fmap_2 Request). }
    apply pollCallback_calls_inv in Hc as [Hc| ->].
    + apply loop_calls_inv in Hc as [Hc|(o & prev & Ho & _ & _ & Hc)].
      * destruct (sysInfo_write_requested b (sysInfo data) c Hc)
          as (w' & common & -> & Hin & _).
        simpl in Hw. apply list_elem_of_singleton in Hw. subst w'.
        right. eexists. split; [apply Hreq, elem_of_app; left; exact Hin|done].
      * destruct Hc as [->|[-> _]]; simpl in Hw; [|inversion Hw].
        apply setDataState_requested in Hw.
        apply list_elem_of_fmap in Hw as (c' & Heq & Hc').
        right. exists c'. split; [|done]. apply Hreq, elem_of_app. right.
        by eapply from_includes_objects.
    + simpl in Hw. apply list_elem_of_singleton in Hw. subst w. by left.
Qed.

Lemma first_poll_after_startup_witness :
  let data := Sample.snapshot 1 [Sample.pump 0 "Pump" ""; Sample.heater 0] in
  let a := Sample.adapter [] (Sample.snapshot 0 []) false in
  let started := onReady (fun _ => true) "http://pool" (Some data) a in
  pr_thrown (pollCallback started.1.2 data) = false
  /\ omap (fun c => match c with SetDataState o => Some o | _ => None end)
          (pr_calls (pollCallback started.1.2 data))
     = objects data.
Proof.
  intros data a started.
  assert (H := first_poll_after_startup (fun _ => true) "http://pool" data a).
  destruct H as (H1 & H2 & _); [discriminate|reflexivity|reflexivity|].
  split; [exact H1|exact H2].
Defined.

(** ** The service callbacks *)

Lemma approved_never_stops s rs :
  s_connectionApproved s = true -> StopService ∉ onReports s rs.
Proof.
  revert s. induction rs as [|r rest IH]; intros s Happ; simpl.
  - intros H; inversion H.
  - destruct r as [data|reason]; simpl.
    + by apply IH.
    + rewrite Happ. simpl. intros H.
      apply elem_of_cons in H. destruct H as [H|H]; [discriminate|].
      by apply (IH s Happ).
Qed.

(** X23: the polling service is stopped by a failure only while no
    snapshot has been delivered: a first failure on a fresh session is
    logged and stops the service, and once a snapshot went through the
    poll callback, whether the callback ran to its end or not, no later
    failure stops the service; every failure clears the connection flag. *)
Theorem failure_stops_service_only_before_first_snapshot s data reason rs :
  (StopService ∉ onReports (onReport s (Snapshot data)).1.1 rs)
  /\ (s_connectionApproved s = false ->
      onReports s (Failure reason :: rs)
      = [SetConnection false;
         LogLine "error" ("Could not connect to the controller: " ++ reason)%string;
         StopService]
        ++ onReports s rs)
  /\ (exists rest, onReports s (Failure reason :: rs) = SetConnection false :: rest).
Proof.
  split_and!.
  - by apply approved_never_stops.
  - intros Happ. simpl. by rewrite Happ.
  - simpl. eauto.
Qed.

(** ** Shutdown *)

(** X24: [onUnload] calls the callback exactly once, as its last action,
    whether or not the service was ever created, whether or not stopping
    it or clearing the connection flag throws; it stops the service
    exactly when there is one and clears the timer exactly when one is
    set. *)
Theorem onUnload_always_calls_back service setStateThrows timeout :
  exists before,
    onUnload service setStateThrows timeout = before ++ [Callback]
    /\ (Callback ∉ before)
    /\ (StopService ∈ before <-> is_Some service)
    /\ (ClearTimeout ∈ before <-> timeout = true).
Proof.
  unfold onUnload. cbv zeta.
  match goal with
  | |- exists before, ?x ++ (?y ++ _) = _ /\ _ => exists (x ++ y)
  end.
  split; [by rewrite <- app_assoc|].
  destruct service as [[reason|]|], setStateThrows as [reason'|], timeout; simpl;
    split_and!;
    try (split; [intros H|first [intros [? [=]] | intros [=]]]);
    try (intros H);
    first [ by repeat constructor
          | by eexists
          | done
          | (repeat (apply elem_of_cons in H; destruct H as [H|H]; [discriminate|]);
             inversion H) ].
Qed.
